(** * perfwatch-cli: the load-testing engine (src/tools/loadtest.py)

    A shallow embedding of [LoadTestTool] and the proofs of its
    statistical reducer, its percentile routine, its request dispatch and
    its semaphore-bounded runner.

    Numbers.  Python's [float] values are embedded as exact rationals [Q];
    equality of results is rational equality [==].  Python's [int] values
    are [Z].  What exact rationals leave out is embedded beside them.
    The range of a float: [_calculate_stats_checked] and [run_checked]
    are the reducer and the runner in which an int too large to convert
    raises [OverflowError].  The rounding of binary64 arithmetic:
    [_percentile_binary64] and [median_binary64] are the percentile
    routine and the median on the kernel's binary64 numbers, where the
    interpolation line moves a result by a rounding step.

    Scheduling.  [asyncio] runs the units of work cooperatively on one
    thread; a run is an interleaving of two atomic steps per request,
    entering the semaphore and coming back from the network, and a
    schedule is a list of such steps.  The client's timeout shows up as
    the reply [Raised TimeoutException].  A reply [Raised e] names the
    [except] clause that handles the exception; [caught_as] finds that
    clause from the class of the exception, along the base classes of
    httpx's exceptions (module [httpx]).

    Around the tool.  The file also embeds what uses the tool's result:
    the [loadtest] command with its console report
    (src/cli/commands/loadtest.py), [Config.get] (src/utils/config.py) and
    [AnalyzerAgent._analyze_results] (src/core/analyzer.py).  Python's
    [format(x, ".Nf")] stays a parameter there, as [math.sqrt] does in the
    reducer, and so do [validate_url] and [normalize_url], which rest on
    [urllib] and [re].

    Errors.  A Python exception raised by a primitive ([ZeroDivisionError],
    [IndexError], [ValueError], [statistics.StatisticsError],
    [OverflowError]) is a value [Raise e] of the type [py]; the code's
    guards are what make the reducer total inside the range of a float,
    and that is proved rather than assumed. *)

From Stdlib Require Import PrimFloat FloatOps SpecFloat.
From Stdlib Require Import QArith Qround Qabs Lqa ZArith Lia List String Ascii Sorted.
From stdpp Require Import gmap strings list fin_maps pretty.

Local Open Scope Q_scope.

(** ** Exceptions of the primitives *)

Inductive pyerr : Type :=
| ZeroDivisionError
| IndexError
| ValueError
| StatisticsError
| OverflowError.

Inductive py (A : Type) : Type :=
| Ret (a : A)
| Raise (e : pyerr).
Arguments Ret {A} a.
Arguments Raise {A} e.

Definition py_bind {A B : Type} (m : py A) (k : A -> py B) : py B :=
  match m with
  | Ret a => k a
  | Raise e => Raise e
  end.

Notation "'do' x <- m ; k" := (py_bind m (fun x => k))
  (at level 10, x name, m at level 100, k at level 200).

(** ** Python primitives used by the reducer *)

(** [a / b] on numbers: true division, raising on a zero divisor. *)
Definition py_truediv (a b : Q) : py Q :=
  if Qeq_bool b 0 then Raise ZeroDivisionError else Ret (a / b).

(** [int(x)] on a float: truncation towards zero. *)
Definition py_int (x : Q) : Z := Z.quot (Qnum x) (Zpos (Qden x)).

(** [l[i]] with Python's index rules: negative indices count from the
    end, anything outside [-len, len) raises [IndexError]. *)
Definition py_index (l : list Q) (i : Z) : py Q :=
  let n := Z.of_nat (length l) in
  if (0 <=? i)%Z && (i <? n)%Z then
    match nth_error l (Z.to_nat i) with Some x => Ret x | None => Raise IndexError end
  else if (- n <=? i)%Z && (i <? 0)%Z then
    match nth_error l (Z.to_nat (n + i)) with Some x => Ret x | None => Raise IndexError end
  else Raise IndexError.

(** [sorted(l)]: a stable ascending sort. *)
Fixpoint insert_sorted (x : Q) (l : list Q) : list Q :=
  match l with
  | [] => [x]
  | y :: t => if Qle_bool y x then y :: insert_sorted x t else x :: y :: t
  end.

Fixpoint sorted (l : list Q) : list Q :=
  match l with
  | [] => []
  | x :: t => insert_sorted x (sorted t)
  end.

Definition Qsum (l : list Q) : Q := fold_right Qplus 0 l.

(** [min(l)] and [max(l)]: the first smallest / first largest element;
    [ValueError] on an empty argument. *)
Definition py_min (l : list Q) : py Q :=
  match l with
  | [] => Raise ValueError
  | x :: t => Ret (fold_left (fun m y => if Qlt_le_dec y m then y else m) t x)
  end.

Definition py_max (l : list Q) : py Q :=
  match l with
  | [] => Raise ValueError
  | x :: t => Ret (fold_left (fun m y => if Qlt_le_dec m y then y else m) t x)
  end.

(** [statistics.mean]. *)
Definition mean (l : list Q) : py Q :=
  match l with
  | [] => Raise StatisticsError
  | _ => Ret (Qsum l / inject_Z (Z.of_nat (length l)))
  end.

(** [statistics.median]: the middle element of the sorted data, or the
    mean of the two middle elements for an even count. *)
Definition median (l : list Q) : py Q :=
  let data := sorted l in
  let n := length data in
  match n with
  | O => Raise StatisticsError
  | _ =>
    if Nat.odd n then py_index data (Z.of_nat (n / 2))
    else
      do a <- py_index data (Z.of_nat (n / 2 - 1));
      do b <- py_index data (Z.of_nat (n / 2));
      Ret ((a + b) / 2)
  end.

(** ** [_percentile] *)

Definition _percentile (sorted_data : list Q) (percentile : Z) : py Q :=
  match sorted_data with
  | [] => Ret 0
  | _ =>
    let len := Z.of_nat (length sorted_data) in
    let k := inject_Z (len - 1) * (inject_Z percentile / 100) in
    let f := py_int k in
    let c := if (f + 1 <? len)%Z then (f + 1)%Z else f in
    if (f =? c)%Z then py_index sorted_data f
    else
      do lo <- py_index sorted_data f;
      do hi <- py_index sorted_data c;
      Ret (lo * (inject_Z c - k) + hi * (k - inject_Z f))
  end.

(** ** [_calculate_stats] *)

Record LoadTestResult : Type := {
  total_requests : Z;
  successful : Z;
  failed : Z;
  success_rate : Q;
  status_codes : gmap Z Z;
  errors : list string;
  duration : Q;
  rps : Q;
  avg_response_time : Q;
  min_response_time : Q;
  max_response_time : Q;
  median_response_time : Q;
  stdev_response_time : Q;
  p95_response_time : Q;
  p99_response_time : Q
}.

(** [errors[:10]] *)
Definition py_slice_to {A : Type} (n : nat) (l : list A) : list A := firstn n l.

Section Reducer.

(** [math.sqrt], which [statistics.stdev] ends with; it is irrational
    in general and stays a parameter of the reducer. *)
Variable sqrt : Q -> Q.

(** [statistics.stdev]: the square root of the sample variance (divisor
    [n - 1]); [StatisticsError] below two data points. *)
Definition stdev (l : list Q) : py Q :=
  match l with
  | [] | [_] => Raise StatisticsError
  | _ =>
    let n := inject_Z (Z.of_nat (length l)) in
    let m := Qsum l / n in
    let ss := Qsum (List.map (fun x => (x - m) * (x - m)) l) in
    Ret (sqrt (ss / (n - 1)))
  end.

Definition _calculate_stats (response_times : list Q) (codes : gmap Z Z)
    (errs : list string) (total : Z) (dur : Q) : py LoadTestResult :=
  let successful := Z.of_nat (length response_times) in
  let failed := (total - successful)%Z in
  do rate <- (if (total >? 0)%Z
              then do q <- py_truediv (inject_Z successful) (inject_Z total);
                   Ret (q * 100)
              else Ret 0);
  do rps <- (if Qlt_le_dec 0 dur then py_truediv (inject_Z total) dur else Ret 0);
  match response_times with
  | _ :: _ =>
    let sorted_times := sorted response_times in
    do avg <- mean response_times;
    do mn <- py_min response_times;
    do mx <- py_max response_times;
    do med <- median response_times;
    do sd <- (if (1 <? length response_times)%nat then stdev response_times else Ret 0);
    do p95 <- _percentile sorted_times 95;
    do p99 <- _percentile sorted_times 99;
    Ret {| total_requests := total; successful := successful; failed := failed;
           success_rate := rate; status_codes := codes;
           errors := py_slice_to 10 errs; duration := dur; rps := rps;
           avg_response_time := avg; min_response_time := mn;
           max_response_time := mx; median_response_time := med;
           stdev_response_time := sd; p95_response_time := p95;
           p99_response_time := p99 |}
  | [] =>
    Ret {| total_requests := total; successful := successful; failed := failed;
           success_rate := rate; status_codes := codes;
           errors := py_slice_to 10 errs; duration := dur; rps := rps;
           avg_response_time := 0; min_response_time := 0;
           max_response_time := 0; median_response_time := 0;
           stdev_response_time := 0; p95_response_time := 0;
           p99_response_time := 0 |}
  end.

End Reducer.

(** ** The range of a float *)

(** Python converts an int to a float by rounding to the nearest binary64
    number, ties to even, and raises [OverflowError] when that number is
    not finite: from [2^1024 - 2^970] on, which lies half-way between the
    largest float and [2^1024]. *)
Definition float_overflow : Z := (2 ^ 1024 - 2 ^ 970)%Z.

(** [float(n)], the conversion that [int / float] applies to its left
    operand; inside the range the value stays the number itself. *)
Definition py_float (n : Z) : py Q :=
  if (float_overflow <=? Z.abs n)%Z then Raise OverflowError else Ret (inject_Z n).

(** [a / b] on two ints.  The quotient is rounded once, the operands are
    not converted, so [OverflowError] is raised only when the quotient
    itself reaches the bound. *)
Definition py_truediv_int (a b : Z) : py Q :=
  if (b =? 0)%Z then Raise ZeroDivisionError
  else if (float_overflow * Z.abs b <=? Z.abs a)%Z then Raise OverflowError
  else Ret (inject_Z a / inject_Z b).

Section ReducerWithRange.

Variable sqrt : Q -> Q.

(** [_calculate_stats] once more, now with the range of a float in its
    two divisions: line 130 divides the int [successful] by the int
    [total_requests], line 134 converts the int [total_requests] to a
    float and divides it by the float [duration].  The rest of the body
    is the one above. *)
Definition _calculate_stats_checked (response_times : list Q) (codes : gmap Z Z)
    (errs : list string) (total : Z) (dur : Q) : py LoadTestResult :=
  let successful := Z.of_nat (length response_times) in
  let failed := (total - successful)%Z in
  do rate <- (if (total >? 0)%Z
              then do q <- py_truediv_int successful total;
                   Ret (q * 100)
              else Ret 0);
  do rps <- (if Qlt_le_dec 0 dur
             then do t <- py_float total; py_truediv t dur
             else Ret 0);
  match response_times with
  | _ :: _ =>
    let sorted_times := sorted response_times in
    do avg <- mean response_times;
    do mn <- py_min response_times;
    do mx <- py_max response_times;
    do med <- median response_times;
    do sd <- (if (1 <? length response_times)%nat then stdev sqrt response_times else Ret 0);
    do p95 <- _percentile sorted_times 95;
    do p99 <- _percentile sorted_times 99;
    Ret {| total_requests := total; successful := successful; failed := failed;
           success_rate := rate; status_codes := codes;
           errors := py_slice_to 10 errs; duration := dur; rps := rps;
           avg_response_time := avg; min_response_time := mn;
           max_response_time := mx; median_response_time := med;
           stdev_response_time := sd; p95_response_time := p95;
           p99_response_time := p99 |}
  | [] =>
    Ret {| total_requests := total; successful := successful; failed := failed;
           success_rate := rate; status_codes := codes;
           errors := py_slice_to 10 errs; duration := dur; rps := rps;
           avg_response_time := 0; min_response_time := 0;
           max_response_time := 0; median_response_time := 0;
           stdev_response_time := 0; p95_response_time := 0;
           p99_response_time := 0 |}
  end.

End ReducerWithRange.

(** ** The request each unit of work sends *)

(** [str.upper], on the ASCII letters a method name is made of. *)
Definition upper_ascii (c : ascii) : ascii :=
  let n := nat_of_ascii c in
  if ((97 <=? n)%nat && (n <=? 122)%nat)%bool then ascii_of_nat (n - 32) else c.

Fixpoint upper (s : string) : string :=
  match s with
  | EmptyString => EmptyString
  | String c t => String (upper_ascii c) (upper t)
  end.

(** What reaches [httpx]: the verb, the URL and the two keyword arguments.
    [call_content = None] is a call made without the [content=] argument. *)
Record HttpCall : Type := {
  call_verb : string;
  call_url : string;
  call_headers : option (gmap string string);
  call_content : option string
}.

(** The [if]/[elif] chain on [method.upper()] inside [make_request]. *)
Definition dispatch (method url : string) (headers : option (gmap string string))
    (body : option string) : HttpCall :=
  if String.eqb (upper method) "GET" then
    {| call_verb := "GET"; call_url := url; call_headers := headers; call_content := None |}
  else if String.eqb (upper method) "POST" then
    {| call_verb := "POST"; call_url := url; call_headers := headers; call_content := body |}
  else if String.eqb (upper method) "PUT" then
    {| call_verb := "PUT"; call_url := url; call_headers := headers; call_content := body |}
  else if String.eqb (upper method) "DELETE" then
    {| call_verb := "DELETE"; call_url := url; call_headers := headers; call_content := None |}
  else
    {| call_verb := method; call_url := url; call_headers := headers; call_content := body |}.

(** ** What the network answers *)

(** The instances of [Exception] the [try] block can see, by the first
    [except] clause that matches: [httpx.TimeoutException],
    [httpx.ConnectError], and every other [Exception] with its [str(e)]. *)
Inductive exn : Type :=
| TimeoutException
| ConnectError
| OtherException (msg : string).

(** A response carries its status code; [elapsed] is the measured
    [(perf_counter() - start_time) * 1000]. *)
Inductive reply : Type :=
| Response (elapsed : Q) (status_code : Z)
| Raised (e : exn).

(** The string the matching [except] clause appends to [errors]. *)
Definition diagnostic (request_id : nat) (e : exn) : string :=
  match e with
  | TimeoutException => "Request " +:+ pretty request_id +:+ ": Timeout"
  | ConnectError => "Request " +:+ pretty request_id +:+ ": Connection error"
  | OtherException msg => "Request " +:+ pretty request_id +:+ ": " +:+ msg
  end.

(** ** The exceptions of httpx *)

(** The exception classes of httpx (httpx/_exceptions.py, a library the
    tool imports), each with its base class; [None] is a base outside
    httpx: [Exception], or [RuntimeError] for [StreamError]. *)
Module httpx.

Inductive exception : Type :=
| HTTPError
| RequestError
| TransportError
| TimeoutException
| ConnectTimeout
| ReadTimeout
| WriteTimeout
| PoolTimeout
| NetworkError
| ConnectError
| ReadError
| WriteError
| CloseError
| ProtocolError
| LocalProtocolError
| RemoteProtocolError
| ProxyError
| UnsupportedProtocol
| DecodingError
| TooManyRedirects
| HTTPStatusError
| InvalidURL
| CookieConflict
| StreamError
| StreamConsumed
| StreamClosed
| ResponseNotRead
| RequestNotRead.

Definition base (c : exception) : option exception :=
  match c with
  | HTTPError => None
  | RequestError => Some HTTPError
  | TransportError => Some RequestError
  | TimeoutException => Some TransportError
  | ConnectTimeout => Some TimeoutException
  | ReadTimeout => Some TimeoutException
  | WriteTimeout => Some TimeoutException
  | PoolTimeout => Some TimeoutException
  | NetworkError => Some TransportError
  | ConnectError => Some NetworkError
  | ReadError => Some NetworkError
  | WriteError => Some NetworkError
  | CloseError => Some NetworkError
  | ProtocolError => Some TransportError
  | LocalProtocolError => Some ProtocolError
  | RemoteProtocolError => Some ProtocolError
  | ProxyError => Some TransportError
  | UnsupportedProtocol => Some TransportError
  | DecodingError => Some RequestError
  | TooManyRedirects => Some RequestError
  | HTTPStatusError => Some HTTPError
  | InvalidURL => None
  | CookieConflict => None
  | StreamError => None
  | StreamConsumed => Some StreamError
  | StreamClosed => Some StreamError
  | ResponseNotRead => Some StreamError
  | RequestNotRead => Some StreamError
  end.

Definition eqb (c d : exception) : bool :=
  match c, d with
  | HTTPError, HTTPError | RequestError, RequestError
  | TransportError, TransportError | TimeoutException, TimeoutException
  | ConnectTimeout, ConnectTimeout | ReadTimeout, ReadTimeout
  | WriteTimeout, WriteTimeout | PoolTimeout, PoolTimeout
  | NetworkError, NetworkError | ConnectError, ConnectError
  | ReadError, ReadError | WriteError, WriteError | CloseError, CloseError
  | ProtocolError, ProtocolError | LocalProtocolError, LocalProtocolError
  | RemoteProtocolError, RemoteProtocolError | ProxyError, ProxyError
  | UnsupportedProtocol, UnsupportedProtocol | DecodingError, DecodingError
  | TooManyRedirects, TooManyRedirects | HTTPStatusError, HTTPStatusError
  | InvalidURL, InvalidURL | CookieConflict, CookieConflict
  | StreamError, StreamError | StreamConsumed, StreamConsumed
  | StreamClosed, StreamClosed | ResponseNotRead, ResponseNotRead
  | RequestNotRead, RequestNotRead => true
  | _, _ => false
  end.

(** The class and its bases, nearest first; the hierarchy is four
    levels deep below [HTTPError]. *)
Fixpoint bases_up_to (depth : nat) (c : exception) : list exception :=
  c :: match depth with
       | O => []
       | S depth' => match base c with
                     | Some b => bases_up_to depth' b
                     | None => []
                     end
       end.

(** [issubclass(c, d)], which decides whether [except d] catches an
    instance of [c]. *)
Definition issubclass (c d : exception) : bool :=
  existsb (eqb d) (bases_up_to 4 c).

End httpx.

(** What a request can raise inside the [try] block: an instance of an
    httpx class or of another subclass of [Exception], with its
    [str(e)]. *)
Inductive raised : Type :=
| HttpxException (c : httpx.exception) (message : string)
| PythonException (message : string).

(** Lines 80-85: the first [except] clause that matches. *)
Definition caught_as (e : raised) : exn :=
  match e with
  | HttpxException c message =>
    if httpx.issubclass c httpx.TimeoutException then TimeoutException
    else if httpx.issubclass c httpx.ConnectError then ConnectError
    else OtherException message
  | PythonException message => OtherException message
  end.

(** The reply of a request that raises [e]. *)
Definition raises (e : raised) : reply := Raised (caught_as e).

(** What can go wrong on the way to the server and back, and the class of
    the exception httpx raises for it: a failure while the connection is
    being set up (name resolution, refusal, TLS handshake) is a
    [ConnectError]; on a connection that is set up, a reset by the peer
    is a [WriteError] while the request is sent and a [ReadError] while
    the response is received, and a peer that closes before it has
    answered is a [RemoteProtocolError]; each timeout has its class. *)
Inductive network_failure : Type :=
| NameNotResolved
| ConnectionRefused
| TlsHandshakeFailed
| ResetWhileSending
| ResetWhileReceiving
| ClosedBeforeResponse
| ConnectTimedOut
| ReadTimedOut
| WriteTimedOut
| PoolTimedOut.

Definition httpx_class_of (f : network_failure) : httpx.exception :=
  match f with
  | NameNotResolved => httpx.ConnectError
  | ConnectionRefused => httpx.ConnectError
  | TlsHandshakeFailed => httpx.ConnectError
  | ResetWhileSending => httpx.WriteError
  | ResetWhileReceiving => httpx.ReadError
  | ClosedBeforeResponse => httpx.RemoteProtocolError
  | ConnectTimedOut => httpx.ConnectTimeout
  | ReadTimedOut => httpx.ReadTimeout
  | WriteTimedOut => httpx.WriteTimeout
  | PoolTimedOut => httpx.PoolTimeout
  end.

(** ** [run]: the units of work under the semaphore *)

Record Config : Type := {
  url : string;
  requests : Z;
  concurrent : Z;
  method : string;
  headers : option (gmap string string);
  body : option string;
  has_progress_callback : bool
}.

(** Where a unit of work stands: before [async with semaphore], inside
    it, or past its [finally]. *)
Inductive task : Type := Waiting | InFlight | Done.

Global Instance task_eq_dec : EqDecision task.
Proof. solve_decision. Defined.

(** The closure variables of [run], the semaphore's counter, the units
    of work by [request_id], and two observation logs: the calls sent and
    the arguments the progress callback received. *)
Record RunState : Type := {
  st_response_times : list Q;
  st_status_codes : gmap Z Z;
  st_errors : list string;
  st_completed : Z;
  st_sem : Z;
  st_tasks : list task;
  st_calls : list HttpCall;
  st_progress : list Z
}.

(** The two places where the event loop can resume a unit of work:
    the semaphore lets it in, or its request comes back. *)
Inductive event : Type :=
| Acquire (i : nat)
| Finish (i : nat) (r : reply).

(** [asyncio.Semaphore(concurrent)] raises [ValueError] below zero;
    [range(requests)] is empty for [requests <= 0]. *)
Definition init (cfg : Config) : py RunState :=
  if (concurrent cfg <? 0)%Z then Raise ValueError
  else Ret {| st_response_times := []; st_status_codes := ∅; st_errors := [];
              st_completed := 0; st_sem := concurrent cfg;
              st_tasks := replicate (Z.to_nat (requests cfg)) Waiting;
              st_calls := []; st_progress := [] |}.

(** The body of the [try] and its [except] clauses, on the shared lists. *)
Definition record_reply (i : nat) (r : reply) (st : RunState) : RunState :=
  match r with
  | Response elapsed code =>
    {| st_response_times := st_response_times st ++ [elapsed];
       st_status_codes :=
         <[code := (default 0%Z (st_status_codes st !! code) + 1)%Z]> (st_status_codes st);
       st_errors := st_errors st; st_completed := st_completed st;
       st_sem := st_sem st; st_tasks := st_tasks st;
       st_calls := st_calls st; st_progress := st_progress st |}
  | Raised e =>
    {| st_response_times := st_response_times st;
       st_status_codes := st_status_codes st;
       st_errors := st_errors st ++ [diagnostic i e];
       st_completed := st_completed st;
       st_sem := st_sem st; st_tasks := st_tasks st;
       st_calls := st_calls st; st_progress := st_progress st |}
  end.

(** The [finally] clause, then leaving [async with semaphore]. *)
Definition finally_release (cfg : Config) (i : nat) (st : RunState) : RunState :=
  let completed := (st_completed st + 1)%Z in
  {| st_response_times := st_response_times st;
     st_status_codes := st_status_codes st;
     st_errors := st_errors st;
     st_completed := completed;
     st_sem := (st_sem st + 1)%Z;
     st_tasks := <[i := Done]> (st_tasks st);
     st_calls := st_calls st;
     st_progress := if has_progress_callback cfg then st_progress st ++ [completed]
                    else st_progress st |}.

Definition step (cfg : Config) (st : RunState) (ev : event) : option RunState :=
  match ev with
  | Acquire i =>
    match st_tasks st !! i with
    | Some Waiting =>
      if (0 <? st_sem st)%Z then
        Some {| st_response_times := st_response_times st;
                st_status_codes := st_status_codes st;
                st_errors := st_errors st;
                st_completed := st_completed st;
                st_sem := (st_sem st - 1)%Z;
                st_tasks := <[i := InFlight]> (st_tasks st);
                st_calls := st_calls st ++
                  [dispatch (method cfg) (url cfg) (headers cfg) (body cfg)];
                st_progress := st_progress st |}
      else None
    | _ => None
    end
  | Finish i r =>
    match st_tasks st !! i with
    | Some InFlight => Some (finally_release cfg i (record_reply i r st))
    | _ => None
    end
  end.

Fixpoint exec (cfg : Config) (tr : list event) (st : RunState) : option RunState :=
  match tr with
  | [] => Some st
  | ev :: tr' =>
    match step cfg st ev with
    | Some st' => exec cfg tr' st'
    | None => None
    end
  end.

(** [asyncio.gather] has returned: every unit of work is past its [finally]. *)
Definition all_done (st : RunState) : bool :=
  forallb (fun t => bool_decide (t = Done)) (st_tasks st).

(** How many units of work are in the state [s]. *)
Fixpoint count_task (s : task) (l : list task) : nat :=
  match l with
  | [] => O
  | t :: l' => ((if decide (t = s) then 1 else 0) + count_task s l')%nat
  end.

(** The number of requests between [async with semaphore] and its exit. *)
Definition in_flight (st : RunState) : nat := count_task InFlight (st_tasks st).

Section Run.

Variable sqrt : Q -> Q.

(** [run] along the schedule [tr], with [dur] the measured
    [test_duration].  [None]: [tr] is not a schedule of the program that
    lets [gather] return. *)
Definition run (cfg : Config) (tr : list event) (dur : Q) : option (py LoadTestResult) :=
  match init cfg with
  | Raise e => Some (Raise e)
  | Ret st0 =>
    match exec cfg tr st0 with
    | Some st =>
      if all_done st then
        Some (_calculate_stats sqrt (st_response_times st) (st_status_codes st)
                (st_errors st) (requests cfg) dur)
      else None
    | None => None
    end
  end.

End Run.

(** [run] with the reducer that knows the range of a float: the same
    semaphore, the same units of work, the same schedule. *)
Definition run_checked (sqrt : Q -> Q) (cfg : Config) (tr : list event) (dur : Q)
    : option (py LoadTestResult) :=
  match init cfg with
  | Raise e => Some (Raise e)
  | Ret st0 =>
    match exec cfg tr st0 with
    | Some st =>
      if all_done st then
        Some (_calculate_stats_checked sqrt (st_response_times st) (st_status_codes st)
                (st_errors st) (requests cfg) dur)
      else None
    | None => None
    end
  end.

(** The replies a schedule delivers, in the order it delivers them. *)
Fixpoint replies (tr : list event) : list (nat * reply) :=
  match tr with
  | [] => []
  | Acquire _ :: tr' => replies tr'
  | Finish i r :: tr' => (i, r) :: replies tr'
  end.

Definition elapsed_times (rs : list (nat * reply)) : list Q :=
  omap (fun p => match snd p with Response e _ => Some e | Raised _ => None end) rs.

Definition diagnostics (rs : list (nat * reply)) : list string :=
  omap (fun p => match snd p with Response _ _ => None | Raised e => Some (diagnostic (fst p) e) end) rs.

(** The fully serial schedule: request [i] is let in and comes back
    before request [i + 1] is let in. *)
Fixpoint serial_from (i : nat) (rs : list reply) : list event :=
  match rs with
  | [] => []
  | r :: rs' => Acquire i :: Finish i r :: serial_from (S i) rs'
  end.

(** ** The percentile formula as the specification words it *)

(** [sorted[i]] of the specification, for an index inside the list. *)
Definition at_rank (l : list Q) (i : Z) : Q := nth (Z.to_nat i) l 0.

(** R-7: [k = (n-1) x (p/100)], [f = floor k], [c = min (f+1) (n-1)];
    [sorted[f]] when [f = c], else
    [sorted[f] + (sorted[c] - sorted[f]) x (k - f)]. *)
Definition r7_percentile (l : list Q) (p : Z) : Q :=
  let n := Z.of_nat (length l) in
  let k := inject_Z (n - 1) * (inject_Z p / 100) in
  let f := Qfloor k in
  let c := Z.min (f + 1) (n - 1) in
  if (f =? c)%Z then at_rank l f
  else at_rank l f + (at_rank l c - at_rank l f) * (k - inject_Z f).

(** The fractional index of percentile [p] in a list of [n] elements. *)
Definition frac_index (n : nat) (p : Z) : Q :=
  inject_Z (Z.of_nat n - 1) * (inject_Z p / 100).

(** The interpolant the code evaluates, as a function of the fractional
    index alone. *)
Definition interp (l : list Q) (k : Q) : Q :=
  let f := Qfloor k in
  if (f + 1 <? Z.of_nat (length l))%Z
  then at_rank l f * (inject_Z (f + 1) - k) + at_rank l (f + 1) * (k - inject_Z f)
  else at_rank l f.

Definition ascending (l : list Q) : Prop := StronglySorted Qle l.

(** ** Observations on schedules and results *)

(** How often a schedule lets request [i] in, and how often it brings it back. *)
Fixpoint count_acquire (i : nat) (tr : list event) : nat :=
  match tr with
  | [] => O
  | Acquire j :: tr' => ((if decide (j = i) then 1 else 0) + count_acquire i tr')%nat
  | Finish _ _ :: tr' => count_acquire i tr'
  end.

Fixpoint count_finish (i : nat) (tr : list event) : nat :=
  match tr with
  | [] => O
  | Acquire _ :: tr' => count_finish i tr'
  | Finish j _ :: tr' => ((if decide (j = i) then 1 else 0) + count_finish i tr')%nat
  end.

Fixpoint acquires (tr : list event) : nat :=
  match tr with
  | [] => O
  | Acquire _ :: tr' => S (acquires tr')
  | Finish _ _ :: tr' => acquires tr'
  end.

Definition acquired (t : task) : nat := match t with Waiting => 0 | _ => 1 end.
Definition released (t : task) : nat := match t with Done => 1 | _ => 0 end.

(** An outcome carries a status code exactly when the request completed. *)
Definition carries_status_code (r : reply) : bool :=
  match r with Response _ _ => true | Raised _ => false end.

Fixpoint count_completed (rs : list (nat * reply)) : nat :=
  match rs with
  | [] => O
  | (_, r) :: rs' => ((if carries_status_code r then 1 else 0) + count_completed rs')%nat
  end.

Fixpoint count_failed (rs : list (nat * reply)) : nat :=
  match rs with
  | [] => O
  | (_, r) :: rs' => ((if carries_status_code r then 0 else 1) + count_failed rs')%nat
  end.

(** The two guarded expressions of the result dictionary, as values. *)
Definition rate_of (successful total : Z) : Q :=
  if (total >? 0)%Z then inject_Z successful / inject_Z total * 100 else 0.

Definition rps_of (total : Z) (dur : Q) : Q :=
  if Qlt_le_dec 0 dur then inject_Z total / dur else 0.

Definition scenario_A_times : list Q :=
  [100; 100; 100; 100; 100; 100; 100; 100; 100; 1000].

(** A small run used to exercise the statements: three requests, two at
    a time, the second one back first and the first one timing out. *)
Definition sample_config : Config :=
  {| url := "http://localhost:8000/"; requests := 3; concurrent := 2;
     method := "post"; headers := None; body := Some "payload";
     has_progress_callback := true |}.

Definition sample_schedule : list event :=
  [Acquire 0; Acquire 1; Finish 1 (Response 120 200); Acquire 2;
   Finish 0 (Raised TimeoutException); Finish 2 (Response 80 500)].

(** Fifty requests, one at a time, every one of them timing out. *)
Definition failing_config : Config :=
  {| url := "http://localhost:8000/"; requests := 50; concurrent := 1;
     method := "GET"; headers := None; body := None;
     has_progress_callback := false |}.

Definition failing_schedule : list event :=
  serial_from 0 (replicate 50 (Raised TimeoutException)).

(** One request whose connection is reset by the peer while the
    response is received. *)
Definition reset_config : Config :=
  {| url := "http://localhost:8000/"; requests := 1; concurrent := 1;
     method := "GET"; headers := None; body := None;
     has_progress_callback := false |}.

Definition reset_schedule : list event :=
  [Acquire 0;
   Finish 0 (raises (HttpxException (httpx_class_of ResetWhileReceiving)
                       "[Errno 104] Connection reset by peer"))].

(** The classes [except httpx.TimeoutException] catches. *)
Definition timeout_classes : list httpx.exception :=
  [httpx.TimeoutException; httpx.ConnectTimeout; httpx.ReadTimeout;
   httpx.WriteTimeout; httpx.PoolTimeout].

(** ** The percentile routine on binary64 numbers *)

(** Everything above computes with exact rationals.  The definitions of
    this part are the same lines of code on the numbers Python computes
    with, the kernel's binary64 floats, together with the conversions
    between int and float that Python inserts. *)

(** An int as an unrounded binary number: mantissa [|n|], exponent 0. *)
Definition int_as_spec_float (n : Z) : spec_float :=
  match n with
  | Z0 => S754_zero false
  | Zpos m => S754_finite false m 0
  | Zneg m => S754_finite true m 0
  end.

(** An operation that starts from ints raises [OverflowError] where
    float arithmetic would return an infinity. *)
Definition finite_or_overflow (x : float) : py float :=
  if PrimFloat.is_infinity x then Raise OverflowError else Ret x.

(** [float(n)]: the nearest float, ties to even. *)
Definition py_float_binary64 (n : Z) : py float :=
  finite_or_overflow (SF2Prim (binary_normalize prec emax n 0 false)).

(** [a / b] on two ints: the float nearest to the exact quotient. *)
Definition py_truediv_int_binary64 (a b : Z) : py float :=
  if (b =? 0)%Z then Raise ZeroDivisionError
  else finite_or_overflow
         (SF2Prim (SFdiv prec emax (int_as_spec_float a) (int_as_spec_float b))).

(** [int(x)] on a float: truncation towards zero; [ValueError] on a NaN,
    [OverflowError] on an infinity. *)
Definition py_int_binary64 (x : float) : py Z :=
  match Prim2SF x with
  | S754_nan => Raise ValueError
  | S754_infinity _ => Raise OverflowError
  | S754_zero _ => Ret 0%Z
  | S754_finite s m e =>
    let a := match e with
             | Zneg n => Z.shiftr (Zpos m) (Zpos n)
             | _ => Z.shiftl (Zpos m) e
             end in
    Ret (if s then (- a)%Z else a)
  end.

(** [l[i]] on a list of any element type, with the rules of [py_index]. *)
Definition py_getitem {A : Type} (l : list A) (i : Z) : py A :=
  let n := Z.of_nat (length l) in
  if (0 <=? i)%Z && (i <? n)%Z then
    match nth_error l (Z.to_nat i) with Some x => Ret x | None => Raise IndexError end
  else if (- n <=? i)%Z && (i <? 0)%Z then
    match nth_error l (Z.to_nat (n + i)) with Some x => Ret x | None => Raise IndexError end
  else Raise IndexError.

(** [sorted(l)] on floats. *)
Fixpoint insert_sorted_binary64 (x : float) (l : list float) : list float :=
  match l with
  | [] => [x]
  | y :: t => if PrimFloat.leb y x then y :: insert_sorted_binary64 x t else x :: y :: t
  end.

Fixpoint sorted_binary64 (l : list float) : list float :=
  match l with
  | [] => []
  | x :: t => insert_sorted_binary64 x (sorted_binary64 t)
  end.

(** Line 167, [k = (len(sorted_data) - 1) * (percentile / 100)]: the
    quotient of two ints, then the int [len - 1] converted and multiplied. *)
Definition frac_index_binary64 (n : nat) (percentile : Z) : py float :=
  do q <- py_truediv_int_binary64 percentile 100;
  do len_minus_1 <- py_float_binary64 (Z.of_nat n - 1);
  Ret (len_minus_1 * q)%float.

(** [_percentile], lines 162-174. *)
Definition _percentile_binary64 (sorted_data : list float) (percentile : Z) : py float :=
  match sorted_data with
  | [] => Ret 0%float
  | _ =>
    let len := Z.of_nat (length sorted_data) in
    do k <- frac_index_binary64 (length sorted_data) percentile;
    do f <- py_int_binary64 k;
    let c := if (f + 1 <? len)%Z then (f + 1)%Z else f in
    if (f =? c)%Z then py_getitem sorted_data f
    else
      do lo <- py_getitem sorted_data f;
      do c' <- py_float_binary64 c;
      do hi <- py_getitem sorted_data c;
      do f' <- py_float_binary64 f;
      Ret (lo * (c' - k) + hi * (k - f'))%float
  end.

(** [statistics.median] on floats. *)
Definition median_binary64 (l : list float) : py float :=
  let data := sorted_binary64 l in
  let n := length data in
  match n with
  | O => Raise StatisticsError
  | _ =>
    if Nat.odd n then py_getitem data (Z.of_nat (n / 2))
    else
      do a <- py_getitem data (Z.of_nat (n / 2 - 1));
      do b <- py_getitem data (Z.of_nat (n / 2));
      Ret ((a + b) / 2)%float
  end.

(** Lines 137-158 of [_calculate_stats] on a sample of floats: the
    median and the two percentiles of the result. *)
Definition median_p95_p99_binary64 (response_times : list float)
    : py (float * float * float) :=
  match response_times with
  | _ :: _ =>
    let sorted_times := sorted_binary64 response_times in
    do med <- median_binary64 response_times;
    do p95 <- _percentile_binary64 sorted_times 95;
    do p99 <- _percentile_binary64 sorted_times 99;
    Ret (med, p95, p99)
  | [] => Ret (0, 0, 0)%float
  end.

(** The elapsed times of scenario A, and three equal elapsed times of
    123.456 ms, as floats. *)
Definition scenario_A_times_binary64 : list float :=
  [100; 100; 100; 100; 100; 100; 100; 100; 100; 1000]%float.


(** The calls that are made without [content=]. *)
Definition sends_no_body (method : string) : bool :=
  (String.eqb (upper method) "GET" || String.eqb (upper method) "DELETE")%bool.

(** What the semaphore guarantees between steps. *)
Definition sem_inv (cfg : Config) (st : RunState) : Prop :=
  (st_sem st + Z.of_nat (in_flight st) = concurrent cfg)%Z
  /\ (0 <= st_sem st)%Z
  /\ st_completed st = Z.of_nat (count_task Done (st_tasks st)).

(** ** Observations on the histogram and the progress callback *)

(** The sum of the values of [status_codes]. *)
Definition histogram_total (m : gmap Z Z) : Z :=
  map_fold (fun _ v acc => (v + acc)%Z) 0%Z m.

(** How many replies of a schedule came back with status code [c]. *)
Fixpoint count_code (c : Z) (rs : list (nat * reply)) : nat :=
  match rs with
  | [] => O
  | (_, Response _ c') :: rs' => ((if decide (c' = c) then 1 else 0) + count_code c rs')%nat
  | (_, Raised _) :: rs' => count_code c rs'
  end.

(** [1, 2, ..., n] as the callback receives it. *)
Definition counting_up (n : nat) : list Z := List.map Z.of_nat (seq 1 n).

(** ** Counting below a value *)

(** How many elements of [l] are strictly below [v]; this is what fixes
    the element at each rank of the sorted list. *)
Fixpoint count_below (v : Q) (l : list Q) : nat :=
  match l with
  | [] => O
  | x :: t => ((if Qlt_le_dec x v then 1 else 0) + count_below v t)%nat
  end.

(** The argument [statistics.stdev] takes the square root of. *)
Definition sample_variance (l : list Q) : Q :=
  let n := inject_Z (Z.of_nat (length l)) in
  let m := Qsum l / n in
  Qsum (List.map (fun x => (x - m) * (x - m)) l) / (n - 1).

(** ** [_display_results] (src/cli/commands/loadtest.py) *)

(** [s * n] on a string: [n] copies of [s], none for [n <= 0]. *)
Definition str_repeat (s : string) (n : Z) : string :=
  Nat.iter (Z.to_nat n) (fun acc => s +:+ acc) "".

(** Tuples [(code, count)] in Python's order: by code, then by count. *)
Definition item_le (a b : Z * Z) : bool :=
  ((fst a <? fst b)%Z || ((fst a =? fst b)%Z && (snd a <=? snd b)%Z))%bool.

Fixpoint insert_item (x : Z * Z) (l : list (Z * Z)) : list (Z * Z) :=
  match l with
  | [] => [x]
  | y :: t => if item_le y x then y :: insert_item x t else x :: y :: t
  end.

(** [sorted(d.items())] *)
Definition sorted_items (d : gmap Z Z) : list (Z * Z) :=
  foldr insert_item [] (map_to_list d).

(** What [_display_results] puts on the console: the rows added to the
    table, then the lines printed below it. *)
Record Screen : Type := {
  table_rows : list (string * string);
  printed : list string
}.

Section Display.

(** [format(x, ".2f")] and [format(x, ".1f")]. *)
Variable fmt_2f : Q -> string.
Variable fmt_1f : Q -> string.

Definition format_time (ms : Q) : string :=
  if Qlt_le_dec ms 200 then "[green]" +:+ fmt_2f ms +:+ "ms[/green]"
  else if Qlt_le_dec ms 1000 then "[yellow]" +:+ fmt_2f ms +:+ "ms[/yellow]"
  else "[red]" +:+ fmt_2f ms +:+ "ms[/red]".

Definition status_color (code : Z) : string :=
  if String.prefix "2" (pretty code) then "green"
  else if String.prefix "3" (pretty code) then "yellow"
  else "red".

Definition status_line (item : Z * Z) : string :=
  let (code, count) := item in
  let color := status_color code in
  let bar_len := Z.min count 50 in
  let bar := str_repeat "█" bar_len in
  "  [" +:+ color +:+ "]" +:+ pretty code +:+ "[/" +:+ color +:+ "] "
    +:+ bar +:+ " " +:+ pretty count.

Definition performance_rating (avg_rt : Q) : string :=
  if Qlt_le_dec avg_rt 200 then "[green]Excellent[/green] 🚀"
  else if Qlt_le_dec avg_rt 500 then "[green]Good[/green] ✓"
  else if Qlt_le_dec avg_rt 1000 then "[yellow]Fair[/yellow] ⚠"
  else "[red]Poor[/red] ✗".

Definition _display_results (result : LoadTestResult) (duration : Q) : Screen :=
  let avg_rt := avg_response_time result in
  let min_rt := min_response_time result in
  let max_rt := max_response_time result in
  let p95_rt := p95_response_time result in
  let p99_rt := p99_response_time result in
  {| table_rows :=
       [("Total Requests", pretty (total_requests result));
        ("Successful", "[green]" +:+ pretty (successful result) +:+ "[/green]");
        ("Failed", "[red]" +:+ pretty (failed result) +:+ "[/red]");
        ("Success Rate", fmt_1f (success_rate result) +:+ "%");
        (str_repeat "─" 20, str_repeat "─" 15);
        ("Avg Response Time", format_time avg_rt);
        ("Min Response Time", format_time min_rt);
        ("Max Response Time", format_time max_rt);
        ("P95 Response Time", format_time p95_rt);
        ("P99 Response Time", format_time p99_rt);
        (str_repeat "─" 20, str_repeat "─" 15);
        ("Requests/sec", "[bold]" +:+ fmt_2f (rps result) +:+ "[/bold]");
        ("Test Duration", fmt_2f duration +:+ "s")];
     printed :=
       [""]
       ++ (if bool_decide (status_codes result = ∅) then []
           else ["[bold]Status Code Distribution[/bold]"]
                ++ List.map status_line (sorted_items (status_codes result))
                ++ [""])
       ++ ["[bold]Performance Rating:[/bold] " +:+ performance_rating avg_rt; ""] |}.

End Display.

(** The colour classes of three-digit status codes, by range. *)
Definition color_by_range (code : Z) : string :=
  if ((200 <=? code) && (code <=? 299))%Z%bool then "green"
  else if ((300 <=? code) && (code <=? 399))%Z%bool then "yellow"
  else "red".

(** ** [Config.get] (src/utils/config.py) *)

(** What [yaml.safe_load] can return; a mapping is kept as the list of
    its items with string keys, each key once. *)
#[warnings="-register-all"]
Inductive yaml : Type :=
| YNone
| YBool (b : bool)
| YInt (z : Z)
| YFloat (q : Q)
| YStr (s : string)
| YList (l : list yaml)
| YDict (d : list (string * yaml)).

(** [d.get(k)] on a mapping kept as its list of items: the value of the
    key, [None] when the key is absent. *)
Fixpoint dict_get (k : string) (d : list (string * yaml)) : yaml :=
  match d with
  | [] => YNone
  | (k', v) :: d' => if String.eqb k' k then v else dict_get k d'
  end.

(** [s.split(sep)] for a one-character separator. *)
Fixpoint split_on (sep : ascii) (s : string) : list string :=
  match s with
  | EmptyString => [EmptyString]
  | String c t =>
    if Ascii.eqb c sep then EmptyString :: split_on sep t
    else match split_on sep t with
         | h :: r => String c h :: r
         | [] => [String c EmptyString]
         end
  end.

(** The [for k in keys] loop of [get]. *)
Fixpoint walk (keys : list string) (value default : yaml) : yaml :=
  match keys with
  | [] => value
  | k :: keys' =>
    match value with
    | YDict d =>
      match dict_get k d with
      | YNone => default
      | v => walk keys' v default
      end
    | _ => default
    end
  end.

Definition get (_config : yaml) (key : string) (default : yaml) : yaml :=
  walk (split_on "." key) _config default.

Definition get_loadtest_requests (_config : yaml) : yaml :=
  get _config "loadtest.requests" (YInt 100).

Definition get_loadtest_concurrent (_config : yaml) : yaml :=
  get _config "loadtest.concurrent" (YInt 10).

Definition get_loadtest_timeout (_config : yaml) : yaml :=
  get _config "loadtest.timeout" (YInt 30).

(** A key of one segment. *)
Definition dotless (s : string) : Prop := forall c, In c (list_ascii_of_string s) -> c <> "."%char.

(** ** The [loadtest] command (src/cli/commands/loadtest.py) *)

(** [x or y] for an optional integer option [x] and an integer [y]:
    [None] and 0 are falsy. *)
Definition py_or (x : option Z) (y : Z) : Z :=
  match x with
  | Some v => if (v =? 0)%Z then y else v
  | None => y
  end.

(** How the command ends: [typer.Exit(1)] after "Invalid URL", "Load
    test failed" after an exception of the run, or the report shown and
    saved with its [test_duration]. *)
Inductive cli_outcome : Type :=
| InvalidUrl
| LoadTestFailed
| ReportSaved (result : LoadTestResult) (test_duration : Q) (screen : Screen).

(** The keyword arguments [_run_loadtest] passes to [LoadTestTool.run];
    [duration] and [verbose] are received and not used. *)
Definition run_arguments (url : string) (total_requests concurrent : Z)
    (duration : option Z) (timeout : Z) (method : string) (verbose : bool) : Config :=
  {| url := url; requests := total_requests; concurrent := concurrent;
     method := method; headers := None; body := None;
     has_progress_callback := true |}.



Section Cli.

Variable sqrt : Q -> Q.
Variable fmt_2f : Q -> string.
Variable fmt_1f : Q -> string.

(** [validate_url(url)[0]] and [normalize_url] of utils/validator.py. *)
Variable validate_url : string -> bool.
Variable normalize_url : string -> string.

(** What [config.get_loadtest_requests()], [..._concurrent()] and
    [..._timeout()] return, at their declared type [int]. *)
Variable config_requests : Z.
Variable config_concurrent : Z.
Variable config_timeout : Z.

(** [_run_loadtest] along the schedule [tr]; [dur] is the duration the
    tool measures, [test_duration] the one the command measures. *)
Definition _run_loadtest (url : string) (total_requests concurrent : Z)
    (duration : option Z) (timeout : Z) (method : string) (verbose : bool)
    (tr : list event) (dur test_duration : Q) : option cli_outcome :=
  match run sqrt (run_arguments url total_requests concurrent duration timeout
                    method verbose) tr dur with
  | Some (Raise _) => Some LoadTestFailed
  | Some (Ret result) =>
    Some (ReportSaved result test_duration
            (_display_results fmt_2f fmt_1f result test_duration))
  | None => None
  end.

Definition loadtest (url : string) (requests concurrent duration timeout : option Z)
    (method : string) (verbose : bool)
    (tr : list event) (dur test_duration : Q) : option cli_outcome :=
  let requests := py_or requests config_requests in
  let concurrent := py_or concurrent config_concurrent in
  let timeout := py_or timeout config_timeout in
  if negb (validate_url url) then Some InvalidUrl
  else
    let url := normalize_url url in
    _run_loadtest url requests concurrent duration timeout method verbose
      tr dur test_duration.



End Cli.

(** ** [AnalyzerAgent._analyze_results] (src/core/analyzer.py) *)

(** One entry of [results]: the key is absent, or its dictionary has an
    "error" key, or it is the output of the tool. *)
Inductive tool_output (A : Type) : Type :=
| NotRun
| WithError
| Output (a : A).
Arguments NotRun {A}.
Arguments WithError {A}.
Arguments Output {A} a.

(** The keys of the SEO output the analyzer reads, each possibly absent;
    [seo_missing_alt] is [images["missing_alt"]]. *)
Record SeoOutput : Type := {
  seo_title : option string;
  seo_meta_description : option string;
  seo_https : option bool;
  seo_missing_alt : option Z
}.

Record AnalyzerInput : Type := {
  in_pagespeed : tool_output (option (list (string * Q)));
  in_seo : tool_output SeoOutput;
  in_loadtest : tool_output LoadTestResult
}.

(** One dictionary of [issues], [warnings] or [passed]. *)
Record Finding : Type := {
  f_severity : option string;
  f_category : string;
  f_metric : option string;
  f_score : option Q;
  f_message : string
}.

Record Analysis : Type := {
  a_issues : list Finding;
  a_warnings : list Finding;
  a_passed : list Finding;
  a_overall_score : Q
}.

Definition add_issue (f : Finding) (a : Analysis) : Analysis :=
  {| a_issues := a_issues a ++ [f]; a_warnings := a_warnings a;
     a_passed := a_passed a; a_overall_score := a_overall_score a |}.

Definition add_warning (f : Finding) (a : Analysis) : Analysis :=
  {| a_issues := a_issues a; a_warnings := a_warnings a ++ [f];
     a_passed := a_passed a; a_overall_score := a_overall_score a |}.

Definition add_passed (f : Finding) (a : Analysis) : Analysis :=
  {| a_issues := a_issues a; a_warnings := a_warnings a;
     a_passed := a_passed a ++ [f]; a_overall_score := a_overall_score a |}.

(** Truth value of [seo.get(key)] for a string and for a boolean. *)
Definition truthy_str (o : option string) : bool :=
  match o with Some (String _ _) => true | _ => false end.

Definition truthy_bool (o : option bool) : bool :=
  match o with Some b => b | None => false end.

(** [severity_order.get(x.get("severity", "low"), 2)] *)
Definition severity_key (f : Finding) : Z :=
  match f_severity f with
  | Some s =>
    if String.eqb s "high" then 0%Z
    else if String.eqb s "medium" then 1%Z
    else 2%Z
  | None => 2%Z
  end.

(** [list.sort(key=...)], which is stable. *)
Fixpoint insert_by_severity (x : Finding) (l : list Finding) : list Finding :=
  match l with
  | [] => [x]
  | y :: t => if (severity_key y <? severity_key x)%Z then y :: insert_by_severity x t
              else x :: y :: t
  end.

Definition sort_by_severity (l : list Finding) : list Finding :=
  foldr insert_by_severity [] l.

Section Analyzer.

(** [format(x, ".0f")] and [format(x, ".1f")]. *)
Variable fmt_0f : Q -> string.
Variable fmt_1f : Q -> string.

(** The body of the loop over [ps["scores"].items()]. *)
Definition analyze_score (a : Analysis) (item : string * Q) : Analysis :=
  let (metric, score) := item in
  if Qlt_le_dec score 50 then
    add_issue {| f_severity := Some "high"; f_category := "performance";
                 f_metric := Some metric; f_score := Some score;
                 f_message := metric +:+ " score is poor (" +:+ fmt_0f score +:+ "/100)" |} a
  else if Qlt_le_dec score 90 then
    add_warning {| f_severity := Some "medium"; f_category := "performance";
                   f_metric := Some metric; f_score := Some score;
                   f_message := metric +:+ " needs improvement (" +:+ fmt_0f score
                                  +:+ "/100)" |} a
  else
    add_passed {| f_severity := None; f_category := "performance";
                  f_metric := Some metric; f_score := Some score;
                  f_message := metric +:+ " is good (" +:+ fmt_0f score +:+ "/100)" |} a.

Definition analyze_pagespeed (ps : tool_output (option (list (string * Q))))
    (a : Analysis) : Analysis * list Q :=
  match ps with
  | Output (Some scores) => (fold_left analyze_score scores a, List.map snd scores)
  | _ => (a, [])
  end.

Definition analyze_seo (seo : tool_output SeoOutput) (a : Analysis) : Analysis :=
  match seo with
  | Output seo =>
    let a := if negb (truthy_str (seo_title seo)) then
               add_issue {| f_severity := Some "high"; f_category := "seo";
                            f_metric := None; f_score := None;
                            f_message := "Missing page title" |} a
             else a in
    let a := if negb (truthy_str (seo_meta_description seo)) then
               add_issue {| f_severity := Some "medium"; f_category := "seo";
                            f_metric := None; f_score := None;
                            f_message := "Missing meta description" |} a
             else a in
    let a := if negb (truthy_bool (seo_https seo)) then
               add_issue {| f_severity := Some "high"; f_category := "security";
                            f_metric := None; f_score := None;
                            f_message := "HTTPS not enabled" |} a
             else a in
    if (0 <? default 0%Z (seo_missing_alt seo))%Z then
      add_warning {| f_severity := Some "medium"; f_category := "accessibility";
                     f_metric := None; f_score := None;
                     f_message := pretty (default 0%Z (seo_missing_alt seo))
                                    +:+ " images missing alt text" |} a
    else a
  | _ => a
  end.

Definition analyze_loadtest (lt : tool_output LoadTestResult) (a : Analysis) : Analysis :=
  match lt with
  | Output lt =>
    let avg_rt := avg_response_time lt in
    let success_rate := success_rate lt in
    let a := if Qlt_le_dec 1000 avg_rt then
               add_issue {| f_severity := Some "high"; f_category := "performance";
                            f_metric := None; f_score := None;
                            f_message := "Slow response time: " +:+ fmt_0f avg_rt
                                           +:+ "ms average" |} a
             else if Qlt_le_dec 500 avg_rt then
               add_warning {| f_severity := Some "medium"; f_category := "performance";
                              f_metric := None; f_score := None;
                              f_message := "Response time could be improved: "
                                             +:+ fmt_0f avg_rt +:+ "ms average" |} a
             else a in
    if Qlt_le_dec success_rate 99 then
      add_issue {| f_severity := Some "high"; f_category := "reliability";
                   f_metric := None; f_score := None;
                   f_message := "High error rate: " +:+ fmt_1f (100 - success_rate)
                                  +:+ "% failures" |} a
    else a
  | _ => a
  end.

(** The analysis as it stands before the two [sort] calls. *)
Definition collect_findings (results : AnalyzerInput) : Analysis :=
  let a := {| a_issues := []; a_warnings := []; a_passed := []; a_overall_score := 0 |} in
  let (a, scores) := analyze_pagespeed (in_pagespeed results) a in
  let a := analyze_seo (in_seo results) a in
  let a := analyze_loadtest (in_loadtest results) a in
  match scores with
  | [] => a
  | _ => {| a_issues := a_issues a; a_warnings := a_warnings a; a_passed := a_passed a;
            a_overall_score := Qsum scores / inject_Z (Z.of_nat (length scores)) |}
  end.

Definition _analyze_results (results : AnalyzerInput) : Analysis :=
  let a := collect_findings results in
  {| a_issues := sort_by_severity (a_issues a);
     a_warnings := sort_by_severity (a_warnings a);
     a_passed := a_passed a;
     a_overall_score := a_overall_score a |}.

End Analyzer.

(** A score below a bound. *)
Definition below (bound : Q) (item : string * Q) : bool :=
  negb (Qle_bool bound (snd item)).

(** The three dictionaries of lines 63-84 for a metric and its score:
    the issue, the warning and the passed check. *)
Definition poor_finding (fmt_0f : Q -> string) (item : string * Q) : Finding :=
  {| f_severity := Some "high"; f_category := "performance";
     f_metric := Some (fst item); f_score := Some (snd item);
     f_message := fst item +:+ " score is poor (" +:+ fmt_0f (snd item) +:+ "/100)" |}.

Definition fair_finding (fmt_0f : Q -> string) (item : string * Q) : Finding :=
  {| f_severity := Some "medium"; f_category := "performance";
     f_metric := Some (fst item); f_score := Some (snd item);
     f_message := fst item +:+ " needs improvement (" +:+ fmt_0f (snd item) +:+ "/100)" |}.

Definition good_finding (fmt_0f : Q -> string) (item : string * Q) : Finding :=
  {| f_severity := None; f_category := "performance";
     f_metric := Some (fst item); f_score := Some (snd item);
     f_message := fst item +:+ " is good (" +:+ fmt_0f (snd item) +:+ "/100)" |}.

(** The findings with severity "high" and with severity "medium". *)
Definition is_high (f : Finding) : bool := (severity_key f =? 0)%Z.
Definition is_medium (f : Finding) : bool := (severity_key f =? 1)%Z.

(** What every analysis under construction satisfies: issues are high or
    medium, warnings are medium. *)
Definition graded (a : Analysis) : Prop :=
  Forall (fun f => severity_key f = 0%Z \/ severity_key f = 1%Z) (a_issues a)
  /\ Forall (fun f => severity_key f = 1%Z) (a_warnings a).

(** * Proofs *)

(** ** Arithmetic of the fractional index *)

Lemma py_int_floor (x : Q) : 0 <= x -> py_int x = Qfloor x.
Proof.
  destruct x as [a b]. unfold py_int, Qfloor, Qle. simpl. intros H.
  apply Z.quot_div_nonneg; lia.
Qed.

Lemma Qfloor_unique (x : Q) (z : Z) :
  inject_Z z <= x -> x < inject_Z (z + 1) -> Qfloor x = z.
Proof.
  intros Hlo Hhi.
  pose proof (Qfloor_le x) as H1. pose proof (Qlt_floor x) as H2.
  assert (inject_Z z < inject_Z (Qfloor x + 1)) as A by lra.
  assert (inject_Z (Qfloor x) < inject_Z (z + 1)) as B by lra.
  rewrite <- Zlt_Qlt in A, B. lia.
Qed.

Lemma frac_index_bounds (n : nat) (p : Z) :
  (0 < n)%nat -> (0 <= p <= 100)%Z ->
  0 <= frac_index n p /\ frac_index n p <= inject_Z (Z.of_nat n - 1).
Proof.
  intros Hn [Hp0 Hp1]. unfold frac_index.
  assert (0 <= inject_Z (Z.of_nat n - 1)) as A.
  { change 0 with (inject_Z 0). rewrite <- Zle_Qle. lia. }
  assert (0 <= inject_Z p) as B.
  { change 0 with (inject_Z 0). rewrite <- Zle_Qle. lia. }
  assert (inject_Z p <= 100) as C.
  { change 100 with (inject_Z 100). rewrite <- Zle_Qle. lia. }
  assert (0 <= inject_Z p / 100 /\ inject_Z p / 100 <= 1) as [D E].
  { split; [apply Qle_shift_div_l | apply Qle_shift_div_r]; lra. }
  split; nra.
Qed.

Lemma frac_index_floor (n : nat) (p : Z) :
  (0 < n)%nat -> (0 <= p <= 100)%Z ->
  (0 <= Qfloor (frac_index n p) <= Z.of_nat n - 1)%Z.
Proof.
  intros Hn Hp. destruct (frac_index_bounds n p Hn Hp) as [A B].
  split.
  - apply Qfloor_resp_le in A. exact A.
  - apply Qfloor_resp_le in B. rewrite Qfloor_Z in B. exact B.
Qed.

Lemma py_index_in_range (l : list Q) (i : Z) :
  (0 <= i < Z.of_nat (length l))%Z -> py_index l i = Ret (at_rank l i).
Proof.
  intros [H0 H1]. unfold py_index, at_rank.
  replace (0 <=? i)%Z with true by (symmetry; apply Z.leb_le; lia).
  replace (i <? Z.of_nat (length l))%Z with true by (symmetry; apply Z.ltb_lt; lia).
  simpl. rewrite (nth_error_nth' l 0) by lia. reflexivity.
Qed.

(** What [_percentile] returns for a percentile between 0 and 100. *)
Lemma _percentile_interp (l : list Q) (p : Z) :
  l <> [] -> (0 <= p <= 100)%Z ->
  _percentile l p = Ret (interp l (frac_index (length l) p)).
Proof.
  intros Hl Hp.
  assert (0 < length l)%nat as Hn by (destruct l; [congruence | simpl; lia]).
  destruct (frac_index_bounds _ p Hn Hp) as [A B].
  pose proof (frac_index_floor _ p Hn Hp) as [F0 F1].
  unfold _percentile. destruct l as [|x t] eqn:El; [congruence|]. rewrite <- El in *.
  fold (frac_index (length l) p).
  rewrite (py_int_floor _ A). unfold interp.
  set (f := Qfloor (frac_index (length l) p)) in *.
  destruct (f + 1 <? Z.of_nat (length l))%Z eqn:Hc.
  - apply Z.ltb_lt in Hc.
    replace (f =? f + 1)%Z with false by (symmetry; apply Z.eqb_neq; lia).
    rewrite !py_index_in_range by lia. reflexivity.
  - rewrite Z.eqb_refl. rewrite py_index_in_range by lia. reflexivity.
Qed.

(** ** [sorted] sorts *)

Lemma Forall_insert_sorted (P : Q -> Prop) (x : Q) (l : list Q) :
  P x -> Forall P l -> Forall P (insert_sorted x l).
Proof.
  intros Hx Hl. induction Hl as [|y t Hy Ht IH]; simpl.
  - constructor; [exact Hx | constructor].
  - destruct (Qle_bool y x); repeat constructor; assumption.
Qed.

Lemma insert_sorted_ascending (x : Q) (l : list Q) :
  ascending l -> ascending (insert_sorted x l).
Proof.
  unfold ascending. induction 1 as [|y t Hs IH Hall]; simpl.
  - repeat constructor.
  - destruct (Qle_bool y x) eqn:E.
    + apply Qle_bool_iff in E. constructor; [exact IH|].
      apply Forall_insert_sorted; assumption.
    + assert (x <= y) as Hxy.
      { destruct (Qlt_le_dec x y) as [L|L]; [apply Qlt_le_weak; exact L|].
        apply Qle_bool_iff in L. congruence. }
      constructor; [constructor; assumption|].
      constructor; [exact Hxy|].
      eapply List.Forall_impl; [|exact Hall]. intros z Hz. simpl in Hz. lra.
Qed.

Lemma sorted_ascending (l : list Q) : ascending (sorted l).
Proof.
  induction l as [|x t IH]; simpl.
  - constructor.
  - apply insert_sorted_ascending, IH.
Qed.

Lemma length_insert_sorted (x : Q) (l : list Q) :
  length (insert_sorted x l) = S (length l).
Proof.
  induction l as [|y t IH]; simpl; [reflexivity|].
  destruct (Qle_bool y x); simpl; [rewrite IH|]; reflexivity.
Qed.

Lemma length_sorted (l : list Q) : length (sorted l) = length l.
Proof.
  induction l as [|x t IH]; simpl; [reflexivity|].
  rewrite length_insert_sorted, IH. reflexivity.
Qed.

Lemma Forall_sorted (P : Q -> Prop) (l : list Q) : Forall P l -> Forall P (sorted l).
Proof.
  induction 1 as [|x t Hx Ht IH]; simpl; [constructor|].
  apply Forall_insert_sorted; assumption.
Qed.

Lemma ascending_nth (l : list Q) (i j : nat) :
  ascending l -> (i <= j)%nat -> (j < length l)%nat -> nth i l 0 <= nth j l 0.
Proof.
  unfold ascending. intros Hs. revert i j.
  induction Hs as [|x t Hs IH Hall]; intros i j Hij Hj; simpl in Hj; [lia|].
  destruct i as [|i], j as [|j]; simpl; try lia.
  - lra.
  - rewrite List.Forall_forall in Hall. apply Hall, nth_In. lia.
  - apply IH; lia.
Qed.

Lemma at_rank_mono (l : list Q) (a b : Z) :
  ascending l -> (0 <= a <= b)%Z -> (b < Z.of_nat (length l))%Z ->
  at_rank l a <= at_rank l b.
Proof.
  intros Hs Hab Hb. unfold at_rank. apply ascending_nth; [exact Hs | lia | lia].
Qed.

(** ** The interpolant is monotone in the fractional index *)

Lemma interp_between (l : list Q) (k : Q) :
  ascending l -> 0 <= k -> k <= inject_Z (Z.of_nat (length l) - 1) ->
  at_rank l (Qfloor k) <= interp l k /\
  interp l k <= at_rank l (Z.min (Qfloor k + 1) (Z.of_nat (length l) - 1)).
Proof.
  intros Hs H0 H1.
  pose proof (Qfloor_le k) as Flo. pose proof (Qlt_floor k) as Fhi.
  assert (0 <= Qfloor k)%Z as F0 by (apply Qfloor_resp_le in H0; exact H0).
  assert (Qfloor k <= Z.of_nat (length l) - 1)%Z as F1
    by (apply Qfloor_resp_le in H1; rewrite Qfloor_Z in H1; exact H1).
  unfold interp. set (f := Qfloor k) in *.
  destruct (f + 1 <? Z.of_nat (length l))%Z eqn:Hc.
  - apply Z.ltb_lt in Hc. rewrite Z.min_l by lia.
    pose proof (at_rank_mono l f (f + 1) Hs ltac:(lia) Hc) as Hab.
    rewrite inject_Z_plus in *. change (inject_Z 1) with 1 in *.
    split; nra.
  - apply Z.ltb_ge in Hc. rewrite Z.min_r by lia.
    replace (Z.of_nat (length l) - 1)%Z with f by lia.
    split; apply Qle_refl.
Qed.

Lemma interp_mono (l : list Q) (k1 k2 : Q) :
  ascending l -> 0 <= k1 -> k1 <= k2 -> k2 <= inject_Z (Z.of_nat (length l) - 1) ->
  interp l k1 <= interp l k2.
Proof.
  intros Hs H0 H12 H2.
  assert (0 <= Qfloor k1)%Z as F0 by (apply Qfloor_resp_le in H0; exact H0).
  assert (Qfloor k1 <= Qfloor k2)%Z as F12 by (apply Qfloor_resp_le; exact H12).
  assert (Qfloor k2 <= Z.of_nat (length l) - 1)%Z as F2
    by (apply Qfloor_resp_le in H2; rewrite Qfloor_Z in H2; exact H2).
  destruct (Z.eq_dec (Qfloor k1) (Qfloor k2)) as [E|N].
  - unfold interp. rewrite <- E. set (f := Qfloor k1) in *.
    destruct (f + 1 <? Z.of_nat (length l))%Z eqn:Hc; [|apply Qle_refl].
    apply Z.ltb_lt in Hc.
    pose proof (at_rank_mono l f (f + 1) Hs ltac:(lia) Hc) as Hab.
    nra.
  - destruct (interp_between l k1 Hs H0 ltac:(lra)) as [_ U].
    destruct (interp_between l k2 Hs ltac:(lra) H2) as [L _].
    rewrite Z.min_l in U by lia.
    pose proof (at_rank_mono l (Qfloor k1 + 1) (Qfloor k2) Hs ltac:(lia) ltac:(lia)).
    lra.
Qed.

Lemma interp_at_rank (l : list Q) (z : Z) :
  (0 <= z < Z.of_nat (length l))%Z -> interp l (inject_Z z) == at_rank l z.
Proof.
  intros Hz. unfold interp. rewrite Qfloor_Z.
  destruct (z + 1 <? Z.of_nat (length l))%Z; [|reflexivity].
  rewrite inject_Z_plus. change (inject_Z 1) with 1. ring.
Qed.

Lemma interp_comp (l : list Q) (k k' : Q) : k == k' -> interp l k == interp l k'.
Proof.
  intros E. unfold interp. rewrite (Qfloor_comp _ _ E).
  destruct (Qfloor k' + 1 <? Z.of_nat (length l))%Z; [|reflexivity].
  rewrite E. reflexivity.
Qed.

(** ** [statistics.median] is the interpolant at percentile 50 *)

Lemma inject_Z_pred_double (m : nat) :
  inject_Z (Z.of_nat (2 * m) - 1) == 2 * inject_Z (Z.of_nat m) - 1.
Proof. unfold Qeq, inject_Z, Qminus, Qplus, Qmult, Qopp. simpl. lia. Qed.

Lemma inject_Z_double (m : nat) :
  inject_Z (Z.of_nat (2 * m + 1) - 1) == 2 * inject_Z (Z.of_nat m).
Proof. unfold Qeq, inject_Z, Qminus, Qplus, Qmult, Qopp. simpl. lia. Qed.

Lemma median_interp (l : list Q) :
  l <> [] ->
  exists m, median l = Ret m /\ m == interp (sorted l) (frac_index (length l) 50).
Proof.
  intros Hl.
  assert (0 < length l)%nat as Hn by (destruct l; [congruence | simpl; lia]).
  unfold median. rewrite length_sorted.
  destruct (length l) as [|n'] eqn:En; [lia|]. rewrite <- En in *. clear n' En.
  pose proof (length_sorted l) as Ls.
  destruct (Nat.odd (length l)) eqn:Ho.
  - apply Nat.odd_spec in Ho. destruct Ho as [m Hm].
    replace (length l / 2)%nat with m by (rewrite Hm; apply Nat.div_unique with 1%nat; lia).
    rewrite py_index_in_range by lia.
    eexists; split; [reflexivity|].
    rewrite <- (interp_at_rank (sorted l) (Z.of_nat m)) by lia.
    apply interp_comp. unfold frac_index. rewrite Hm, inject_Z_double.
    change (inject_Z 50) with 50. field.
  - assert (Nat.even (length l) = true) as He
      by (rewrite <- Nat.negb_odd, Ho; reflexivity).
    apply Nat.even_spec in He. destruct He as [m Hm].
    assert (0 < m)%nat as Hm0 by lia.
    replace (length l / 2)%nat with m by (rewrite Hm; apply Nat.div_unique with 0%nat; lia).
    rewrite !py_index_in_range by lia. simpl.
    eexists; split; [reflexivity|].
    assert (frac_index (length l) 50 == inject_Z (Z.of_nat m) - (1 # 2)) as Ek.
    { unfold frac_index. rewrite Hm, inject_Z_pred_double.
      change (inject_Z 50) with 50. field. }
    assert (Qfloor (frac_index (length l) 50) = (Z.of_nat m - 1)%Z) as Ef.
    { apply Qfloor_unique; rewrite Ek.
      - replace (Z.of_nat m - 1)%Z with (Z.of_nat m + -1)%Z by lia.
        rewrite inject_Z_plus. change (inject_Z (-1)) with (-1). lra.
      - replace (Z.of_nat m - 1 + 1)%Z with (Z.of_nat m) by lia. lra. }
    unfold interp. rewrite Ef.
    replace (Z.of_nat m - 1 + 1)%Z with (Z.of_nat m) by lia.
    replace (Z.of_nat m <? Z.of_nat (length (sorted l)))%Z with true
      by (symmetry; apply Z.ltb_lt; lia).
    replace (Z.of_nat (m - 1)) with (Z.of_nat m - 1)%Z by lia.
    rewrite Ek.
    replace (Z.of_nat m - 1)%Z with (Z.of_nat m + -1)%Z by lia.
    rewrite inject_Z_plus. change (inject_Z (-1)) with (-1). field.
Qed.

(** ** The reducer never raises *)

Lemma py_truediv_nonzero (a b : Q) : ~ b == 0 -> py_truediv a b = Ret (a / b).
Proof.
  intros Hb. unfold py_truediv. destruct (Qeq_bool b 0) eqn:E; [|reflexivity].
  apply Qeq_bool_iff in E. contradiction.
Qed.

Lemma success_rate_guarded (successful total : Z) :
  (if (total >? 0)%Z
   then do q <- py_truediv (inject_Z successful) (inject_Z total); Ret (q * 100)
   else Ret 0) = Ret (rate_of successful total).
Proof.
  unfold rate_of. destruct (total >? 0)%Z eqn:E; [|reflexivity].
  rewrite py_truediv_nonzero; [reflexivity|].
  apply Z.gtb_lt in E. change 0 with (inject_Z 0). rewrite inject_Z_injective. lia.
Qed.

Lemma rate_of_zero (total : Z) : rate_of 0 total == 0.
Proof.
  unfold rate_of. destruct (total >? 0)%Z; [|reflexivity].
  unfold Qdiv. change (inject_Z 0) with 0. ring.
Qed.

Lemma rps_guarded (total : Z) (dur : Q) :
  (if Qlt_le_dec 0 dur then py_truediv (inject_Z total) dur else Ret 0)
  = Ret (rps_of total dur).
Proof.
  unfold rps_of. destruct (Qlt_le_dec 0 dur) as [H|H]; [|reflexivity].
  apply py_truediv_nonzero. lra.
Qed.

Lemma stdev_guarded (sqrt : Q -> Q) (l : list Q) :
  exists sd, (if (1 <? length l)%nat then stdev sqrt l else Ret 0) = Ret sd
             /\ ((length l < 2)%nat -> sd = 0).
Proof.
  destruct l as [|x [|y t]]; simpl.
  - exists 0. split; [reflexivity | reflexivity].
  - exists 0. split; [reflexivity | reflexivity].
  - eexists. split; [reflexivity | lia].
Qed.

Lemma _calculate_stats_empty (sqrt : Q -> Q) (codes : gmap Z Z) (errs : list string)
    (total : Z) (dur : Q) :
  _calculate_stats sqrt [] codes errs total dur =
  Ret {| total_requests := total; successful := 0; failed := total - 0;
         success_rate := rate_of 0 total; status_codes := codes;
         errors := firstn 10 errs; duration := dur; rps := rps_of total dur;
         avg_response_time := 0; min_response_time := 0; max_response_time := 0;
         median_response_time := 0; stdev_response_time := 0;
         p95_response_time := 0; p99_response_time := 0 |}.
Proof.
  unfold _calculate_stats. rewrite success_rate_guarded, rps_guarded. reflexivity.
Qed.

Lemma _calculate_stats_nonempty (sqrt : Q -> Q) (l : list Q) (codes : gmap Z Z)
    (errs : list string) (total : Z) (dur : Q) :
  l <> [] ->
  exists avg mn mx med sd,
    mean l = Ret avg /\ py_min l = Ret mn /\ py_max l = Ret mx /\
    median l = Ret med /\
    (if (1 <? length l)%nat then stdev sqrt l else Ret 0) = Ret sd /\
    _calculate_stats sqrt l codes errs total dur =
    Ret {| total_requests := total;
           successful := Z.of_nat (length l);
           failed := total - Z.of_nat (length l);
           success_rate := rate_of (Z.of_nat (length l)) total;
           status_codes := codes;
           errors := firstn 10 errs; duration := dur; rps := rps_of total dur;
           avg_response_time := avg; min_response_time := mn;
           max_response_time := mx; median_response_time := med;
           stdev_response_time := sd;
           p95_response_time := interp (sorted l) (frac_index (length l) 95);
           p99_response_time := interp (sorted l) (frac_index (length l) 99) |}.
Proof.
  intros Hl.
  destruct (median_interp l Hl) as [med [Hmed _]].
  destruct (stdev_guarded sqrt l) as [sd [Hsd _]].
  assert (sorted l <> []) as Hs.
  { intros E. apply (f_equal (@length Q)) in E. rewrite length_sorted in E.
    destruct l; [congruence | discriminate]. }
  unfold _calculate_stats. rewrite success_rate_guarded, rps_guarded.
  rewrite Hmed, Hsd, !_percentile_interp, length_sorted by (assumption || lia).
  destruct l as [|x t]; [congruence|].
  do 5 eexists. repeat (split; [reflexivity|]). reflexivity.
Qed.

Lemma _calculate_stats_total (sqrt : Q -> Q) (l : list Q) (codes : gmap Z Z)
    (errs : list string) (total : Z) (dur : Q) :
  exists r, _calculate_stats sqrt l codes errs total dur = Ret r
            /\ total_requests r = total
            /\ successful r = Z.of_nat (length l)
            /\ failed r = (total - Z.of_nat (length l))%Z
            /\ errors r = firstn 10 errs
            /\ status_codes r = codes.
Proof.
  destruct l as [|x t] eqn:El.
  - rewrite _calculate_stats_empty. eexists. split; [reflexivity|]. simpl. tauto.
  - rewrite <- El.
    destruct (_calculate_stats_nonempty sqrt l codes errs total dur)
      as (avg & mn & mx & med & sd & _ & _ & _ & _ & _ & E); [congruence|].
    rewrite E. eexists. split; [reflexivity|]. simpl. tauto.
Qed.

(** ** The percentile routine against the R-7 formula *)

Lemma interp_r7 (l : list Q) (p : Z) :
  l <> [] -> (0 <= p <= 100)%Z ->
  interp l (frac_index (length l) p) == r7_percentile l p.
Proof.
  intros Hl Hp.
  assert (0 < length l)%nat as Hn by (destruct l; [congruence | simpl; lia]).
  pose proof (frac_index_floor _ p Hn Hp) as [F0 F1].
  unfold interp, r7_percentile. fold (frac_index (length l) p).
  set (k := frac_index (length l) p) in *. set (f := Qfloor k) in *.
  destruct (f + 1 <? Z.of_nat (length l))%Z eqn:Hc.
  - apply Z.ltb_lt in Hc. rewrite Z.min_l by lia.
    replace (f =? f + 1)%Z with false by (symmetry; apply Z.eqb_neq; lia).
    rewrite inject_Z_plus. change (inject_Z 1) with 1. ring.
  - apply Z.ltb_ge in Hc. rewrite Z.min_r by lia.
    replace (f =? Z.of_nat (length l) - 1)%Z with true
      by (symmetry; apply Z.eqb_eq; lia).
    reflexivity.
Qed.

(** C1.  For every non-empty list of elapsed times (sorted or not) and
    every percentile [p] in {95, 99}, [_percentile] returns a value, and
    that value is the R-7 linear-interpolation value of the specification:
    the code's form [sorted[f]*(c-k) + sorted[c]*(k-f)] equals
    [sorted[f] + (sorted[c]-sorted[f])*(k-f)] as a rational number. *)
Theorem percentile_matches_r7 (sorted_data : list Q) (p : Z) :
  sorted_data <> [] -> p = 95%Z \/ p = 99%Z ->
  exists v, _percentile sorted_data p = Ret v /\ v == r7_percentile sorted_data p.
Proof.
  intros Hl Hp.
  assert (0 <= p <= 100)%Z as Hr by (destruct Hp; subst; lia).
  exists (interp sorted_data (frac_index (length sorted_data) p)). split.
  - apply _percentile_interp; assumption.
  - apply interp_r7; assumption.
Qed.

Lemma percentile_matches_r7_witness :
  [100; 250; 1000] <> [] /\ (95%Z = 95%Z \/ 95%Z = 99%Z) /\
  exists v, _percentile [100; 250; 1000] 95 = Ret v
            /\ v == r7_percentile [100; 250; 1000] 95.
Proof.
  split; [discriminate|]. split; [left; reflexivity|].
  apply (percentile_matches_r7 [100; 250; 1000] 95); [discriminate | left; reflexivity].
Defined.

(** ** Concrete reductions *)


Ltac ret_inj H := vm_compute in H; injection H as <-.

(** C2, as the claim states it, on the numbers the code computes with:
    for scenario A the fractional index is the float below 8.55 and
    [_percentile] returns the float 594.9999999999991, not 595. *)
Lemma scenario_A_p95_is_not_595 :
  frac_index_binary64 10 95 = Ret 0x1.1199999999999p+3%float
  /\ _percentile_binary64 (sorted_binary64 scenario_A_times_binary64) 95
     = Ret 0x1.297fffffffff8p+9%float
  /\ PrimFloat.ltb 0x1.297fffffffff8p+9 595 = true
  /\ _percentile_binary64 (sorted_binary64 scenario_A_times_binary64) 95 <> Ret 595%float.
Proof.
  assert (_percentile_binary64 (sorted_binary64 scenario_A_times_binary64) 95
          = Ret 0x1.297fffffffff8p+9%float) as E by (vm_compute; reflexivity).
  split; [vm_compute; reflexivity|]. split; [exact E|].
  split; [vm_compute; reflexivity|].
  rewrite E. intros H.
  apply (f_equal (fun r => match r with Ret v => PrimFloat.eqb v 595 | Raise _ => false end))
    in H.
  vm_compute in H. discriminate.
Qed.

(** C2 (amended).  Scenario A: reducing the ten elapsed times
    [100 (nine times), 1000] with [total_requests = 10] and no failure
    returns, whatever the duration and the histogram, a result with avg
    190, min 100, max 1000, median 100, success rate 100 and failed 0,
    and over exact arithmetic with p95 595 (fractional index 8.55,
    between ranks 8 and 9).  On binary64 numbers the fractional index is
    8.549999999999999, still between ranks 8 and 9, the median is 100,
    and p95 is the float [2^-40] below 595. *)
Theorem scenario_A_statistics (sqrt : Q -> Q) (codes : gmap Z Z) (dur : Q) :
  (exists r, _calculate_stats sqrt scenario_A_times codes [] 10 dur = Ret r
     /\ avg_response_time r == 190
     /\ min_response_time r == 100
     /\ max_response_time r == 1000
     /\ median_response_time r == 100
     /\ frac_index 10 95 == 855 # 100
     /\ p95_response_time r == 595
     /\ success_rate r == 100
     /\ successful r = 10%Z
     /\ failed r = 0%Z
     /\ errors r = [])
  /\ (exists k v,
        frac_index_binary64 10 95 = Ret k
        /\ py_int_binary64 k = Ret 8%Z
        /\ median_p95_p99_binary64 scenario_A_times_binary64
           = Ret (100%float, v, 0x1.cb80000000001p+9%float)
        /\ PrimFloat.sub 595 v = 0x1p-40%float).
Proof.
  split.
  - destruct (_calculate_stats_nonempty sqrt scenario_A_times codes [] 10 dur)
      as (avg & mn & mx & med & sd & Ha & Hmn & Hmx & Hmed & _ & E); [discriminate|].
    ret_inj Ha. ret_inj Hmn. ret_inj Hmx. ret_inj Hmed.
    eexists. split; [exact E|]. simpl.
    repeat split; reflexivity.
  - exists 0x1.1199999999999p+3%float, 0x1.297fffffffff8p+9%float.
    vm_compute. repeat split; reflexivity.
Qed.

(** What the range adds to the reducer: nothing as long as the sample
    count and [total_requests] convert to a float, or the duration is not
    positive; [OverflowError] otherwise. *)
Lemma float_overflow_pos : (0 < float_overflow)%Z.
Proof. reflexivity. Qed.

Lemma py_float_in_range (n : Z) :
  (Z.abs n < float_overflow)%Z -> py_float n = Ret (inject_Z n).
Proof.
  intros H. unfold py_float.
  replace (float_overflow <=? Z.abs n)%Z with false by (symmetry; apply Z.leb_gt; exact H).
  reflexivity.
Qed.

Lemma py_float_overflow (n : Z) :
  (float_overflow <= Z.abs n)%Z -> py_float n = Raise OverflowError.
Proof.
  intros H. unfold py_float.
  replace (float_overflow <=? Z.abs n)%Z with true by (symmetry; apply Z.leb_le; exact H).
  reflexivity.
Qed.

Lemma success_rate_in_range (successful total : Z) :
  (0 <= successful < float_overflow)%Z ->
  (if (total >? 0)%Z
   then do q <- py_truediv_int successful total; Ret (q * 100)
   else Ret 0) = Ret (rate_of successful total).
Proof.
  intros Hs. pose proof float_overflow_pos as Hp.
  unfold rate_of. destruct (total >? 0)%Z eqn:E; [|reflexivity].
  apply Z.gtb_lt in E. unfold py_truediv_int.
  replace (total =? 0)%Z with false by (symmetry; apply Z.eqb_neq; lia).
  replace (float_overflow * Z.abs total <=? Z.abs successful)%Z with false
    by (symmetry; apply Z.leb_gt; nia).
  reflexivity.
Qed.

Lemma rps_in_range (total : Z) (dur : Q) :
  (Z.abs total < float_overflow)%Z \/ dur <= 0 ->
  (if Qlt_le_dec 0 dur then do t <- py_float total; py_truediv t dur else Ret 0)
  = Ret (rps_of total dur).
Proof.
  intros H. unfold rps_of. destruct (Qlt_le_dec 0 dur) as [Hd|Hd]; [|reflexivity].
  destruct H as [H|H]; [|lra].
  rewrite (py_float_in_range _ H). simpl. apply py_truediv_nonzero. lra.
Qed.

Lemma _calculate_stats_checked_in_range (sqrt : Q -> Q) (l : list Q) (codes : gmap Z Z)
    (errs : list string) (total : Z) (dur : Q) :
  (Z.of_nat (length l) < float_overflow)%Z ->
  (Z.abs total < float_overflow)%Z \/ dur <= 0 ->
  _calculate_stats_checked sqrt l codes errs total dur
  = _calculate_stats sqrt l codes errs total dur.
Proof.
  intros Hl Hr. unfold _calculate_stats_checked, _calculate_stats.
  rewrite success_rate_in_range by lia.
  rewrite success_rate_guarded, (rps_in_range _ _ Hr), rps_guarded. reflexivity.
Qed.

Lemma _calculate_stats_checked_overflow (sqrt : Q -> Q) (l : list Q) (codes : gmap Z Z)
    (errs : list string) (total : Z) (dur : Q) :
  (float_overflow <= Z.abs total)%Z -> 0 < dur ->
  _calculate_stats_checked sqrt l codes errs total dur = Raise OverflowError.
Proof.
  intros Ht Hd. unfold _calculate_stats_checked.
  assert ((if Qlt_le_dec 0 dur then do t <- py_float total; py_truediv t dur else Ret 0)
          = Raise OverflowError) as E.
  { destruct (Qlt_le_dec 0 dur) as [H|H]; [|lra].
    rewrite (py_float_overflow _ Ht). reflexivity. }
  rewrite E.
  destruct (total >? 0)%Z; [|reflexivity].
  destruct (py_truediv_int (Z.of_nat (length l)) total) as [q|e] eqn:Eq; [reflexivity|].
  unfold py_truediv_int in Eq.
  destruct (total =? 0)%Z eqn:E0; [apply Z.eqb_eq in E0; subst total; vm_compute in Ht; congruence|].
  destruct (float_overflow * Z.abs total <=? Z.abs (Z.of_nat (length l)))%Z;
    [injection Eq as <-; reflexivity | discriminate].
Qed.

Lemma _calculate_stats_checked_empty (sqrt : Q -> Q) (codes : gmap Z Z)
    (errs : list string) (total : Z) (dur : Q) :
  (Z.abs total < float_overflow)%Z \/ dur <= 0 ->
  _calculate_stats_checked sqrt [] codes errs total dur =
  Ret {| total_requests := total; successful := 0; failed := total - 0;
         success_rate := rate_of 0 total; status_codes := codes;
         errors := firstn 10 errs; duration := dur; rps := rps_of total dur;
         avg_response_time := 0; min_response_time := 0; max_response_time := 0;
         median_response_time := 0; stdev_response_time := 0;
         p95_response_time := 0; p99_response_time := 0 |}.
Proof.
  intros Hr. rewrite _calculate_stats_checked_in_range; [|reflexivity | exact Hr].
  apply _calculate_stats_empty.
Qed.

(** C3, as the claim states it, at a total beyond the range of a float:
    with no completed outcome, [total_requests = 10^400] and a duration
    of one second, line 134 raises [OverflowError]. *)
Lemma huge_total_raises_overflow :
  _calculate_stats_checked (fun x => x) [] ∅ [] (10 ^ 400) 1 = Raise OverflowError
  /\ ~ (exists r, _calculate_stats_checked (fun x => x) [] ∅ [] (10 ^ 400) 1 = Ret r).
Proof.
  assert (_calculate_stats_checked (fun x => x) [] ∅ [] (10 ^ 400) 1 = Raise OverflowError)
    as E by (vm_compute; reflexivity).
  split; [exact E|]. intros [r Hr]. rewrite E in Hr. discriminate.
Qed.

(** C3 (amended).  With zero completed outcomes and a [total_requests]
    that converts to a float (its magnitude below [2^1024 - 2^970]), or
    with a duration that is not positive, the reducer returns a result
    (it raises nothing, for any histogram and error list) whose seven
    latency fields are 0 and whose success rate is 0; in particular the
    success rate is 0 when [total_requests] is 0, and [rps] is 0 when the
    duration is 0.  From that magnitude on and with a positive duration,
    [total_requests / duration] raises [OverflowError]. *)
Theorem no_completed_outcomes_all_zero (sqrt : Q -> Q) (codes : gmap Z Z)
    (errs : list string) (total : Z) (dur : Q) :
  ((Z.abs total < float_overflow)%Z \/ dur <= 0 ->
     exists r, _calculate_stats_checked sqrt [] codes errs total dur = Ret r
       /\ avg_response_time r = 0 /\ min_response_time r = 0
       /\ max_response_time r = 0 /\ median_response_time r = 0
       /\ stdev_response_time r = 0
       /\ p95_response_time r = 0 /\ p99_response_time r = 0
       /\ successful r = 0%Z
       /\ success_rate r == 0
       /\ (total = 0%Z -> success_rate r = 0)
       /\ (dur == 0 -> rps r = 0))
  /\ ((float_overflow <= Z.abs total)%Z -> 0 < dur ->
        _calculate_stats_checked sqrt [] codes errs total dur = Raise OverflowError).
Proof.
  split.
  - intros Hr. rewrite (_calculate_stats_checked_empty _ _ _ _ _ Hr).
    eexists. split; [reflexivity|]. simpl.
    repeat (split; [reflexivity|]). split; [|split].
    + apply rate_of_zero.
    + intros ->. reflexivity.
    + intros Hd. unfold rps_of. destruct (Qlt_le_dec 0 dur) as [H|H]; [lra | reflexivity].
  - apply _calculate_stats_checked_overflow.
Qed.

Lemma no_completed_outcomes_all_zero_witness :
  (exists r, _calculate_stats_checked (fun x => x) [] ∅ [] 0 0 = Ret r
     /\ success_rate r = 0 /\ rps r = 0 /\ p99_response_time r = 0)
  /\ _calculate_stats_checked (fun x => x) [] ∅ [] (2 ^ 1024) 1 = Raise OverflowError.
Proof.
  split.
  - destruct (proj1 (no_completed_outcomes_all_zero (fun x => x) ∅ [] 0 0))
      as (r & E & _ & _ & _ & _ & _ & _ & Hp & _ & _ & Hrate & Hrps);
      [left; reflexivity|].
    exists r. split; [exact E|]. split; [apply Hrate; reflexivity|].
    split; [apply Hrps; reflexivity | exact Hp].
  - apply (proj2 (no_completed_outcomes_all_zero (fun x => x) ∅ [] (2 ^ 1024) 1));
      [vm_compute; discriminate | reflexivity].
Defined.

(** C10.  With exactly one completed outcome [x], the reducer returns a
    result whose avg, min, max, median, p95 and p99 all equal [x] and whose
    stdev is 0: [stdev] is not called below two samples, and the
    percentile index collapses to [f = c = 0]. *)
Theorem single_sample_statistics (sqrt : Q -> Q) (x : Q) (codes : gmap Z Z)
    (errs : list string) (total : Z) (dur : Q) :
  exists r, _calculate_stats sqrt [x] codes errs total dur = Ret r
    /\ avg_response_time r == x
    /\ min_response_time r = x /\ max_response_time r = x
    /\ median_response_time r = x
    /\ stdev_response_time r = 0
    /\ p95_response_time r = x /\ p99_response_time r = x
    /\ py_int (frac_index 1 95) = 0%Z /\ py_int (frac_index 1 99) = 0%Z.
Proof.
  destruct (_calculate_stats_nonempty sqrt [x] codes errs total dur)
    as (avg & mn & mx & med & sd & Ha & Hmn & Hmx & Hmed & Hsd & E); [discriminate|].
  simpl in Ha, Hmn, Hmx, Hmed, Hsd.
  injection Ha as <-. injection Hmn as <-. injection Hmx as <-.
  injection Hsd as <-.
  cbv [py_index length Z.of_nat Z.leb Z.ltb Z.compare andb Z.to_nat nth_error] in Hmed.
  injection Hmed as <-.
  eexists. split; [exact E|]. simpl.
  split; [unfold Qsum; simpl; field|].
  repeat split; reflexivity.
Qed.

(** ** Ordering of median, p95 and p99 *)


Lemma frac_index_mono (n : nat) (p q : Z) :
  (0 < n)%nat -> (p <= q)%Z -> frac_index n p <= frac_index n q.
Proof.
  intros Hn Hpq. unfold frac_index.
  assert (0 <= inject_Z (Z.of_nat n - 1)) as A.
  { change 0 with (inject_Z 0). rewrite <- Zle_Qle. lia. }
  assert (inject_Z p <= inject_Z q) as B by (rewrite <- Zle_Qle; exact Hpq).
  assert (inject_Z p / 100 <= inject_Z q / 100) as C.
  { unfold Qdiv. apply Qmult_le_compat_r; [exact B | discriminate]. }
  nra.
Qed.






(** ** The runner: what one step and one schedule do *)

Local Close Scope Q_scope.

Lemma count_task_insert (s : task) (l : list task) (i : nat) (a b : task) :
  l !! i = Some a ->
  count_task s (<[i:=b]> l) + (if decide (a = s) then 1 else 0)
  = count_task s l + (if decide (b = s) then 1 else 0).
Proof.
  revert i. induction l as [|t l IH]; intros i Hi; [discriminate|].
  destruct i as [|i]; simpl in *.
  - injection Hi as ->. lia.
  - specialize (IH i Hi). lia.
Qed.

Lemma count_task_replicate (s t : task) (n : nat) :
  s <> t -> count_task s (replicate n t) = 0.
Proof.
  intros Hne. induction n as [|n IH]; simpl; [reflexivity|].
  destruct (decide (t = s)); [congruence | exact IH].
Qed.

Lemma count_task_all_done (l : list task) :
  forallb (fun t => bool_decide (t = Done)) l = true ->
  count_task Done l = length l /\ forall i t, l !! i = Some t -> t = Done.
Proof.
  induction l as [|t l IH]; simpl; intros H.
  - split; [reflexivity | intros i t Hi; discriminate].
  - apply andb_prop in H as [H1 H2]. apply bool_decide_eq_true in H1. subst t.
    destruct (IH H2) as [IH1 IH2]. split.
    + destruct (decide (Done = Done)); [lia | congruence].
    + intros [|i] t Hi; simpl in Hi; [congruence | eauto].
Qed.

Lemma step_acquire_inv (cfg : Config) (st st' : RunState) (i : nat) :
  step cfg st (Acquire i) = Some st' ->
  st_tasks st !! i = Some Waiting /\ (0 < st_sem st)%Z /\
  st_tasks st' = <[i:=InFlight]> (st_tasks st) /\
  st_sem st' = (st_sem st - 1)%Z /\
  st_response_times st' = st_response_times st /\
  st_errors st' = st_errors st /\
  st_completed st' = st_completed st /\
  st_calls st' = st_calls st ++ [dispatch (method cfg) (url cfg) (headers cfg) (body cfg)].
Proof.
  unfold step. destruct (st_tasks st !! i) as [[| |]|] eqn:E; try discriminate.
  destruct (0 <? st_sem st)%Z eqn:Hs; [|discriminate].
  intros H. injection H as <-. simpl. apply Z.ltb_lt in Hs. tauto.
Qed.

Lemma step_finish_inv (cfg : Config) (st st' : RunState) (i : nat) (r : reply) :
  step cfg st (Finish i r) = Some st' ->
  st_tasks st !! i = Some InFlight /\
  st_tasks st' = <[i:=Done]> (st_tasks st) /\
  st_sem st' = (st_sem st + 1)%Z /\
  st_response_times st' = st_response_times st ++ elapsed_times [(i, r)] /\
  st_errors st' = st_errors st ++ diagnostics [(i, r)] /\
  st_completed st' = (st_completed st + 1)%Z /\
  st_calls st' = st_calls st.
Proof.
  unfold step. destruct (st_tasks st !! i) as [[| |]|] eqn:E; try discriminate.
  intros H. injection H as <-.
  destruct r; simpl; rewrite ?app_nil_r; tauto.
Qed.

Lemma step_sem_inv (cfg : Config) (st st' : RunState) (ev : event) :
  sem_inv cfg st -> step cfg st ev = Some st' -> sem_inv cfg st'.
Proof.
  unfold sem_inv, in_flight. intros (I1 & I2 & I3) Hstep. destruct ev as [i|i r].
  - apply step_acquire_inv in Hstep as (Hi & Hs & Ht & Hsem & _ & _ & Hc & _).
    rewrite Ht, Hsem, Hc.
    pose proof (count_task_insert InFlight _ i _ InFlight Hi) as A.
    pose proof (count_task_insert Done _ i _ InFlight Hi) as B.
    simpl in A, B. repeat split; lia.
  - apply step_finish_inv in Hstep as (Hi & Ht & Hsem & _ & _ & Hc & _).
    rewrite Ht, Hsem, Hc.
    pose proof (count_task_insert InFlight _ i _ Done Hi) as A.
    pose proof (count_task_insert Done _ i _ Done Hi) as B.
    simpl in A, B. repeat split; lia.
Qed.

Lemma exec_sem_inv (cfg : Config) (tr : list event) (st st' : RunState) :
  sem_inv cfg st -> exec cfg tr st = Some st' -> sem_inv cfg st'.
Proof.
  revert st. induction tr as [|ev tr IH]; simpl; intros st Hinv H.
  - injection H as <-. exact Hinv.
  - destruct (step cfg st ev) as [st1|] eqn:E; [|discriminate].
    eapply IH; [|exact H]. eapply step_sem_inv; eassumption.
Qed.

Lemma init_inv (cfg : Config) (st : RunState) :
  init cfg = Ret st ->
  sem_inv cfg st /\ st_tasks st = replicate (Z.to_nat (requests cfg)) Waiting /\
  st_response_times st = [] /\ st_errors st = [] /\ st_calls st = [] /\
  st_completed st = 0%Z /\ (0 <= concurrent cfg)%Z.
Proof.
  unfold init. destruct (concurrent cfg <? 0)%Z eqn:E; [discriminate|].
  intros H. injection H as <-. apply Z.ltb_ge in E.
  unfold sem_inv, in_flight. simpl.
  rewrite !count_task_replicate by discriminate. repeat split; lia.
Qed.

Lemma length_replies_split (rs : list (nat * reply)) :
  length (elapsed_times rs) + length (diagnostics rs) = length rs.
Proof.
  induction rs as [|[i [e c|e]] rs IH]; simpl; [reflexivity| |];
    unfold elapsed_times, diagnostics in *; simpl; lia.
Qed.

(** What a schedule leaves in the shared lists. *)
Lemma exec_spec (cfg : Config) (tr : list event) (st st' : RunState) :
  exec cfg tr st = Some st' ->
  st_response_times st' = st_response_times st ++ elapsed_times (replies tr) /\
  st_errors st' = st_errors st ++ diagnostics (replies tr) /\
  st_completed st' = (st_completed st + Z.of_nat (length (replies tr)))%Z /\
  st_calls st' = st_calls st ++
    replicate (acquires tr) (dispatch (method cfg) (url cfg) (headers cfg) (body cfg)) /\
  length (st_tasks st') = length (st_tasks st) /\
  st_sem st' = (st_sem st - Z.of_nat (acquires tr) + Z.of_nat (length (replies tr)))%Z /\
  length tr = acquires tr + length (replies tr).
Proof.
  revert st. induction tr as [|ev tr IH]; simpl; intros st H.
  - injection H as <-. rewrite !app_nil_r. repeat split; lia.
  - destruct (step cfg st ev) as [st1|] eqn:E; [|discriminate].
    destruct (IH _ H) as (A & B & C & D & L & S & N). destruct ev as [i|i r].
    + apply step_acquire_inv in E as (_ & _ & Ht & Hs & Hr & He & Hc & Hcalls).
      rewrite A, B, C, D, L, S, Hr, He, Hc, Hs, Hcalls, Ht, length_insert, <- app_assoc.
      simpl. repeat split; try reflexivity; lia.
    + apply step_finish_inv in E as (_ & Ht & Hs & Hr & He & Hc & Hcalls).
      rewrite A, B, C, D, L, S, Hr, He, Hc, Hs, Hcalls, Ht, length_insert, <- !app_assoc.
      unfold elapsed_times, diagnostics.
      change ((i, r) :: replies tr) with ([(i, r)] ++ replies tr).
      rewrite !omap_app. simpl length. repeat split; try reflexivity; lia.
Qed.

(** Each unit of work is let in and brought back as often as its state
    says: never for [Waiting], once and not yet for [InFlight], once and
    once for [Done]. *)
Lemma exec_task_counts (cfg : Config) (tr : list event) (st st' : RunState)
    (i : nat) (t : task) :
  exec cfg tr st = Some st' -> st_tasks st !! i = Some t ->
  exists t', st_tasks st' !! i = Some t'
    /\ acquired t' = acquired t + count_acquire i tr
    /\ released t' = released t + count_finish i tr.
Proof.
  revert st t. induction tr as [|ev tr IH]; simpl; intros st t H Hi.
  - injection H as <-. exists t. repeat split; [exact Hi | lia | lia].
  - destruct (step cfg st ev) as [st1|] eqn:E; [|discriminate].
    destruct ev as [j|j r].
    + apply step_acquire_inv in E as (Hj & _ & Ht & _).
      destruct (decide (j = i)) as [->|Hne].
      * assert (t = Waiting) by congruence. subst t.
        destruct (IH st1 InFlight H) as (t' & A & B & C).
        { rewrite Ht. apply list_lookup_insert_eq. eapply lookup_lt_Some; eassumption. }
        exists t'. simpl in *. repeat split; [exact A | lia | lia].
      * destruct (IH st1 t H) as (t' & A & B & C).
        { rewrite Ht, list_lookup_insert_ne by exact Hne. exact Hi. }
        exists t'. repeat split; [exact A | lia | lia].
    + apply step_finish_inv in E as (Hj & Ht & _).
      destruct (decide (j = i)) as [->|Hne].
      * assert (t = InFlight) by congruence. subst t.
        destruct (IH st1 Done H) as (t' & A & B & C).
        { rewrite Ht. apply list_lookup_insert_eq. eapply lookup_lt_Some; eassumption. }
        exists t'. simpl in *. repeat split; [exact A | lia | lia].
      * destruct (IH st1 t H) as (t' & A & B & C).
        { rewrite Ht, list_lookup_insert_ne by exact Hne. exact Hi. }
        exists t'. repeat split; [exact A | lia | lia].
Qed.

(** No step ever names a request outside [range(requests)]. *)
Lemma exec_no_stranger (cfg : Config) (tr : list event) (st st' : RunState) (i : nat) :
  exec cfg tr st = Some st' -> st_tasks st !! i = None ->
  count_acquire i tr = 0 /\ count_finish i tr = 0.
Proof.
  revert st. induction tr as [|ev tr IH]; simpl; intros st H Hi; [split; reflexivity|].
  destruct (step cfg st ev) as [st1|] eqn:E; [|discriminate].
  assert (st_tasks st1 !! i = None) as Hi1.
  { apply lookup_ge_None. apply lookup_ge_None in Hi.
    destruct ev as [j|j r];
      [apply step_acquire_inv in E as (_ & _ & Ht & _)
      |apply step_finish_inv in E as (_ & Ht & _)];
      rewrite Ht, length_insert; exact Hi. }
  destruct (IH st1 H Hi1) as [A B].
  destruct ev as [j|j r].
  - apply step_acquire_inv in E as (Hj & _).
    destruct (decide (j = i)) as [->|Hne]; [congruence|]. split; [lia | exact B].
  - apply step_finish_inv in E as (Hj & _).
    destruct (decide (j = i)) as [->|Hne]; [congruence|]. split; [exact A | lia].
Qed.

(** The state [gather] returns in: one reply per request, and the shared
    lists hold exactly what the replies put there, in delivery order. *)
Lemma complete_schedule (cfg : Config) (tr : list event) (st0 st : RunState) :
  init cfg = Ret st0 -> exec cfg tr st0 = Some st -> all_done st = true ->
  st_response_times st = elapsed_times (replies tr)
  /\ st_errors st = diagnostics (replies tr)
  /\ length (replies tr) = Z.to_nat (requests cfg)
  /\ (forall i, count_acquire i tr = if decide (i < Z.to_nat (requests cfg)) then 1 else 0)
  /\ (forall i, count_finish i tr = if decide (i < Z.to_nat (requests cfg)) then 1 else 0).
Proof.
  intros Hinit Hexec Hdone.
  destruct (init_inv cfg st0 Hinit) as (Hinv & Ht0 & Hr0 & He0 & _ & Hc0 & _).
  destruct (exec_spec cfg tr st0 st Hexec) as (A & B & C & _ & L & _).
  pose proof (exec_sem_inv cfg tr st0 st Hinv Hexec) as (_ & _ & Hc).
  unfold all_done in Hdone. destruct (count_task_all_done _ Hdone) as [Hcnt Hall].
  rewrite Hr0 in A. rewrite He0 in B. simpl in A, B.
  rewrite Ht0, length_replicate in L.
  assert (forall i,
    count_acquire i tr = (if decide (i < Z.to_nat (requests cfg)) then 1 else 0) /\
    count_finish i tr = (if decide (i < Z.to_nat (requests cfg)) then 1 else 0)) as Hcounts.
  { intros i. destruct (decide (i < Z.to_nat (requests cfg))) as [Hlt|Hge].
    - destruct (exec_task_counts cfg tr st0 st i Waiting Hexec) as (t' & Hi' & Ha & Hf).
      { rewrite Ht0. apply lookup_replicate_2. exact Hlt. }
      rewrite (Hall _ _ Hi') in Ha, Hf. simpl in Ha, Hf. split; lia.
    - apply (exec_no_stranger cfg tr st0 st i Hexec).
      rewrite Ht0. apply lookup_replicate_None. lia. }
  repeat split; try assumption.
  - lia.
  - intros i. apply Hcounts.
  - intros i. apply Hcounts.
Qed.

(** ** The serial schedule is a schedule *)

Lemma step_acquire_ok (cfg : Config) (st : RunState) (i : nat) :
  st_tasks st !! i = Some Waiting -> (0 < st_sem st)%Z ->
  exists st', step cfg st (Acquire i) = Some st'
    /\ st_tasks st' = <[i:=InFlight]> (st_tasks st)
    /\ st_sem st' = (st_sem st - 1)%Z.
Proof.
  intros Hi Hs. unfold step. rewrite Hi.
  replace (0 <? st_sem st)%Z with true by (symmetry; apply Z.ltb_lt; exact Hs).
  eexists. split; [reflexivity|]. simpl. split; reflexivity.
Qed.

Lemma step_finish_ok (cfg : Config) (st : RunState) (i : nat) (r : reply) :
  st_tasks st !! i = Some InFlight ->
  exists st', step cfg st (Finish i r) = Some st'
    /\ st_tasks st' = <[i:=Done]> (st_tasks st)
    /\ st_sem st' = (st_sem st + 1)%Z.
Proof.
  intros Hi. unfold step. rewrite Hi.
  eexists. split; [reflexivity|]. destruct r; simpl; split; reflexivity.
Qed.

Lemma exec_serial (cfg : Config) (rs : list reply) (j : nat) (st : RunState) :
  st_tasks st = replicate j Done ++ replicate (length rs) Waiting ->
  (0 < st_sem st)%Z ->
  exists st', exec cfg (serial_from j rs) st = Some st'
    /\ st_tasks st' = replicate (j + length rs) Done
    /\ replies (serial_from j rs) = zip (seq j (length rs)) rs.
Proof.
  revert j st. induction rs as [|r rs IH]; intros j st Ht Hs.
  - exists st. rewrite Ht, Nat.add_0_r. simpl. rewrite app_nil_r. auto.
  - cbn [length replicate] in Ht.
    assert (st_tasks st !! j = Some Waiting) as Hj.
    { rewrite Ht, lookup_app_r, length_replicate, Nat.sub_diag by (rewrite length_replicate; lia).
      reflexivity. }
    destruct (step_acquire_ok cfg st j Hj Hs) as (st1 & E1 & T1 & S1).
    assert (st_tasks st1 !! j = Some InFlight) as Hj1.
    { rewrite T1. apply list_lookup_insert_eq. eapply lookup_lt_Some; exact Hj. }
    destruct (step_finish_ok cfg st1 j r Hj1) as (st2 & E2 & T2 & S2).
    destruct (IH (S j) st2) as (st' & E & T & R).
    + rewrite T2, T1, list_insert_insert_eq, Ht.
      rewrite insert_app_r_alt, length_replicate, Nat.sub_diag by (rewrite length_replicate; lia).
      simpl. rewrite cons_middle, app_assoc, <- replicate_S_end. reflexivity.
    + lia.
    + exists st'. cbn [serial_from exec replies]. rewrite E1, E2. split; [exact E|]. split.
      * rewrite T. f_equal. simpl. lia.
      * rewrite R. reflexivity.
Qed.

Lemma length_elapsed_times (rs : list (nat * reply)) :
  length (elapsed_times rs) = count_completed rs.
Proof.
  induction rs as [|[i [e c|e]] rs IH]; simpl; [reflexivity| |];
    unfold elapsed_times in *; simpl; lia.
Qed.

Lemma length_diagnostics (rs : list (nat * reply)) :
  length (diagnostics rs) = count_failed rs.
Proof.
  induction rs as [|[i [e c|e]] rs IH]; simpl; [reflexivity| |];
    unfold diagnostics in *; simpl; lia.
Qed.

Lemma count_completed_failed (rs : list (nat * reply)) :
  count_completed rs + count_failed rs = length rs.
Proof.
  induction rs as [|[i r] rs IH]; simpl; [reflexivity|].
  destruct (carries_status_code r); lia.
Qed.

Lemma all_failed_no_elapsed (rs : list (nat * reply)) :
  Forall (fun p => carries_status_code (snd p) = false) rs -> elapsed_times rs = [].
Proof.
  induction 1 as [|[i r] rs Hr _ IH]; [reflexivity|].
  simpl in Hr. destruct r; [discriminate|]. exact IH.
Qed.

(** What [run] hands back along a schedule that lets [gather] return. *)
Lemma run_result (sqrt : Q -> Q) (cfg : Config) (tr : list event) (dur : Q)
    (r : LoadTestResult) :
  run sqrt cfg tr dur = Some (Ret r) ->
  exists st0 st,
    init cfg = Ret st0 /\ exec cfg tr st0 = Some st /\ all_done st = true
    /\ _calculate_stats sqrt (elapsed_times (replies tr)) (st_status_codes st)
         (diagnostics (replies tr)) (requests cfg) dur = Ret r.
Proof.
  unfold run. destruct (init cfg) as [st0|e] eqn:Hi; [|discriminate].
  destruct (exec cfg tr st0) as [st|] eqn:He; [|discriminate].
  destruct (all_done st) eqn:Hd; [|discriminate].
  intros H. injection H as H.
  destruct (complete_schedule cfg tr st0 st Hi He Hd) as (A & B & _).
  rewrite A, B in H. exists st0, st. auto.
Qed.


(** ** Counts of the result *)

(** C4.  Whatever is fed to the reducer, it returns a result with
    [successful + failed = total_requests], where [successful] is the
    number of elapsed times and [failed = total_requests - successful];
    and in a run [successful] is the number of outcomes that carry a
    status code. *)
Theorem successful_plus_failed_is_total :
  (forall (sqrt : Q -> Q) (response_times : list Q) (codes : gmap Z Z)
          (errs : list string) (total : Z) (dur : Q),
     exists r, _calculate_stats sqrt response_times codes errs total dur = Ret r
       /\ (successful r + failed r = total)%Z
       /\ successful r = Z.of_nat (length response_times)
       /\ failed r = (total - successful r)%Z)
  /\ (forall (sqrt : Q -> Q) (cfg : Config) (tr : list event) (dur : Q)
             (r : LoadTestResult),
        run sqrt cfg tr dur = Some (Ret r) ->
        (successful r + failed r = requests cfg)%Z
        /\ successful r = Z.of_nat (count_completed (replies tr))
        /\ failed r = (requests cfg - successful r)%Z).
Proof.
  split.
  - intros sqrt l codes errs total dur.
    destruct (_calculate_stats_total sqrt l codes errs total dur)
      as (r & E & _ & Hs & Hf & _).
    exists r. rewrite Hs, Hf. repeat split; [exact E | lia].
  - intros sqrt cfg tr dur r Hrun.
    destruct (run_result sqrt cfg tr dur r Hrun) as (st0 & st & _ & _ & _ & E).
    destruct (_calculate_stats_total sqrt (elapsed_times (replies tr))
                (st_status_codes st) (diagnostics (replies tr)) (requests cfg) dur)
      as (r' & E' & _ & Hs & Hf & _).
    rewrite E in E'. injection E' as <-.
    rewrite Hs, Hf, length_elapsed_times. repeat split; lia.
Qed.

Lemma successful_plus_failed_is_total_witness :
  exists r, run (fun x => x) sample_config sample_schedule 1%Q = Some (Ret r)
    /\ (successful r + failed r = 3)%Z /\ successful r = 2%Z.
Proof.
  destruct (run (fun x => x) sample_config sample_schedule 1%Q) as [[r|e]|] eqn:E;
    [|vm_compute in E; discriminate..].
  exists r. split; [reflexivity|].
  destruct (proj2 successful_plus_failed_is_total _ _ _ _ r E) as (A & B & _).
  split; [exact A | exact B].
Defined.

(** C5.  The [errors] field is the first 10 entries of the error list
    handed to the reducer, in the same order, all of them when there are
    fewer than 10.  In a run that list is the diagnostics of the failed
    outcomes in delivery order; with 50 failures [errors] has exactly 10
    entries while [failed] is 50. *)
Theorem errors_are_first_ten :
  (forall (sqrt : Q -> Q) (response_times : list Q) (codes : gmap Z Z)
          (errs : list string) (total : Z) (dur : Q),
     exists r, _calculate_stats sqrt response_times codes errs total dur = Ret r
       /\ errors r = firstn 10 errs
       /\ length (errors r) = Nat.min 10 (length errs))
  /\ (forall (sqrt : Q -> Q) (cfg : Config) (tr : list event) (dur : Q)
             (r : LoadTestResult),
        run sqrt cfg tr dur = Some (Ret r) ->
        errors r = firstn 10 (diagnostics (replies tr))
        /\ length (errors r) = Nat.min 10 (count_failed (replies tr))
        /\ ((0 <= requests cfg)%Z -> failed r = Z.of_nat (count_failed (replies tr)))
        /\ (count_failed (replies tr) = 50 ->
            length (errors r) = 10 /\ failed r = 50%Z)).
Proof.
  split.
  - intros sqrt l codes errs total dur.
    destruct (_calculate_stats_total sqrt l codes errs total dur)
      as (r & E & _ & _ & _ & He & _).
    exists r. rewrite He, length_take. auto.
  - intros sqrt cfg tr dur r Hrun.
    destruct (run_result sqrt cfg tr dur r Hrun) as (st0 & st & Hi & Hx & Hd & E).
    destruct (complete_schedule cfg tr st0 st Hi Hx Hd) as (_ & _ & Hn & _).
    destruct (_calculate_stats_total sqrt (elapsed_times (replies tr))
                (st_status_codes st) (diagnostics (replies tr)) (requests cfg) dur)
      as (r' & E' & _ & _ & Hf & He & _).
    rewrite E in E'. injection E' as <-.
    pose proof (count_completed_failed (replies tr)) as Hsum.
    rewrite length_elapsed_times in Hf.
    rewrite He, length_take, length_diagnostics.
    repeat split; lia.
Qed.

Lemma errors_are_first_ten_witness :
  exists r, run (fun x => x) failing_config failing_schedule 1%Q = Some (Ret r)
    /\ length (errors r) = 10 /\ failed r = 50%Z.
Proof.
  destruct (run (fun x => x) failing_config failing_schedule 1%Q) as [[r|e]|] eqn:E;
    [|vm_compute in E; discriminate..].
  exists r. split; [reflexivity|].
  destruct (proj2 errors_are_first_ten _ _ _ _ r E) as (_ & _ & _ & H).
  apply H. vm_compute. reflexivity.
Defined.

(** ** Headers and body of the requests sent *)

Lemma dispatch_fields (m u : string) (h : option (gmap string string)) (b : option string) :
  call_url (dispatch m u h b) = u
  /\ call_headers (dispatch m u h b) = h
  /\ call_content (dispatch m u h b) = if sends_no_body m then None else b.
Proof.
  unfold dispatch, sends_no_body.
  destruct (String.eqb (upper m) "GET"); [simpl; auto|].
  destruct (String.eqb (upper m) "POST") eqn:Epost.
  - apply String.eqb_eq in Epost. rewrite Epost. simpl. auto.
  - destruct (String.eqb (upper m) "PUT") eqn:Eput.
    + apply String.eqb_eq in Eput. rewrite Eput. simpl. auto.
    + destruct (String.eqb (upper m) "DELETE"); simpl; auto.
Qed.

(** C9, as the claim states it, fails: a run configured with GET and a
    body sends its requests without the body. *)
Lemma get_request_drops_body :
  call_content (dispatch "GET" "http://localhost:8000/" None (Some "payload"))
  <> Some "payload".
Proof. vm_compute. discriminate. Qed.

(** C9, amended.  In every run, at every moment, each request sent so
    far carries the configured URL and the configured headers, whatever
    the method; it carries the configured body when the upper-cased method
    is neither GET nor DELETE, and no body when it is GET or DELETE.  One
    request is sent per admission through the semaphore. *)
Theorem headers_always_body_by_method (cfg : Config) (tr : list event)
    (st0 st : RunState) :
  init cfg = Ret st0 -> exec cfg tr st0 = Some st ->
  length (st_calls st) = acquires tr
  /\ Forall (fun c =>
       call_url c = url cfg
       /\ call_headers c = headers cfg
       /\ call_content c = if sends_no_body (method cfg) then None else body cfg)
     (st_calls st).
Proof.
  intros Hi Hx.
  destruct (init_inv cfg st0 Hi) as (_ & _ & _ & _ & Hc & _).
  destruct (exec_spec cfg tr st0 st Hx) as (_ & _ & _ & D & _).
  rewrite D, Hc. simpl. split; [apply length_replicate|].
  apply Forall_replicate, dispatch_fields.
Qed.

Lemma headers_always_body_by_method_witness :
  exists st0 st,
    init sample_config = Ret st0 /\
    exec sample_config [Acquire 0; Acquire 1] st0 = Some st /\
    length (st_calls st) = 2 /\
    Forall (fun c => call_headers c = None /\ call_content c = Some "payload")
      (st_calls st).
Proof.
  destruct (init sample_config) as [st0|e] eqn:Hi; [|vm_compute in Hi; discriminate].
  destruct (exec sample_config [Acquire 0; Acquire 1] st0) as [st|] eqn:Hx;
    [|vm_compute in Hi; injection Hi as <-; vm_compute in Hx; discriminate].
  exists st0, st. split; [reflexivity|]. split; [exact Hx|].
  destruct (headers_always_body_by_method sample_config _ st0 st Hi Hx) as [L F].
  split; [exact L|].
  eapply Forall_impl; [exact F|]. intros c (_ & H & B). split; [exact H | exact B].
Defined.

(** ** No deadlock, and schedules are finite *)

Lemma count_task_pos (s : task) (l : list task) :
  0 < count_task s l -> exists i, l !! i = Some s.
Proof.
  induction l as [|t l IH]; simpl; [lia|]. intros H.
  destruct (decide (t = s)) as [->|Hne].
  - exists 0. reflexivity.
  - destruct IH as [i Hi]; [lia|]. exists (S i). exact Hi.
Qed.

Lemma some_task_not_done (l : list task) :
  forallb (fun t => bool_decide (t = Done)) l = false ->
  exists i t, l !! i = Some t /\ t <> Done.
Proof.
  induction l as [|t l IH]; simpl; [discriminate|]. intros H.
  apply andb_false_iff in H as [H|H].
  - apply bool_decide_eq_false in H. exists 0, t. auto.
  - destruct (IH H) as (i & t' & Hi & Ht). exists (S i), t'. auto.
Qed.

Lemma count_task_bound (l : list task) :
  count_task InFlight l + count_task Done l <= length l.
Proof.
  induction l as [|t l IH]; simpl; [lia|].
  destruct t; simpl; lia.
Qed.

(** While some unit of work is not done and the semaphore was built with
    at least one slot, the event loop has a step to take. *)
Lemma progress (cfg : Config) (st : RunState) :
  sem_inv cfg st -> (1 <= concurrent cfg)%Z -> all_done st = false ->
  (exists i, st_tasks st !! i = Some InFlight)
  \/ (exists i st', step cfg st (Acquire i) = Some st').
Proof.
  intros (I1 & I2 & _) Hc Hnd. unfold all_done in Hnd.
  destruct (some_task_not_done _ Hnd) as (i & t & Hi & Ht).
  destruct t; [|left; eauto|congruence].
  destruct (Z_lt_le_dec 0 (st_sem st)) as [Hs|Hs].
  - right. destruct (step_acquire_ok cfg st i Hi Hs) as (st' & E & _). eauto.
  - left. apply count_task_pos. unfold in_flight in I1. lia.
Qed.

Lemma schedule_length (cfg : Config) (tr : list event) (st0 st : RunState) :
  init cfg = Ret st0 -> exec cfg tr st0 = Some st ->
  length tr <= 2 * Z.to_nat (requests cfg).
Proof.
  intros Hi Hx.
  destruct (init_inv cfg st0 Hi) as (Hinv & Ht0 & _ & _ & _ & Hc0 & _).
  destruct (exec_spec cfg tr st0 st Hx) as (_ & _ & C & _ & L & S & N).
  destruct (exec_sem_inv cfg tr st0 st Hinv Hx) as (J1 & J2 & J3).
  destruct Hinv as (I1 & _ & _). unfold in_flight in *.
  rewrite Ht0 in I1, L. rewrite count_task_replicate in I1 by discriminate.
  rewrite length_replicate in L.
  pose proof (count_task_bound (st_tasks st)). lia.
Qed.

Lemma all_done_replicate (n : nat) :
  forallb (fun t => bool_decide (t = Done)) (replicate n Done) = true.
Proof. induction n as [|n IH]; [reflexivity | simpl; exact IH]. Qed.

Lemma serial_run (cfg : Config) (rs : list reply) (st0 : RunState) :
  init cfg = Ret st0 -> (1 <= concurrent cfg)%Z ->
  length rs = Z.to_nat (requests cfg) ->
  exists st, exec cfg (serial_from 0 rs) st0 = Some st /\ all_done st = true
    /\ replies (serial_from 0 rs) = zip (seq 0 (length rs)) rs.
Proof.
  intros Hi Hc Hn.
  destruct (init_inv cfg st0 Hi) as ((I1 & _ & _) & Ht0 & _).
  unfold in_flight in I1. rewrite Ht0, count_task_replicate in I1 by discriminate.
  destruct (exec_serial cfg rs 0 st0) as (st & E & T & R).
  - rewrite Ht0, Hn. reflexivity.
  - lia.
  - exists st. split; [exact E|]. split; [|exact R].
    unfold all_done. rewrite T. apply all_done_replicate.
Qed.

(** ** The semaphore *)

(** C7.  Along every schedule of a run, after every step: the number of
    requests in flight is at most [concurrent] (at most 1 when
    [concurrent = 1]); no unit of work has entered the semaphore more than
    once or left it more often than it entered; a request in flight can
    always come back, whatever its reply, and that gives the slot back;
    when [gather] returns, every request has entered exactly once and left
    exactly once and there is exactly one outcome per request.  With at
    least one slot the run cannot get stuck before that, a schedule has at
    most two steps per request, and the serial schedule delivers any given
    replies. *)
Theorem semaphore_bounds_in_flight (cfg : Config) (tr : list event)
    (st0 st : RunState) :
  init cfg = Ret st0 -> exec cfg tr st0 = Some st ->
  (Z.of_nat (in_flight st) <= concurrent cfg)%Z
  /\ (concurrent cfg = 1%Z -> in_flight st <= 1)
  /\ (forall i, count_acquire i tr <= 1 /\ count_finish i tr <= count_acquire i tr)
  /\ (forall i r, st_tasks st !! i = Some InFlight ->
        exists st', step cfg st (Finish i r) = Some st'
          /\ st_sem st' = (st_sem st + 1)%Z
          /\ S (in_flight st') = in_flight st)
  /\ (all_done st = true ->
        (forall i, count_acquire i tr = if decide (i < Z.to_nat (requests cfg)) then 1 else 0)
        /\ (forall i, count_finish i tr = if decide (i < Z.to_nat (requests cfg)) then 1 else 0)
        /\ length (replies tr) = Z.to_nat (requests cfg)
        /\ length (st_response_times st) + length (st_errors st)
           = Z.to_nat (requests cfg))
  /\ ((1 <= concurrent cfg)%Z -> all_done st = false ->
        (exists i, st_tasks st !! i = Some InFlight)
        \/ (exists i st', step cfg st (Acquire i) = Some st'))
  /\ length tr <= 2 * Z.to_nat (requests cfg)
  /\ (forall rs, (1 <= concurrent cfg)%Z -> length rs = Z.to_nat (requests cfg) ->
        exists st', exec cfg (serial_from 0 rs) st0 = Some st' /\ all_done st' = true
          /\ replies (serial_from 0 rs) = zip (seq 0 (length rs)) rs).
Proof.
  intros Hi Hx.
  destruct (init_inv cfg st0 Hi) as (Hinv0 & Ht0 & _).
  pose proof (exec_sem_inv cfg tr st0 st Hinv0 Hx) as Hinv.
  assert (Z.of_nat (in_flight st) <= concurrent cfg)%Z as Hb
    by (destruct Hinv as (I1 & I2 & _); lia).
  split; [exact Hb|]. split; [lia|]. split; [|split; [|split; [|split; [|split]]]].
  - intros i. destruct (st_tasks st0 !! i) as [t|] eqn:Ei.
    + assert (t = Waiting) as -> by (rewrite Ht0 in Ei; apply lookup_replicate in Ei; tauto).
      destruct (exec_task_counts cfg tr st0 st i Waiting Hx Ei) as (t' & _ & A & B).
      destruct t'; simpl in A, B; lia.
    + destruct (exec_no_stranger cfg tr st0 st i Hx Ei). lia.
  - intros i r Hfl.
    destruct (step_finish_ok cfg st i r Hfl) as (st' & E & T & S).
    exists st'. split; [exact E|]. split; [exact S|].
    unfold in_flight. rewrite T.
    pose proof (count_task_insert InFlight _ i _ Done Hfl) as C. simpl in C. lia.
  - intros Hd.
    destruct (complete_schedule cfg tr st0 st Hi Hx Hd) as (A & B & C & D & E).
    repeat split; try assumption.
    rewrite A, B, length_replies_split. exact C.
  - intros Hc Hnd. apply progress; assumption.
  - eapply schedule_length; eassumption.
  - intros rs Hc Hn. apply serial_run; assumption.
Qed.

Lemma semaphore_bounds_in_flight_witness :
  exists st0 st,
    init sample_config = Ret st0 /\
    exec sample_config [Acquire 0; Acquire 1; Finish 1 (Response 120 200)] st0 = Some st /\
    (Z.of_nat (in_flight st) <= 2)%Z.
Proof.
  destruct (init sample_config) as [st0|e] eqn:Hi; [|vm_compute in Hi; discriminate].
  destruct (exec sample_config [Acquire 0; Acquire 1; Finish 1 (Response 120 200)] st0)
    as [st|] eqn:Hx;
    [|vm_compute in Hi; injection Hi as <-; vm_compute in Hx; discriminate].
  exists st0, st. split; [reflexivity|]. split; [exact Hx|].
  exact (proj1 (semaphore_bounds_in_flight sample_config _ st0 st Hi Hx)).
Defined.

(** ** Failures of single requests *)

Lemma step_raised (cfg : Config) (st : RunState) (i : nat) (e : exn) :
  st_tasks st !! i = Some InFlight ->
  exists st', step cfg st (Finish i (Raised e)) = Some st'
    /\ st_errors st' = st_errors st ++ [diagnostic i e]
    /\ st_response_times st' = st_response_times st
    /\ st_status_codes st' = st_status_codes st
    /\ st_completed st' = (st_completed st + 1)%Z.
Proof.
  intros Hi. unfold step. rewrite Hi. eexists. split; [reflexivity|].
  simpl. auto.
Qed.

Lemma count_completed_raised (ids : list nat) (es : list exn) :
  count_completed (zip ids (map Raised es)) = 0.
Proof.
  revert ids. induction es as [|e es IH]; intros [|i ids]; simpl; auto.
Qed.

Lemma no_completed_no_elapsed (rs : list (nat * reply)) :
  count_completed rs = 0 -> elapsed_times rs = [].
Proof.
  intros H. rewrite <- length_elapsed_times in H.
  destruct (elapsed_times rs); [reflexivity | discriminate].
Qed.

Lemma run_checked_complete (sqrt : Q -> Q) (cfg : Config) (tr : list event) (dur : Q)
    (st0 st : RunState) :
  init cfg = Ret st0 -> exec cfg tr st0 = Some st -> all_done st = true ->
  (Z.abs (requests cfg) < float_overflow)%Z ->
  exists r, run_checked sqrt cfg tr dur = Some (Ret r)
    /\ _calculate_stats sqrt (st_response_times st) (st_status_codes st)
         (st_errors st) (requests cfg) dur = Ret r.
Proof.
  intros Hi He Hd Hr. unfold run_checked. rewrite Hi, He, Hd.
  destruct (complete_schedule cfg tr st0 st Hi He Hd) as (A & _ & L & _).
  pose proof (length_replies_split (replies tr)) as Hsplit.
  rewrite _calculate_stats_checked_in_range.
  - destruct (_calculate_stats_total sqrt (st_response_times st) (st_status_codes st)
                (st_errors st) (requests cfg) dur) as (r & E & _).
    exists r. rewrite E. auto.
  - rewrite A. lia.
  - left. exact Hr.
Qed.

Lemma caught_as_class (c : httpx.exception) (message : string) :
  caught_as (HttpxException c message)
  = if existsb (httpx.eqb c) timeout_classes then TimeoutException
    else if httpx.eqb c httpx.ConnectError then ConnectError
    else OtherException message.
Proof. destruct c; reflexivity. Qed.

Lemma httpx_eqb_eq (c d : httpx.exception) : httpx.eqb c d = true <-> c = d.
Proof. split; [destruct c, d; (reflexivity || discriminate) | intros ->; destruct d; reflexivity]. Qed.

Lemma timeout_classes_In (c : httpx.exception) :
  existsb (httpx.eqb c) timeout_classes = true <-> In c timeout_classes.
Proof.
  rewrite existsb_exists. split.
  - intros (d & Hd & E). apply httpx_eqb_eq in E. subst d. exact Hd.
  - intros Hc. exists c. split; [exact Hc | apply httpx_eqb_eq; reflexivity].
Qed.

(** C6, as the claim states it, at a connection reset: the reset of a
    connection that is set up raises [httpx.ReadError], a
    [NetworkError] that is no [ConnectError]; the generic clause records
    it with its message, not as a connection error. *)
Lemma connection_reset_is_not_a_connection_error :
  httpx.issubclass (httpx_class_of ResetWhileReceiving) httpx.NetworkError = true
  /\ httpx.issubclass (httpx_class_of ResetWhileReceiving) httpx.ConnectError = false
  /\ exists r, run_checked (fun x => x) reset_config reset_schedule 1%Q = Some (Ret r)
       /\ failed r = 1%Z
       /\ errors r = ["Request 0: [Errno 104] Connection reset by peer"]
       /\ errors r <> ["Request 0: Connection error"].
Proof.
  split; [reflexivity|]. split; [reflexivity|].
  eexists. split; [vm_compute; reflexivity|]. simpl.
  split; [reflexivity|]. split; [reflexivity | discriminate].
Qed.

(** C6 (amended).  In a run that lets [gather] return, every request has
    exactly one outcome; the failed ones are each recorded once, in
    delivery order, and the reason is decided by the class of the
    exception: "Request i: Timeout" for [httpx.TimeoutException] and its
    four subclasses, "Request i: Connection error" for
    [httpx.ConnectError] alone, and "Request i: <message>" for every
    other exception.  So a timeout of any kind is a timeout; a name that
    does not resolve, a refused connection and a failed TLS handshake are
    connection errors; a reset or a close of a connection that was set up
    is recorded with its message.  A failing request is a step like any
    other: it appends its diagnostic, touches neither the elapsed times
    nor the histogram, and counts as completed.  With a number of
    requests that a float can hold, [run] then returns a result (it
    raises nothing), also when every request failed, in which case
    successful is 0, the success rate is 0 and every latency field is 0;
    and with at least one semaphore slot such a run exists for every
    choice of exceptions. *)
Theorem request_failures_recorded_never_abort (sqrt : Q -> Q) (cfg : Config)
    (tr : list event) (st0 st : RunState) (dur : Q) :
  init cfg = Ret st0 -> exec cfg tr st0 = Some st -> all_done st = true ->
  (Z.abs (requests cfg) < float_overflow)%Z ->
  (forall i, count_finish i tr = if decide (i < Z.to_nat (requests cfg)) then 1 else 0)
  /\ st_errors st = diagnostics (replies tr)
  /\ length (st_errors st) = count_failed (replies tr)
  /\ (forall i c message,
        (In c timeout_classes ->
           diagnostic i (caught_as (HttpxException c message))
           = "Request " +:+ pretty i +:+ ": Timeout")
        /\ (c = httpx.ConnectError ->
              diagnostic i (caught_as (HttpxException c message))
              = "Request " +:+ pretty i +:+ ": Connection error")
        /\ (~ In c timeout_classes -> c <> httpx.ConnectError ->
              diagnostic i (caught_as (HttpxException c message))
              = "Request " +:+ pretty i +:+ ": " +:+ message)
        /\ diagnostic i (caught_as (PythonException message))
           = "Request " +:+ pretty i +:+ ": " +:+ message)
  /\ (forall i f message,
        diagnostic i (caught_as (HttpxException (httpx_class_of f) message))
        = match f with
          | ConnectTimedOut | ReadTimedOut | WriteTimedOut | PoolTimedOut =>
            "Request " +:+ pretty i +:+ ": Timeout"
          | NameNotResolved | ConnectionRefused | TlsHandshakeFailed =>
            "Request " +:+ pretty i +:+ ": Connection error"
          | ResetWhileSending | ResetWhileReceiving | ClosedBeforeResponse =>
            "Request " +:+ pretty i +:+ ": " +:+ message
          end)
  /\ (forall st1 i e, st_tasks st1 !! i = Some InFlight ->
        exists st', step cfg st1 (Finish i (raises e)) = Some st'
          /\ st_errors st' = st_errors st1 ++ [diagnostic i (caught_as e)]
          /\ st_response_times st' = st_response_times st1
          /\ st_status_codes st' = st_status_codes st1
          /\ st_completed st' = (st_completed st1 + 1)%Z)
  /\ (exists r, run_checked sqrt cfg tr dur = Some (Ret r)
        /\ errors r = firstn 10 (st_errors st)
        /\ ((0 <= requests cfg)%Z -> failed r = Z.of_nat (count_failed (replies tr)))
        /\ (count_completed (replies tr) = 0 ->
              successful r = 0%Z /\ failed r = requests cfg
              /\ (success_rate r == 0)%Q
              /\ avg_response_time r = 0%Q /\ min_response_time r = 0%Q
              /\ max_response_time r = 0%Q /\ median_response_time r = 0%Q
              /\ stdev_response_time r = 0%Q
              /\ p95_response_time r = 0%Q /\ p99_response_time r = 0%Q))
  /\ (forall es, (1 <= concurrent cfg)%Z -> length es = Z.to_nat (requests cfg) ->
        exists r, run_checked sqrt cfg (serial_from 0 (map raises es)) dur = Some (Ret r)
          /\ successful r = 0%Z /\ failed r = requests cfg).
Proof.
  intros Hi Hx Hd Hrange.
  destruct (complete_schedule cfg tr st0 st Hi Hx Hd) as (A & B & C & _ & F).
  split; [exact F|]. split; [exact B|].
  split; [rewrite B; apply length_diagnostics|].
  split.
  { intros i c message. rewrite caught_as_class.
    pose proof (timeout_classes_In c) as Ht. pose proof (httpx_eqb_eq c httpx.ConnectError) as Hc.
    destruct (existsb (httpx.eqb c) timeout_classes) eqn:Et.
    - assert (In c timeout_classes) as Hin by (apply Ht; reflexivity).
      split; [reflexivity|]. split.
      + intros ->. vm_compute in Et. discriminate.
      + split; [intros Hn; contradiction | reflexivity].
    - assert (~ In c timeout_classes) as Hnin by (intros Hin; apply Ht in Hin; discriminate).
      split; [intros Hin; contradiction|].
      destruct (httpx.eqb c httpx.ConnectError) eqn:Ec.
      + split; [reflexivity|]. split; [|reflexivity].
        intros _ Hne. exfalso. apply Hne, Hc. reflexivity.
      + split; [|split; reflexivity].
        intros E. apply Hc in E. discriminate. }
  split; [intros i f message; destruct f; reflexivity|].
  split; [intros st1 i e; apply step_raised|]. split.
  - destruct (run_checked_complete sqrt cfg tr dur st0 st Hi Hx Hd Hrange) as (r & Hrun & E).
    exists r. split; [exact Hrun|].
    destruct (_calculate_stats_total sqrt (st_response_times st) (st_status_codes st)
                (st_errors st) (requests cfg) dur) as (r' & E' & _ & Hs & Hf & He & _).
    rewrite E in E'. injection E' as <-.
    pose proof (count_completed_failed (replies tr)) as Hsum.
    split; [exact He|]. split.
    + intros Hr. rewrite Hf, A, length_elapsed_times. lia.
    + intros H0. rewrite A, (no_completed_no_elapsed _ H0) in E.
      rewrite _calculate_stats_empty in E. injection E as <-. simpl.
      repeat split; try reflexivity; [lia | apply rate_of_zero].
  - intros es Hc Hn. unfold raises. rewrite <- (map_map caught_as Raised).
    destruct (serial_run cfg (map Raised (map caught_as es)) st0 Hi Hc) as (st' & Hx' & Hd' & R);
      [rewrite !length_map; exact Hn|].
    destruct (run_checked_complete sqrt cfg _ dur st0 st' Hi Hx' Hd' Hrange) as (r & Hrun & E).
    exists r. split; [exact Hrun|].
    destruct (complete_schedule cfg _ st0 st' Hi Hx' Hd') as (A' & _).
    destruct (_calculate_stats_total sqrt (st_response_times st') (st_status_codes st')
                (st_errors st') (requests cfg) dur) as (r' & E' & _ & Hs & Hf & _).
    rewrite E in E'. injection E' as <-.
    rewrite Hf, Hs, A', length_elapsed_times, R, count_completed_raised. split; [reflexivity | lia].
Qed.

Lemma request_failures_recorded_never_abort_witness :
  exists st0 st r,
    init failing_config = Ret st0 /\
    exec failing_config failing_schedule st0 = Some st /\
    all_done st = true /\
    run_checked (fun x => x) failing_config failing_schedule 1%Q = Some (Ret r) /\
    length (st_errors st) = 50 /\ successful r = 0%Z /\ failed r = 50%Z.
Proof.
  destruct (init failing_config) as [st0|e] eqn:Hi; [|vm_compute in Hi; discriminate].
  destruct (exec failing_config failing_schedule st0) as [st|] eqn:Hx;
    [|vm_compute in Hi; injection Hi as <-; vm_compute in Hx; discriminate].
  destruct (all_done st) eqn:Hd;
    [|vm_compute in Hi; injection Hi as <-; vm_compute in Hx; injection Hx as <-;
      vm_compute in Hd; discriminate].
  destruct (request_failures_recorded_never_abort (fun x => x) failing_config
              failing_schedule st0 st 1%Q Hi Hx Hd)
    as (_ & _ & L & _ & _ & _ & (r & Hrun & _ & _ & Z) & _); [reflexivity|].
  exists st0, st, r. split; [reflexivity|]. split; [exact Hx|]. split; [exact Hd|].
  split; [exact Hrun|]. split; [rewrite L; vm_compute; reflexivity|].
  destruct Z as (Z1 & Z2 & _); [vm_compute; reflexivity|].
  split; [exact Z1 | exact Z2].
Defined.

(** * Further properties of the runner *)

(** ** The status-code histogram *)

Lemma histogram_total_bump (m : gmap Z Z) (c : Z) :
  histogram_total (<[c := (default 0 (m !! c) + 1)%Z]> m) = (histogram_total m + 1)%Z.
Proof.
  unfold histogram_total.
  assert (forall (m' : gmap Z Z) (x : Z), m' !! c = None ->
            map_fold (fun _ v acc => (v + acc)%Z) 0%Z (<[c:=x]> m')
            = (x + map_fold (fun _ v acc => (v + acc)%Z) 0%Z m')%Z) as Hins.
  { intros m' x Hm'. apply (map_fold_insert_L (fun _ v acc => (v + acc)%Z));
      [intros; lia | exact Hm']. }
  destruct (m !! c) as [v|] eqn:E; simpl.
  - rewrite <- (insert_delete_eq m), Hins by apply lookup_delete_eq.
    rewrite <- (insert_delete_id m c v E) at 2.
    rewrite Hins by apply lookup_delete_eq. lia.
  - rewrite Hins by exact E. lia.
Qed.

Lemma step_finish_codes (cfg : Config) (st st' : RunState) (i : nat) (r : reply) :
  step cfg st (Finish i r) = Some st' ->
  histogram_total (st_status_codes st')
  = (histogram_total (st_status_codes st) + Z.of_nat (count_completed [(i, r)]))%Z
  /\ (forall c, default 0%Z (st_status_codes st' !! c)
        = (default 0%Z (st_status_codes st !! c) + Z.of_nat (count_code c [(i, r)]))%Z)
  /\ (forall c, st_status_codes st' !! c = None ->
        st_status_codes st !! c = None /\ count_code c [(i, r)] = 0).
Proof.
  unfold step. destruct (st_tasks st !! i) as [[| |]|]; try discriminate.
  intros H. injection H as <-. destruct r as [e c'|e]; simpl.
  - split; [rewrite histogram_total_bump; lia|]. split.
    + intros c. destruct (decide (c' = c)) as [->|Hne].
      * rewrite lookup_insert_eq. simpl. lia.
      * rewrite lookup_insert_ne by exact Hne. lia.
    + intros c. destruct (decide (c' = c)) as [->|Hne].
      * rewrite lookup_insert_eq. discriminate.
      * rewrite lookup_insert_ne by exact Hne. auto.
  - split; [lia|]. split; [intros c; lia | auto].
Qed.

Lemma step_acquire_codes (cfg : Config) (st st' : RunState) (i : nat) :
  step cfg st (Acquire i) = Some st' ->
  st_status_codes st' = st_status_codes st /\ st_progress st' = st_progress st.
Proof.
  unfold step. destruct (st_tasks st !! i) as [[| |]|]; try discriminate.
  destruct (0 <? st_sem st)%Z; [|discriminate].
  intros H. injection H as <-. simpl. auto.
Qed.

Lemma count_code_app (c : Z) (l1 l2 : list (nat * reply)) :
  count_code c (l1 ++ l2) = count_code c l1 + count_code c l2.
Proof.
  induction l1 as [|[i [e c'|e]] l1 IH]; simpl; [reflexivity| |]; lia.
Qed.

Lemma exec_histogram (cfg : Config) (tr : list event) (st st' : RunState) :
  exec cfg tr st = Some st' ->
  histogram_total (st_status_codes st')
  = (histogram_total (st_status_codes st) + Z.of_nat (count_completed (replies tr)))%Z
  /\ (forall c, default 0%Z (st_status_codes st' !! c)
        = (default 0%Z (st_status_codes st !! c) + Z.of_nat (count_code c (replies tr)))%Z)
  /\ (forall c, st_status_codes st' !! c = None ->
        st_status_codes st !! c = None /\ count_code c (replies tr) = 0).
Proof.
  revert st. induction tr as [|ev tr IH]; simpl; intros st H.
  - injection H as <-. split; [lia|]. split; [intros c; lia | auto].
  - destruct (step cfg st ev) as [st1|] eqn:E; [|discriminate].
    destruct (IH _ H) as (A & B & C). destruct ev as [i|i r].
    + apply step_acquire_codes in E as [E _]. rewrite <- E. auto.
    + apply step_finish_codes in E as (A1 & B1 & C1). split; [|split].
      * rewrite A, A1. simpl. destruct (carries_status_code r); lia.
      * intros c. rewrite B, B1. simpl.
        destruct r as [e c'|e]; simpl; [destruct (decide (c' = c))|]; lia.
      * intros c Hc. destruct (C c Hc) as [C2 C3]. destruct (C1 c C2) as [C4 C5].
        split; [exact C4|]. simpl in *.
        destruct r as [e c'|e]; simpl in *; [destruct (decide (c' = c))|]; lia.
Qed.

Lemma exec_histogram_positive (cfg : Config) (tr : list event) (st0 st : RunState) :
  exec cfg tr st0 = Some st ->
  (forall c v, st_status_codes st0 !! c = Some v -> (0 < v)%Z) ->
  forall c v, st_status_codes st !! c = Some v -> (0 < v)%Z.
Proof.
  revert st0. induction tr as [|ev tr IH]; simpl; intros st0 H Hp.
  - injection H as <-. exact Hp.
  - destruct (step cfg st0 ev) as [st1|] eqn:E; [|discriminate].
    apply (IH st1 H). intros c v Hv. destruct ev as [i|i r].
    + apply step_acquire_codes in E as [E _]. rewrite E in Hv. eauto.
    + unfold step in E. destruct (st_tasks st0 !! i) as [[| |]|]; try discriminate.
      injection E as <-. destruct r as [e c'|e]; simpl in Hv; [|eauto].
      destruct (decide (c' = c)) as [->|Hne].
      * rewrite lookup_insert_eq in Hv. injection Hv as <-.
        destruct (st_status_codes st0 !! c) as [w|] eqn:Ew; simpl; [|lia].
        specialize (Hp c w Ew). lia.
      * rewrite lookup_insert_ne in Hv by exact Hne. eauto.
Qed.

(** The histogram a schedule builds, entry by entry. *)
Lemma run_histogram_lookup (cfg : Config) (tr : list event) (st0 st : RunState) (c : Z) :
  init cfg = Ret st0 -> exec cfg tr st0 = Some st ->
  st_status_codes st !! c =
  if decide (count_code c (replies tr) = 0) then None
  else Some (Z.of_nat (count_code c (replies tr))).
Proof.
  intros Hi Hx.
  assert (st_status_codes st0 = ∅) as H0.
  { unfold init in Hi. destruct (concurrent cfg <? 0)%Z; [discriminate|].
    injection Hi as <-. reflexivity. }
  destruct (exec_histogram cfg tr st0 st Hx) as (_ & B & C).
  specialize (B c). rewrite H0, lookup_empty in B. simpl in B.
  destruct (st_status_codes st !! c) as [v|] eqn:Ev.
  - simpl in B. subst v.
    assert (0 < Z.of_nat (count_code c (replies tr)))%Z as Hpos.
    { apply (exec_histogram_positive cfg tr st0 st Hx) with (c := c); [|exact Ev].
      intros c' v' Hl. rewrite H0, lookup_empty in Hl. discriminate. }
    destruct (decide (count_code c (replies tr) = 0)); [lia | reflexivity].
  - destruct (C c Ev) as [_ Hz]. rewrite Hz. reflexivity.
Qed.

(** X1.  In the result of a run the histogram counts the completed
    requests and nothing else: the entry of a status code is the number of
    replies that came back with it, a code nobody answered has no entry,
    and the entries add up to [successful]. *)
Theorem histogram_counts_completed (sqrt : Q -> Q) (cfg : Config) (tr : list event)
    (dur : Q) (r : LoadTestResult) :
  run sqrt cfg tr dur = Some (Ret r) ->
  histogram_total (status_codes r) = successful r
  /\ (forall c, default 0%Z (status_codes r !! c) = Z.of_nat (count_code c (replies tr)))
  /\ (forall c, status_codes r !! c = None <-> count_code c (replies tr) = 0).
Proof.
  intros Hrun.
  destruct (run_result sqrt cfg tr dur r Hrun) as (st0 & st & Hi & Hx & _ & E).
  destruct (_calculate_stats_total sqrt (elapsed_times (replies tr))
              (st_status_codes st) (diagnostics (replies tr)) (requests cfg) dur)
    as (r' & E' & _ & Hs & _ & _ & Hc).
  rewrite E in E'. injection E' as <-.
  destruct (exec_histogram cfg tr st0 st Hx) as (A & _ & _).
  assert (st_status_codes st0 = ∅) as H0.
  { unfold init in Hi. destruct (concurrent cfg <? 0)%Z; [discriminate|].
    injection Hi as <-. reflexivity. }
  rewrite H0 in A. rewrite Hc, Hs, length_elapsed_times.
  split; [|split].
  - rewrite A. unfold histogram_total. rewrite map_fold_empty. lia.
  - intros c. rewrite (run_histogram_lookup cfg tr st0 st c Hi Hx).
    destruct (decide (count_code c (replies tr) = 0)) as [->|]; reflexivity.
  - intros c. rewrite (run_histogram_lookup cfg tr st0 st c Hi Hx).
    destruct (decide (count_code c (replies tr) = 0)); split; (done || lia).
Qed.

Lemma histogram_counts_completed_witness :
  exists r, run (fun x => x) sample_config sample_schedule 1%Q = Some (Ret r)
    /\ histogram_total (status_codes r) = 2%Z
    /\ default 0%Z (status_codes r !! 200%Z) = 1%Z.
Proof.
  destruct (run (fun x => x) sample_config sample_schedule 1%Q) as [[r|e]|] eqn:E;
    [|vm_compute in E; discriminate..].
  exists r. split; [reflexivity|].
  destruct (histogram_counts_completed _ _ _ _ r E) as (A & B & _).
  split.
  - rewrite A. vm_compute in E. injection E as <-. reflexivity.
  - rewrite (B 200%Z). reflexivity.
Defined.

(** ** The progress callback *)

Lemma step_finish_progress (cfg : Config) (st st' : RunState) (i : nat) (r : reply) :
  step cfg st (Finish i r) = Some st' ->
  st_progress st' = st_progress st ++
    (if has_progress_callback cfg then [(st_completed st + 1)%Z] else []).
Proof.
  unfold step. destruct (st_tasks st !! i) as [[| |]|]; try discriminate.
  intros H. injection H as <-.
  destruct r; simpl; destruct (has_progress_callback cfg); rewrite ?app_nil_r; reflexivity.
Qed.

Lemma exec_progress (cfg : Config) (tr : list event) (st st' : RunState) :
  exec cfg tr st = Some st' ->
  st_progress st' = st_progress st ++
    (if has_progress_callback cfg
     then List.map (fun j => (st_completed st + Z.of_nat j)%Z) (seq 1 (length (replies tr)))
     else []).
Proof.
  revert st. induction tr as [|ev tr IH]; simpl; intros st H.
  - injection H as <-. destruct (has_progress_callback cfg); rewrite app_nil_r; reflexivity.
  - destruct (step cfg st ev) as [st1|] eqn:E; [|discriminate].
    rewrite (IH _ H). destruct ev as [i|i r].
    + pose proof E as E'. apply step_acquire_codes in E as [_ ->].
      apply step_acquire_inv in E' as (_ & _ & _ & _ & _ & _ & -> & _). reflexivity.
    + rewrite (step_finish_progress _ _ _ _ _ E).
      apply step_finish_inv in E as (_ & _ & _ & _ & _ & -> & _).
      destruct (has_progress_callback cfg); [|rewrite !app_nil_r; reflexivity].
      rewrite <- app_assoc. f_equal. simpl. f_equal; try lia.
      rewrite <- (seq_shift (length (replies tr)) 1), List.map_map.
      apply List.map_ext. intros j. lia.
Qed.

(** X2.  When a callback is given it is called once per delivered reply,
    with 1, 2, 3, ... in that order, so its arguments never decrease; when
    [gather] returns it has been called exactly [requests] times and its
    last argument was [requests].  Without a callback nothing is called.
    [completed] always equals the number of replies delivered so far. *)
Theorem progress_callback_counts_up (cfg : Config) (tr : list event)
    (st0 st : RunState) :
  init cfg = Ret st0 -> exec cfg tr st0 = Some st ->
  st_completed st = Z.of_nat (length (replies tr))
  /\ st_progress st = (if has_progress_callback cfg
                       then counting_up (length (replies tr)) else [])
  /\ (all_done st = true -> has_progress_callback cfg = true ->
        st_progress st = counting_up (Z.to_nat (requests cfg))
        /\ ((0 < requests cfg)%Z -> last (st_progress st) = Some (requests cfg))).
Proof.
  intros Hi Hx.
  destruct (init_inv cfg st0 Hi) as (_ & _ & _ & _ & _ & Hc0 & _).
  assert (st_progress st0 = []) as Hp0.
  { unfold init in Hi. destruct (concurrent cfg <? 0)%Z; [discriminate|].
    injection Hi as <-. reflexivity. }
  destruct (exec_spec cfg tr st0 st Hx) as (_ & _ & C & _).
  pose proof (exec_progress cfg tr st0 st Hx) as P.
  rewrite Hp0, Hc0 in P. simpl in P.
  assert (st_progress st = (if has_progress_callback cfg
                            then counting_up (length (replies tr)) else [])) as P'.
  { rewrite P. destruct (has_progress_callback cfg); reflexivity. }
  split; [lia|]. split; [exact P'|].
  intros Hd Hcb.
  destruct (complete_schedule cfg tr st0 st Hi Hx Hd) as (_ & _ & Hn & _).
  rewrite P', Hcb, Hn. split; [reflexivity|].
  intros Hpos. unfold counting_up.
  destruct (Z.to_nat (requests cfg)) as [|n] eqn:En; [lia|].
  rewrite seq_S, List.map_app. cbn [List.map]. rewrite last_snoc. f_equal. lia.
Qed.

Lemma progress_callback_counts_up_witness :
  exists st0 st,
    init sample_config = Ret st0 /\
    exec sample_config sample_schedule st0 = Some st /\
    st_progress st = [1; 2; 3]%Z.
Proof.
  destruct (init sample_config) as [st0|e] eqn:Hi; [|vm_compute in Hi; discriminate].
  destruct (exec sample_config sample_schedule st0) as [st|] eqn:Hx;
    [|vm_compute in Hi; injection Hi as <-; vm_compute in Hx; discriminate].
  exists st0, st. split; [reflexivity|]. split; [exact Hx|].
  destruct (progress_callback_counts_up sample_config _ st0 st Hi Hx) as (_ & P & _).
  rewrite P. reflexivity.
Defined.

(** ** Runs that cannot start or cannot end *)

Lemma exec_nil_only (cfg : Config) (st0 : RunState) (tr : list event) (st : RunState) :
  (forall ev, step cfg st0 ev = None) -> exec cfg tr st0 = Some st -> tr = [] /\ st = st0.
Proof.
  intros Hno. destruct tr as [|ev tr]; simpl.
  - intros H. injection H as <-. auto.
  - rewrite Hno. discriminate.
Qed.

(** X3.  A semaphore cannot be built with a negative count: [run] raises
    [ValueError] before any request is sent.  Built with zero slots it
    lets nobody in: from the initial state no step is possible, and with
    at least one request to send [run] never returns. *)
Theorem semaphore_without_slots (sqrt : Q -> Q) (cfg : Config) (dur : Q) :
  ((concurrent cfg < 0)%Z ->
     forall tr, run sqrt cfg tr dur = Some (Raise ValueError))
  /\ (concurrent cfg = 0%Z ->
        (forall st0 ev, init cfg = Ret st0 -> step cfg st0 ev = None)
        /\ ((0 < requests cfg)%Z -> forall tr, run sqrt cfg tr dur = None)).
Proof.
  split.
  - intros Hneg tr. unfold run, init.
    replace (concurrent cfg <? 0)%Z with true by (symmetry; apply Z.ltb_lt; exact Hneg).
    reflexivity.
  - intros Hz.
    assert (forall st0 ev, init cfg = Ret st0 -> step cfg st0 ev = None) as Hno.
    { intros st0 ev Hi. unfold init in Hi. rewrite Hz in Hi. simpl in Hi.
      injection Hi as <-. destruct ev as [i|i r]; unfold step; simpl.
      - destruct (replicate (Z.to_nat (requests cfg)) Waiting !! i) as [[| |]|]; reflexivity.
      - destruct (replicate (Z.to_nat (requests cfg)) Waiting !! i) as [t|] eqn:E;
          [|reflexivity].
        apply lookup_replicate in E as [-> _]. reflexivity. }
    split; [exact Hno|].
    intros Hpos tr. unfold run.
    destruct (init cfg) as [st0|e] eqn:Hi.
    + destruct (exec cfg tr st0) as [st|] eqn:Hx; [|reflexivity].
      destruct (exec_nil_only cfg st0 tr st (fun ev => Hno st0 ev eq_refl) Hx) as [-> ->].
      destruct (init_inv cfg st0 Hi) as (_ & Ht & _).
      unfold all_done. rewrite Ht.
      destruct (Z.to_nat (requests cfg)) as [|n] eqn:En; [lia|]. reflexivity.
    + unfold init in Hi. rewrite Hz in Hi. discriminate.
Qed.

Lemma semaphore_without_slots_witness :
  run (fun x => x)
    {| url := "http://localhost/"; requests := 2; concurrent := 0;
       method := "GET"; headers := None; body := None;
       has_progress_callback := false |} [Acquire 0] 1%Q = None
  /\ run (fun x => x)
    {| url := "http://localhost/"; requests := 2; concurrent := -1;
       method := "GET"; headers := None; body := None;
       has_progress_callback := false |} [] 1%Q = Some (Raise ValueError).
Proof.
  split.
  - apply (proj2 (semaphore_without_slots _ _ _)); [reflexivity | reflexivity].
  - apply (proj1 (semaphore_without_slots _ _ _)). reflexivity.
Defined.

(** ** Rates of the result *)

Local Open Scope Q_scope.

Lemma _calculate_stats_rates (sqrt : Q -> Q) (l : list Q) (codes : gmap Z Z)
    (errs : list string) (total : Z) (dur : Q) :
  exists r, _calculate_stats sqrt l codes errs total dur = Ret r
    /\ success_rate r = rate_of (Z.of_nat (length l)) total
    /\ rps r = rps_of total dur
    /\ successful r = Z.of_nat (length l)
    /\ failed r = (total - Z.of_nat (length l))%Z
    /\ duration r = dur /\ total_requests r = total.
Proof.
  destruct l as [|x t] eqn:El.
  - rewrite _calculate_stats_empty. eexists. split; [reflexivity|]. simpl. tauto.
  - rewrite <- El.
    destruct (_calculate_stats_nonempty sqrt l codes errs total dur)
      as (avg & mn & mx & med & sd & _ & _ & _ & _ & _ & E); [congruence|].
    rewrite E. eexists. split; [reflexivity|]. simpl. tauto.
Qed.

Lemma rate_of_bounds (s t : Z) :
  (0 <= s <= t)%Z -> 0 <= rate_of s t /\ rate_of s t <= 100.
Proof.
  intros [Hs Ht]. unfold rate_of. destruct (t >? 0)%Z eqn:E; [|split; lra].
  apply Z.gtb_lt in E.
  assert (0 < inject_Z t) as Tp by (change 0 with (inject_Z 0); rewrite <- Zlt_Qlt; exact E).
  assert (0 <= inject_Z s) as Sp by (change 0 with (inject_Z 0); rewrite <- Zle_Qle; exact Hs).
  assert (inject_Z s <= inject_Z t) as St by (rewrite <- Zle_Qle; exact Ht).
  assert (0 <= inject_Z s / inject_Z t) as A by (apply Qle_shift_div_l; lra).
  assert (inject_Z s / inject_Z t <= 1) as B by (apply Qle_shift_div_r; lra).
  split; lra.
Qed.

Lemma rate_of_full (s t : Z) :
  (0 <= s <= t)%Z -> (rate_of s t == 100 <-> (0 < t)%Z /\ s = t).
Proof.
  intros [Hs Ht]. unfold rate_of. destruct (t >? 0)%Z eqn:E.
  - apply Z.gtb_lt in E.
    assert (0 < inject_Z t) as Tp by (change 0 with (inject_Z 0); rewrite <- Zlt_Qlt; exact E).
    split.
    + intros H. split; [exact E|].
      assert (inject_Z s / inject_Z t == 1) as H1 by lra.
      assert (inject_Z s == inject_Z t) as H2.
      { rewrite <- (Qmult_div_r (inject_Z s) (inject_Z t)) by lra. rewrite H1. ring. }
      exact (proj1 (inject_Z_injective _ _) H2).
    + intros [_ ->]. field. lra.
  - split; [intros H; lra|]. intros [Hp _]. rewrite Z.gtb_ltb in E. 
    apply Z.ltb_ge in E. lia.
Qed.

Lemma rate_of_none (s t : Z) :
  (0 <= s <= t)%Z -> (rate_of s t == 0 <-> s = 0%Z \/ (t <= 0)%Z).
Proof.
  intros [Hs Ht]. unfold rate_of. destruct (t >? 0)%Z eqn:E.
  - apply Z.gtb_lt in E.
    assert (0 < inject_Z t) as Tp by (change 0 with (inject_Z 0); rewrite <- Zlt_Qlt; exact E).
    split.
    + intros H. left.
      assert (inject_Z s / inject_Z t == 0) as H1 by lra.
      assert (inject_Z s == inject_Z 0) as H2.
      { rewrite <- (Qmult_div_r (inject_Z s) (inject_Z t)) by lra. rewrite H1.
        change (inject_Z 0) with 0. ring. }
      exact (proj1 (inject_Z_injective _ _) H2).
    + intros [->|H]; [|lia]. change (inject_Z 0) with 0. unfold Qdiv. ring.
  - split; [|reflexivity]. intros _. right.
    rewrite Z.gtb_ltb in E. apply Z.ltb_ge in E. exact E.
Qed.

(** X4.  In the result of a run the success rate lies between 0 and 100;
    it is 100 exactly when at least one request was asked for and none
    failed, and 0 exactly when no request completed. *)
Theorem success_rate_of_a_run (sqrt : Q -> Q) (cfg : Config) (tr : list event)
    (dur : Q) (r : LoadTestResult) :
  run sqrt cfg tr dur = Some (Ret r) ->
  0 <= success_rate r /\ success_rate r <= 100
  /\ (success_rate r == 100 <-> (0 < requests cfg)%Z /\ failed r = 0%Z)
  /\ (success_rate r == 0 <-> successful r = 0%Z).
Proof.
  intros Hrun.
  destruct (run_result sqrt cfg tr dur r Hrun) as (st0 & st & Hi & Hx & Hd & E).
  destruct (complete_schedule cfg tr st0 st Hi Hx Hd) as (_ & _ & Hn & _).
  destruct (_calculate_stats_rates sqrt (elapsed_times (replies tr))
              (st_status_codes st) (diagnostics (replies tr)) (requests cfg) dur)
    as (r' & E' & Hrate & _ & Hs & Hf & _).
  rewrite E in E'. injection E' as <-.
  pose proof (count_completed_failed (replies tr)) as Hsum.
  rewrite length_elapsed_times in *.
  set (s := count_completed (replies tr)) in *.
  destruct (Z_lt_le_dec 0 (requests cfg)) as [Hpos|Hneg].
  - assert (0 <= Z.of_nat s <= requests cfg)%Z as Hb by lia.
    rewrite Hrate, Hs, Hf.
    destruct (rate_of_bounds _ _ Hb) as [B1 B2].
    split; [exact B1|]. split; [exact B2|]. split.
    + rewrite (rate_of_full _ _ Hb). split; intros [A B]; split; lia.
    + rewrite (rate_of_none _ _ Hb). split; [intros [A|A]; lia | intros A; left; exact A].
  - assert (s = 0%nat) as Hs0 by lia.
    rewrite Hrate, Hs, Hf, Hs0. unfold rate_of.
    replace (requests cfg >? 0)%Z with false by (symmetry; rewrite Z.gtb_ltb; apply Z.ltb_ge; lia).
    split; [lra|]. split; [lra|]. split.
    + split; [intros H; lra | intros [A _]; lia].
    + split; reflexivity.
Qed.

Lemma success_rate_of_a_run_witness :
  exists r, run (fun x => x) sample_config sample_schedule 1 = Some (Ret r)
    /\ 0 <= success_rate r /\ success_rate r <= 100.
Proof.
  destruct (run (fun x => x) sample_config sample_schedule 1) as [[r|e]|] eqn:E;
    [|vm_compute in E; discriminate..].
  exists r. split; [reflexivity|].
  destruct (success_rate_of_a_run _ _ _ _ r E) as (A & B & _).
  split; [exact A | exact B].
Defined.

(** X5.  Asked for zero or fewer requests (with a valid semaphore), [run]
    sends nothing: the only schedule is the empty one.  When [requests]
    converts to a float (it is above [-(2^1024 - 2^970)]) or the measured
    duration is not positive, [run] returns at once with
    [successful = 0], [failed = requests] (so a negative count when
    [requests] is negative), a success rate of 0, an empty histogram, no
    errors and all latency fields 0.  With [requests] at or below that
    bound and a positive duration, [requests / duration] raises
    [OverflowError] and so does [run]. *)
Theorem run_without_requests (sqrt : Q -> Q) (cfg : Config) (dur : Q) :
  (requests cfg <= 0)%Z -> (0 <= concurrent cfg)%Z ->
  (forall tr res, run_checked sqrt cfg tr dur = Some res -> tr = [])
  /\ ((- float_overflow < requests cfg)%Z \/ dur <= 0 ->
        exists r, run_checked sqrt cfg [] dur = Some (Ret r)
          /\ total_requests r = requests cfg
          /\ successful r = 0%Z /\ failed r = requests cfg
          /\ success_rate r = 0 /\ rps r = rps_of (requests cfg) dur
          /\ status_codes r = ∅ /\ errors r = []
          /\ avg_response_time r = 0 /\ min_response_time r = 0
          /\ max_response_time r = 0 /\ median_response_time r = 0
          /\ stdev_response_time r = 0
          /\ p95_response_time r = 0 /\ p99_response_time r = 0)
  /\ ((requests cfg <= - float_overflow)%Z -> 0 < dur ->
        run_checked sqrt cfg [] dur = Some (Raise OverflowError)).
Proof.
  intros Hreq Hconc.
  assert (Z.to_nat (requests cfg) = 0%nat) as Hn by lia.
  assert (init cfg = Ret {| st_response_times := []; st_status_codes := ∅;
                            st_errors := []; st_completed := 0;
                            st_sem := concurrent cfg; st_tasks := [];
                            st_calls := []; st_progress := [] |}) as Hi.
  { unfold init. rewrite Hn.
    replace (concurrent cfg <? 0)%Z with false by (symmetry; apply Z.ltb_ge; exact Hconc).
    reflexivity. }
  split; [|split].
  - intros tr res. unfold run_checked. rewrite Hi.
    destruct tr as [|ev tr]; [reflexivity|]. simpl.
    destruct ev as [i|i r]; unfold step; simpl; discriminate.
  - intros Hr. unfold run_checked. rewrite Hi. simpl.
    rewrite _calculate_stats_checked_empty by (destruct Hr; [left; lia | right; assumption]).
    eexists. split; [reflexivity|]. simpl.
    unfold rate_of.
    replace (requests cfg >? 0)%Z with false by (symmetry; rewrite Z.gtb_ltb; apply Z.ltb_ge; lia).
    repeat split; try reflexivity. lia.
  - intros Hr Hd. unfold run_checked. rewrite Hi. simpl.
    rewrite _calculate_stats_checked_overflow; [reflexivity | lia | exact Hd].
Qed.

Lemma run_without_requests_witness :
  (exists r, run_checked (fun x => x)
      {| url := "http://localhost/"; requests := -3; concurrent := 2;
         method := "GET"; headers := None; body := None;
         has_progress_callback := false |} [] 1 = Some (Ret r)
    /\ failed r = (-3)%Z /\ success_rate r = 0)
  /\ run_checked (fun x => x)
       {| url := "http://localhost/"; requests := - 2 ^ 1024; concurrent := 2;
          method := "GET"; headers := None; body := None;
          has_progress_callback := false |} [] 1 = Some (Raise OverflowError).
Proof.
  split.
  - destruct (run_without_requests (fun x => x)
        {| url := "http://localhost/"; requests := -3; concurrent := 2;
           method := "GET"; headers := None; body := None;
           has_progress_callback := false |} 1) as (_ & H & _);
      [simpl; lia | simpl; lia |].
    destruct H as (r & E & _ & _ & F & R & _); [left; reflexivity|].
    exists r. split; [exact E|]. split; [exact F | exact R].
  - apply (run_without_requests (fun x => x)
        {| url := "http://localhost/"; requests := - 2 ^ 1024; concurrent := 2;
           method := "GET"; headers := None; body := None;
           has_progress_callback := false |} 1);
      [vm_compute; discriminate | simpl; lia | vm_compute; discriminate | reflexivity].
Defined.

Local Close Scope Q_scope.

(** * Further properties of the reducer *)

Local Open Scope Q_scope.

(** ** [_percentile] over the whole range of percentiles *)

Lemma frac_index_zero (n : nat) : frac_index n 0 == 0.
Proof. unfold frac_index. change (inject_Z 0) with 0. unfold Qdiv. ring. Qed.

Lemma frac_index_hundred (n : nat) : frac_index n 100 == inject_Z (Z.of_nat n - 1).
Proof. unfold frac_index. change (inject_Z 100) with 100. field. Qed.

(** X6.  On ascending data and for a percentile between 0 and 100,
    [_percentile] returns a value between the first and the last element;
    percentile 0 is the first element and percentile 100 the last. *)
Theorem percentile_within_data (sorted_data : list Q) (p : Z) :
  sorted_data <> [] -> ascending sorted_data -> (0 <= p <= 100)%Z ->
  exists v, _percentile sorted_data p = Ret v
    /\ at_rank sorted_data 0 <= v
    /\ v <= at_rank sorted_data (Z.of_nat (length sorted_data) - 1)
    /\ (p = 0%Z -> v == at_rank sorted_data 0)
    /\ (p = 100%Z -> v == at_rank sorted_data (Z.of_nat (length sorted_data) - 1)).
Proof.
  intros Hl Hs Hp.
  assert (0 < length sorted_data)%nat as Hn
    by (destruct sorted_data; [congruence | simpl; lia]).
  destruct (frac_index_bounds _ p Hn Hp) as [A B].
  exists (interp sorted_data (frac_index (length sorted_data) p)).
  split; [apply _percentile_interp; assumption|].
  pose proof (interp_at_rank sorted_data 0 ltac:(lia)) as E0.
  pose proof (interp_at_rank sorted_data (Z.of_nat (length sorted_data) - 1) ltac:(lia)) as E1.
  split; [|split; [|split]].
  - rewrite <- E0. apply interp_mono; [exact Hs | apply Qle_refl | exact A | exact B].
  - rewrite <- E1. apply interp_mono; [exact Hs | exact A | exact B | apply Qle_refl].
  - intros ->. rewrite <- E0. apply interp_comp, frac_index_zero.
  - intros ->. rewrite <- E1. apply interp_comp, frac_index_hundred.
Qed.

Lemma percentile_within_data_witness :
  exists v, _percentile [100; 250; 1000] 100 = Ret v /\ v == 1000.
Proof.
  destruct (percentile_within_data [100; 250; 1000] 100) as (v & E & _ & _ & _ & H);
    [discriminate | repeat constructor; discriminate | lia |].
  exists v. split; [exact E|]. rewrite (H eq_refl). reflexivity.
Defined.

(** X7.  On ascending data [_percentile] is monotone in the percentile:
    for [0 <= p <= q <= 100] the value at [p] is at most the value at [q]. *)
Theorem percentile_monotone (sorted_data : list Q) (p q : Z) :
  sorted_data <> [] -> ascending sorted_data -> (0 <= p)%Z -> (p <= q)%Z -> (q <= 100)%Z ->
  exists v w, _percentile sorted_data p = Ret v /\ _percentile sorted_data q = Ret w
    /\ v <= w.
Proof.
  intros Hl Hs Hp Hpq Hq.
  assert (0 < length sorted_data)%nat as Hn
    by (destruct sorted_data; [congruence | simpl; lia]).
  destruct (frac_index_bounds _ p Hn ltac:(lia)) as [A _].
  destruct (frac_index_bounds _ q Hn ltac:(lia)) as [_ B].
  do 2 eexists. rewrite !_percentile_interp by (assumption || lia).
  split; [reflexivity|]. split; [reflexivity|].
  apply interp_mono; [exact Hs | exact A | apply frac_index_mono; assumption | exact B].
Qed.

Lemma percentile_monotone_witness :
  exists v w, _percentile [100; 250; 1000] 50 = Ret v
    /\ _percentile [100; 250; 1000] 95 = Ret w /\ v <= w.
Proof.
  apply (percentile_monotone [100; 250; 1000] 50 95);
    [discriminate | repeat constructor; discriminate | lia | lia | lia].
Defined.

Lemma py_index_beyond (l : list Q) (i : Z) :
  (Z.of_nat (length l) <= i)%Z -> py_index l i = Raise IndexError.
Proof.
  intros Hi. unfold py_index.
  replace (i <? Z.of_nat (length l))%Z with false by (symmetry; apply Z.ltb_ge; exact Hi).
  rewrite andb_false_r.
  replace (i <? 0)%Z with false by (symmetry; apply Z.ltb_ge; lia).
  rewrite andb_false_r. reflexivity.
Qed.

Lemma frac_index_floor_div (n : nat) (p : Z) :
  (0 < n)%nat -> (0 <= p)%Z ->
  py_int (frac_index n p) = ((Z.of_nat n - 1) * p / 100)%Z.
Proof.
  intros Hn Hp.
  assert (frac_index n p == inject_Z ((Z.of_nat n - 1) * p) / inject_Z 100) as E.
  { unfold frac_index. rewrite inject_Z_mult. change (inject_Z 100) with 100. field. }
  assert (0 <= frac_index n p) as H0.
  { rewrite E. apply Qle_shift_div_l; [reflexivity|].
    rewrite Qmult_0_l. change 0 with (inject_Z 0). rewrite <- Zle_Qle. nia. }
  rewrite (py_int_floor _ H0), (Qfloor_comp _ _ E), <- Zdiv_Qdiv. reflexivity.
Qed.

(** X8.  Over exact rationals, and for a percentile inside the range of
    a float.  Above 100 the percentile is not rejected: with [n] elements
    and [n * p] below [2^1000] it returns the last element as long as
    [(n-1) * p < 100 * n], and raises [IndexError] from there on.  A
    single element is returned for every percentile of either sign whose
    hundredth is a float, that is of a magnitude below
    [100 * (2^1024 - 2^970)].  Beyond the range [percentile / 100]
    raises [OverflowError], as it does on binary64 numbers at
    [percentile = 10^400] for one element and for two. *)
Theorem percentile_above_hundred (sorted_data : list Q) (p : Z) :
  ((Z.abs p < 100 * float_overflow)%Z -> forall x, _percentile [x] p = Ret x)
  /\ (sorted_data <> [] -> (100 <= p)%Z ->
      (Z.of_nat (length sorted_data) * p < 2 ^ 1000)%Z ->
        _percentile sorted_data p =
        if ((Z.of_nat (length sorted_data) - 1) * p <? 100 * Z.of_nat (length sorted_data))%Z
        then Ret (at_rank sorted_data (Z.of_nat (length sorted_data) - 1))
        else Raise IndexError)
  /\ _percentile_binary64 [5%float] (10 ^ 400) = Raise OverflowError
  /\ _percentile_binary64 [5%float; 6%float] (10 ^ 400) = Raise OverflowError.
Proof.
  split; [|split; [|split; vm_compute; reflexivity]].
  - intros _ x. unfold _percentile, py_int. simpl. rewrite Z.quot_0_l; [reflexivity|].
    discriminate.
  - intros Hl Hp _.
    assert (0 < length sorted_data)%nat as Hn
      by (destruct sorted_data; [congruence | simpl; lia]).
    pose proof (frac_index_floor_div (length sorted_data) p Hn ltac:(lia)) as Hf.
    unfold _percentile. destruct sorted_data as [|x t] eqn:El; [congruence|].
    rewrite <- El in *. fold (frac_index (length sorted_data) p). rewrite Hf.
    set (n := Z.of_nat (length sorted_data)) in *.
    assert (0 < n)%Z as Hnz by lia.
    assert (n - 1 <= (n - 1) * p / 100)%Z as Hlo
      by (apply Z.div_le_lower_bound; nia).
    replace ((n - 1) * p / 100 + 1 <? n)%Z with false by (symmetry; apply Z.ltb_ge; lia).
    rewrite Z.eqb_refl.
    destruct ((n - 1) * p <? 100 * n)%Z eqn:Hc.
    + apply Z.ltb_lt in Hc.
      assert ((n - 1) * p / 100 < n)%Z as Hhi by (apply Z.div_lt_upper_bound; lia).
      replace ((n - 1) * p / 100)%Z with (n - 1)%Z by lia.
      apply py_index_in_range. lia.
    + apply Z.ltb_ge in Hc. apply py_index_beyond.
      apply Z.div_le_lower_bound; lia.
Qed.

Lemma percentile_above_hundred_witness :
  _percentile [250] (-7) = Ret 250
  /\ _percentile [100; 250; 1000] 149 = Ret 1000
  /\ _percentile [100; 250; 1000] 150 = Raise IndexError.
Proof.
  split; [|split].
  - apply (proj1 (percentile_above_hundred [] (-7))). reflexivity.
  - rewrite (proj1 (proj2 (percentile_above_hundred [100; 250; 1000] 149)));
      [reflexivity | discriminate | lia | reflexivity].
  - rewrite (proj1 (proj2 (percentile_above_hundred [100; 250; 1000] 150)));
      [reflexivity | discriminate | lia | reflexivity].
Defined.

Local Close Scope Q_scope.

Local Open Scope Q_scope.

(** ** Extremes, mean and percentiles of one sample *)

Lemma fold_min_spec (t : list Q) (x : Q) :
  let m := fold_left (fun m y => if Qlt_le_dec y m then y else m) t x in
  m <= x /\ Forall (fun y => m <= y) t /\ In m (x :: t).
Proof.
  revert x. induction t as [|y t IH]; intros x; simpl.
  - split; [apply Qle_refl|]. split; [constructor | left; reflexivity].
  - destruct (Qlt_le_dec y x) as [H|H].
    + destruct (IH y) as (A & B & C). split; [lra|]. split.
      * constructor; [exact A | exact B].
      * destruct C as [C|C]; [right; left; exact C | right; right; exact C].
    + destruct (IH x) as (A & B & C). split; [exact A|]. split.
      * constructor; [lra | exact B].
      * destruct C as [C|C]; [left; exact C | right; right; exact C].
Qed.

Lemma fold_max_spec (t : list Q) (x : Q) :
  let m := fold_left (fun m y => if Qlt_le_dec m y then y else m) t x in
  x <= m /\ Forall (fun y => y <= m) t /\ In m (x :: t).
Proof.
  revert x. induction t as [|y t IH]; intros x; simpl.
  - split; [apply Qle_refl|]. split; [constructor | left; reflexivity].
  - destruct (Qlt_le_dec x y) as [H|H].
    + destruct (IH y) as (A & B & C). split; [lra|]. split.
      * constructor; [exact A | exact B].
      * destruct C as [C|C]; [right; left; exact C | right; right; exact C].
    + destruct (IH x) as (A & B & C). split; [exact A|]. split.
      * constructor; [lra | exact B].
      * destruct C as [C|C]; [left; exact C | right; right; exact C].
Qed.

Lemma py_min_spec (l : list Q) :
  l <> [] -> exists m, py_min l = Ret m /\ Forall (fun y => m <= y) l /\ In m l.
Proof.
  destruct l as [|x t]; [congruence|]. intros _.
  destruct (fold_min_spec t x) as (A & B & C).
  eexists. split; [reflexivity|]. split; [constructor; assumption | exact C].
Qed.

Lemma py_max_spec (l : list Q) :
  l <> [] -> exists m, py_max l = Ret m /\ Forall (fun y => y <= m) l /\ In m l.
Proof.
  destruct l as [|x t]; [congruence|]. intros _.
  destruct (fold_max_spec t x) as (A & B & C).
  eexists. split; [reflexivity|]. split; [constructor; assumption | exact C].
Qed.

Lemma Qsum_lower (l : list Q) (m : Q) :
  Forall (fun y => m <= y) l -> m * inject_Z (Z.of_nat (length l)) <= Qsum l.
Proof.
  induction 1 as [|x t Hx _ IH].
  - change (inject_Z (Z.of_nat (length (@nil Q)))) with 0. change (Qsum []) with 0. lra.
  - change (Qsum (x :: t)) with (x + Qsum t).
    change (length (x :: t)) with (S (length t)).
    rewrite Nat2Z.inj_succ. unfold Z.succ. rewrite inject_Z_plus.
    change (inject_Z 1) with 1.
    set (N := inject_Z (Z.of_nat (length t))) in *.
    rewrite Qmult_plus_distr_r, Qmult_1_r. lra.
Qed.

Lemma Qsum_upper (l : list Q) (m : Q) :
  Forall (fun y => y <= m) l -> Qsum l <= m * inject_Z (Z.of_nat (length l)).
Proof.
  induction 1 as [|x t Hx _ IH].
  - change (inject_Z (Z.of_nat (length (@nil Q)))) with 0. change (Qsum []) with 0. lra.
  - change (Qsum (x :: t)) with (x + Qsum t).
    change (length (x :: t)) with (S (length t)).
    rewrite Nat2Z.inj_succ. unfold Z.succ. rewrite inject_Z_plus.
    change (inject_Z 1) with 1.
    set (N := inject_Z (Z.of_nat (length t))) in *.
    rewrite Qmult_plus_distr_r, Qmult_1_r. lra.
Qed.

Lemma at_rank_Forall (P : Q -> Prop) (l : list Q) (i : Z) :
  Forall P l -> (0 <= i < Z.of_nat (length l))%Z -> P (at_rank l i).
Proof.
  intros Hall Hi. unfold at_rank.
  rewrite List.Forall_forall in Hall. apply Hall, nth_In. lia.
Qed.

(** X9.  For every non-empty sample the reducer's result satisfies
    min <= avg <= max and min <= median <= p95 <= p99 <= max, and its min
    and max are elements of the sample. *)
Theorem latency_fields_between_extremes (sqrt : Q -> Q) (response_times : list Q)
    (codes : gmap Z Z) (errs : list string) (total : Z) (dur : Q) :
  response_times <> [] ->
  exists r, _calculate_stats sqrt response_times codes errs total dur = Ret r
    /\ In (min_response_time r) response_times
    /\ In (max_response_time r) response_times
    /\ min_response_time r <= avg_response_time r
    /\ avg_response_time r <= max_response_time r
    /\ min_response_time r <= median_response_time r
    /\ median_response_time r <= p95_response_time r
    /\ p95_response_time r <= p99_response_time r
    /\ p99_response_time r <= max_response_time r.
Proof.
  intros Hl.
  assert (0 < length response_times)%nat as Hn
    by (destruct response_times; [congruence | simpl; lia]).
  destruct (_calculate_stats_nonempty sqrt response_times codes errs total dur Hl)
    as (avg & mn & mx & med & sd & Havg & Hmn & Hmx & Hmed & _ & E).
  destruct (py_min_spec response_times Hl) as (mn' & Hmn' & Lo & InMn).
  destruct (py_max_spec response_times Hl) as (mx' & Hmx' & Hi & InMx).
  rewrite Hmn in Hmn'. injection Hmn' as <-.
  rewrite Hmx in Hmx'. injection Hmx' as <-.
  destruct (median_interp response_times Hl) as (m & Hm & Em).
  rewrite Hmed in Hm. injection Hm as <-.
  pose proof (sorted_ascending response_times) as Hs.
  pose proof (length_sorted response_times) as Ls.
  pose proof (Forall_sorted _ _ Lo) as SLo.
  pose proof (Forall_sorted _ _ Hi) as SHi.
  destruct (frac_index_bounds _ 50 Hn ltac:(lia)) as [A50 B50].
  destruct (frac_index_bounds _ 95 Hn ltac:(lia)) as [A95 B95].
  destruct (frac_index_bounds _ 99 Hn ltac:(lia)) as [A99 B99].
  pose proof (frac_index_mono _ 50 95 Hn ltac:(lia)) as M1.
  pose proof (frac_index_mono _ 95 99 Hn ltac:(lia)) as M2.
  assert (forall k, 0 <= k -> k <= inject_Z (Z.of_nat (length response_times) - 1) ->
            mn <= interp (sorted response_times) k
            /\ interp (sorted response_times) k <= mx) as Hbetween.
  { intros k K0 K1. rewrite <- Ls in K1.
    destruct (interp_between _ k Hs K0 K1) as [L U].
    assert (0 <= Qfloor k)%Z as F0 by (apply Qfloor_resp_le in K0; exact K0).
    assert (Qfloor k <= Z.of_nat (length (sorted response_times)) - 1)%Z as F1
      by (apply Qfloor_resp_le in K1; rewrite Qfloor_Z in K1; exact K1).
    pose proof (at_rank_Forall _ _ (Qfloor k) SLo ltac:(lia)) as P1.
    pose proof (at_rank_Forall _ _
                  (Z.min (Qfloor k + 1) (Z.of_nat (length (sorted response_times)) - 1))
                  SHi ltac:(lia)) as P2.
    simpl in P1, P2. split; lra. }
  assert (avg == Qsum response_times / inject_Z (Z.of_nat (length response_times))) as Eavg.
  { destruct response_times; [congruence|]. simpl in Havg. injection Havg as <-. reflexivity. }
  assert (0 < inject_Z (Z.of_nat (length response_times))) as Np.
  { change 0 with (inject_Z 0). rewrite <- Zlt_Qlt. lia. }
  eexists. split; [exact E|]. simpl.
  split; [exact InMn|]. split; [exact InMx|].
  split; [rewrite Eavg; apply Qle_shift_div_l; [exact Np | apply Qsum_lower; exact Lo]|].
  split; [rewrite Eavg; apply Qle_shift_div_r; [exact Np | apply Qsum_upper; exact Hi]|].
  split; [rewrite Em; apply Hbetween; lra|].
  split; [rewrite Em; apply interp_mono; [exact Hs | exact A50 | exact M1 | rewrite Ls; lra]|].
  split; [apply interp_mono; [exact Hs | exact A95 | exact M2 | rewrite Ls; exact B99]|].
  apply Hbetween; lra.
Qed.

Lemma latency_fields_between_extremes_witness :
  exists r, _calculate_stats (fun x => x) [300; 100; 200] ∅ [] 3 1 = Ret r
    /\ min_response_time r <= avg_response_time r
    /\ p99_response_time r <= max_response_time r.
Proof.
  destruct (latency_fields_between_extremes (fun x => x) [300; 100; 200] ∅ [] 3 1)
    as (r & E & _ & _ & A & _ & _ & _ & _ & B); [discriminate|].
  exists r. split; [exact E|]. split; [exact A | exact B].
Defined.

Local Close Scope Q_scope.

(** ** The order of the sample does not matter *)

Lemma insert_sorted_perm (x : Q) (l : list Q) : Permutation (x :: l) (insert_sorted x l).
Proof.
  induction l as [|y t IH]; simpl; [reflexivity|].
  destruct (Qle_bool y x); [|reflexivity].
  rewrite perm_swap. apply perm_skip, IH.
Qed.

Lemma sorted_perm (l : list Q) : Permutation l (sorted l).
Proof.
  induction l as [|x t IH]; simpl; [reflexivity|].
  rewrite <- insert_sorted_perm. apply perm_skip, IH.
Qed.

Lemma count_below_perm (v : Q) (l1 l2 : list Q) :
  Permutation l1 l2 -> count_below v l1 = count_below v l2.
Proof.
  induction 1 as [|x l1 l2 _ IH|x y l|l1 l2 l3 _ IH1 _ IH2]; simpl; lia.
Qed.

Lemma count_below_none (v : Q) (l : list Q) :
  Forall (fun y => (v <= y)%Q) l -> count_below v l = 0.
Proof.
  induction 1 as [|y t Hy _ IH]; simpl; [reflexivity|].
  destruct (Qlt_le_dec y v) as [H|H]; [lra | exact IH].
Qed.

Lemma count_below_at_most (s : list Q) (i : nat) :
  ascending s -> i < length s -> count_below (nth i s 0%Q) s <= i.
Proof.
  unfold ascending. intros Hs. revert i.
  induction Hs as [|x t Hs IH Hall]; intros i Hi; simpl in Hi; [lia|].
  destruct i as [|i]; simpl.
  - destruct (Qlt_le_dec x x) as [H|H]; [lra|].
    rewrite count_below_none by exact Hall. lia.
  - specialize (IH i ltac:(lia)). destruct (Qlt_le_dec x (nth i t 0%Q)); lia.
Qed.

Lemma count_below_at_least (s : list Q) (i : nat) (v : Q) :
  ascending s -> i < length s -> (nth i s 0 < v)%Q -> i < count_below v s.
Proof.
  unfold ascending. intros Hs. revert i.
  induction Hs as [|x t Hs IH Hall]; intros i Hi Hv; simpl in Hi; [lia|].
  destruct i as [|i]; simpl in *.
  - destruct (Qlt_le_dec x v) as [H|H]; [lia | lra].
  - specialize (IH i ltac:(lia) Hv).
    assert (x <= nth i t 0)%Q as Hx
      by (rewrite List.Forall_forall in Hall; apply Hall, nth_In; lia).
    destruct (Qlt_le_dec x v) as [H|H]; [lia | lra].
Qed.

(** Two ascending lists with the same elements agree rank by rank. *)
Lemma ascending_perm_nth (s1 s2 : list Q) (i : nat) :
  ascending s1 -> ascending s2 -> Permutation s1 s2 -> i < length s1 ->
  (nth i s1 0 == nth i s2 0)%Q.
Proof.
  intros H1 H2 Hp Hi.
  assert (i < length s2) as Hi2 by (rewrite <- (Permutation_length Hp); exact Hi).
  destruct (Qlt_le_dec (nth i s1 0%Q) (nth i s2 0%Q)) as [L|L].
  - pose proof (count_below_at_least s1 i _ H1 Hi L) as A.
    pose proof (count_below_at_most s2 i H2 Hi2) as B.
    rewrite (count_below_perm _ _ _ Hp) in A. lia.
  - destruct (Qlt_le_dec (nth i s2 0%Q) (nth i s1 0%Q)) as [R|R]; [|lra].
    pose proof (count_below_at_least s2 i _ H2 Hi2 R) as A.
    pose proof (count_below_at_most s1 i H1 Hi) as B.
    rewrite <- (count_below_perm _ _ _ Hp) in A. lia.
Qed.

Lemma sorted_perm_at_rank (l1 l2 : list Q) (i : Z) :
  Permutation l1 l2 -> (0 <= i < Z.of_nat (length l1))%Z ->
  (at_rank (sorted l1) i == at_rank (sorted l2) i)%Q.
Proof.
  intros Hp Hi. unfold at_rank. apply ascending_perm_nth.
  - apply sorted_ascending.
  - apply sorted_ascending.
  - rewrite <- (sorted_perm l1), <- (sorted_perm l2). exact Hp.
  - rewrite length_sorted. lia.
Qed.

Lemma interp_pointwise (s1 s2 : list Q) (k : Q) :
  length s1 = length s2 ->
  (forall i, (0 <= i < Z.of_nat (length s1))%Z -> (at_rank s1 i == at_rank s2 i)%Q) ->
  (0 <= k)%Q -> (k <= inject_Z (Z.of_nat (length s1) - 1))%Q ->
  (interp s1 k == interp s2 k)%Q.
Proof.
  intros Hlen Hpt K0 K1.
  assert (0 <= Qfloor k)%Z as F0 by (apply Qfloor_resp_le in K0; exact K0).
  assert (Qfloor k <= Z.of_nat (length s1) - 1)%Z as F1
    by (apply Qfloor_resp_le in K1; rewrite Qfloor_Z in K1; exact K1).
  unfold interp. rewrite <- Hlen.
  destruct (Qfloor k + 1 <? Z.of_nat (length s1))%Z eqn:Hc.
  - apply Z.ltb_lt in Hc. rewrite !Hpt by lia. reflexivity.
  - apply Hpt. lia.
Qed.

Lemma Qsum_perm (l1 l2 : list Q) : Permutation l1 l2 -> (Qsum l1 == Qsum l2)%Q.
Proof.
  unfold Qsum.
  induction 1 as [|x l1 l2 _ IH|x y l|l1 l2 l3 _ IH1 _ IH2]; simpl.
  - reflexivity.
  - rewrite IH. reflexivity.
  - ring.
  - rewrite IH1. exact IH2.
Qed.

Lemma Qsum_map_ext (f g : Q -> Q) (l : list Q) :
  (forall x, f x == g x)%Q -> (Qsum (List.map f l) == Qsum (List.map g l))%Q.
Proof.
  intros Hfg. unfold Qsum. induction l as [|x t IH]; simpl; [reflexivity|].
  rewrite IH, Hfg. reflexivity.
Qed.

Local Open Scope Q_scope.

Lemma stdev_value (sqrt : Q -> Q) (l : list Q) :
  (2 <= length l)%nat -> stdev sqrt l = Ret (sqrt (sample_variance l)).
Proof.
  destruct l as [|x [|y t]]; simpl; try lia. intros _. reflexivity.
Qed.

Lemma sample_variance_perm (l1 l2 : list Q) :
  Permutation l1 l2 -> sample_variance l1 == sample_variance l2.
Proof.
  intros Hp. unfold sample_variance.
  rewrite (Permutation_length Hp).
  set (n := inject_Z (Z.of_nat (length l2))).
  assert (Qsum l1 / n == Qsum l2 / n) as Em by (rewrite (Qsum_perm _ _ Hp); reflexivity).
  rewrite (Qsum_perm _ _ (Permutation_map (fun x => (x - Qsum l1 / n) * (x - Qsum l1 / n)) Hp)).
  rewrite (Qsum_map_ext (fun x => (x - Qsum l1 / n) * (x - Qsum l1 / n))
                        (fun x => (x - Qsum l2 / n) * (x - Qsum l2 / n)));
    [reflexivity|].
  intros x. rewrite Em. reflexivity.
Qed.

(** The reducer on two orderings of one sample. *)
Lemma latency_permutation (sqrt : Q -> Q) (l1 l2 : list Q) (codes1 codes2 : gmap Z Z)
    (errs1 errs2 : list string) (total : Z) (dur : Q) :
  Permutation l1 l2 ->
  exists r1 r2,
    _calculate_stats sqrt l1 codes1 errs1 total dur = Ret r1
    /\ _calculate_stats sqrt l2 codes2 errs2 total dur = Ret r2
    /\ successful r1 = successful r2 /\ failed r1 = failed r2
    /\ success_rate r1 = success_rate r2 /\ rps r1 = rps r2
    /\ avg_response_time r1 == avg_response_time r2
    /\ min_response_time r1 == min_response_time r2
    /\ max_response_time r1 == max_response_time r2
    /\ median_response_time r1 == median_response_time r2
    /\ p95_response_time r1 == p95_response_time r2
    /\ p99_response_time r1 == p99_response_time r2
    /\ ((forall a b, a == b -> sqrt a == sqrt b) ->
        stdev_response_time r1 == stdev_response_time r2).
Proof.
  intros Hp. pose proof (Permutation_length Hp) as Hlen.
  destruct l1 as [|x1 t1] eqn:E1.
  - apply Permutation_nil in Hp. subst l2. rewrite !_calculate_stats_empty.
    do 2 eexists. split; [reflexivity|]. split; [reflexivity|]. simpl.
    repeat split; reflexivity.
  - rewrite <- E1 in *.
    assert (l1 <> []) as N1 by (rewrite E1; discriminate).
    assert (l2 <> []) as N2 by (intros ->; rewrite E1 in Hlen; discriminate).
    assert (0 < length l1)%nat as Hn by (rewrite E1; simpl; lia).
    destruct (_calculate_stats_nonempty sqrt l1 codes1 errs1 total dur N1)
      as (avg1 & mn1 & mx1 & med1 & sd1 & Ha1 & Hmn1 & Hmx1 & Hmed1 & Hsd1 & R1).
    destruct (_calculate_stats_nonempty sqrt l2 codes2 errs2 total dur N2)
      as (avg2 & mn2 & mx2 & med2 & sd2 & Ha2 & Hmn2 & Hmx2 & Hmed2 & Hsd2 & R2).
    rewrite R1, R2. do 2 eexists. split; [reflexivity|]. split; [reflexivity|]. simpl.
    rewrite <- Hlen.
    split; [reflexivity|]. split; [reflexivity|]. split; [reflexivity|].
    split; [reflexivity|].
    assert (forall k, 0 <= k -> k <= inject_Z (Z.of_nat (length l1) - 1) ->
              interp (sorted l1) k == interp (sorted l2) k) as Hint.
    { intros k K0 K1. apply interp_pointwise.
      - rewrite !length_sorted. exact Hlen.
      - intros i Hi. rewrite length_sorted in Hi. apply sorted_perm_at_rank; assumption.
      - exact K0.
      - rewrite length_sorted. exact K1. }
    destruct (frac_index_bounds _ 50 Hn ltac:(lia)) as [A50 B50].
    destruct (frac_index_bounds _ 95 Hn ltac:(lia)) as [A95 B95].
    destruct (frac_index_bounds _ 99 Hn ltac:(lia)) as [A99 B99].
    split; [|split; [|split; [|split; [|split; [|split]]]]].
    + assert (avg1 = Qsum l1 / inject_Z (Z.of_nat (length l1))) as ->
        by (rewrite E1 in Ha1 |- *; simpl in Ha1; injection Ha1 as <-; reflexivity).
      assert (avg2 = Qsum l2 / inject_Z (Z.of_nat (length l2))) as ->
        by (destruct l2; [congruence|]; simpl in Ha2; injection Ha2 as <-; reflexivity).
      rewrite (Qsum_perm _ _ Hp), Hlen. reflexivity.
    + destruct (py_min_spec l1 N1) as (m1 & M1 & Lo1 & In1).
      destruct (py_min_spec l2 N2) as (m2 & M2 & Lo2 & In2).
      rewrite Hmn1 in M1. injection M1 as <-. rewrite Hmn2 in M2. injection M2 as <-.
      rewrite List.Forall_forall in Lo1, Lo2.
      pose proof (Lo1 _ (Permutation_in _ (Permutation_sym Hp) In2)).
      pose proof (Lo2 _ (Permutation_in _ Hp In1)). simpl in *. lra.
    + destruct (py_max_spec l1 N1) as (m1 & M1 & Hi1 & In1).
      destruct (py_max_spec l2 N2) as (m2 & M2 & Hi2 & In2).
      rewrite Hmx1 in M1. injection M1 as <-. rewrite Hmx2 in M2. injection M2 as <-.
      rewrite List.Forall_forall in Hi1, Hi2.
      pose proof (Hi1 _ (Permutation_in _ (Permutation_sym Hp) In2)).
      pose proof (Hi2 _ (Permutation_in _ Hp In1)). simpl in *. lra.
    + destruct (median_interp l1 N1) as (m1 & M1 & Em1).
      destruct (median_interp l2 N2) as (m2 & M2 & Em2).
      rewrite Hmed1 in M1. injection M1 as <-. rewrite Hmed2 in M2. injection M2 as <-.
      rewrite Em1, Em2, <- Hlen. apply Hint; assumption.
    + apply Hint; assumption.
    + apply Hint; assumption.
    + intros Hsqrt. rewrite <- Hlen in Hsd2.
      destruct (1 <? length l1)%nat eqn:Hc.
      * apply Nat.ltb_lt in Hc.
        rewrite stdev_value in Hsd1 by lia. rewrite stdev_value in Hsd2 by lia.
        injection Hsd1 as <-. injection Hsd2 as <-.
        apply Hsqrt, sample_variance_perm, Hp.
      * injection Hsd1 as <-. injection Hsd2 as <-. reflexivity.
Qed.

Local Close Scope Q_scope.

Lemma count_code_perm (c : Z) (rs1 rs2 : list (nat * reply)) :
  Permutation rs1 rs2 -> count_code c rs1 = count_code c rs2.
Proof.
  induction 1 as [|[i r] l1 l2 _ IH|[i r] [j q] l|l1 l2 l3 _ IH1 _ IH2]; simpl.
  - reflexivity.
  - destruct r; lia.
  - destruct r, q; lia.
  - lia.
Qed.

(** X10.  The result does not depend on the order in which replies
    arrive.  The reducer returns, for two orderings of one sample, equal
    counts and rates and equal avg, min, max, median, p95 and p99 (and
    equal stdev when the square root respects equality of rationals).  Two
    schedules of one run that deliver the same replies to the same requests
    therefore agree on all of these and on the histogram; only the
    [errors] sample can differ. *)
Theorem result_ignores_arrival_order :
  (forall (sqrt : Q -> Q) (l1 l2 : list Q) (codes : gmap Z Z) (errs : list string)
          (total : Z) (dur : Q),
     Permutation l1 l2 ->
     exists r1 r2,
       _calculate_stats sqrt l1 codes errs total dur = Ret r1
       /\ _calculate_stats sqrt l2 codes errs total dur = Ret r2
       /\ successful r1 = successful r2 /\ failed r1 = failed r2
       /\ success_rate r1 = success_rate r2 /\ rps r1 = rps r2
       /\ (avg_response_time r1 == avg_response_time r2)%Q
       /\ (min_response_time r1 == min_response_time r2)%Q
       /\ (max_response_time r1 == max_response_time r2)%Q
       /\ (median_response_time r1 == median_response_time r2)%Q
       /\ (p95_response_time r1 == p95_response_time r2)%Q
       /\ (p99_response_time r1 == p99_response_time r2)%Q
       /\ ((forall a b, (a == b)%Q -> (sqrt a == sqrt b)%Q) ->
           (stdev_response_time r1 == stdev_response_time r2)%Q))
  /\ (forall (sqrt : Q -> Q) (cfg : Config) (tr1 tr2 : list event) (dur : Q)
             (r1 r2 : LoadTestResult),
        run sqrt cfg tr1 dur = Some (Ret r1) ->
        run sqrt cfg tr2 dur = Some (Ret r2) ->
        Permutation (replies tr1) (replies tr2) ->
        status_codes r1 = status_codes r2
        /\ successful r1 = successful r2 /\ failed r1 = failed r2
        /\ success_rate r1 = success_rate r2 /\ rps r1 = rps r2
        /\ (avg_response_time r1 == avg_response_time r2)%Q
        /\ (min_response_time r1 == min_response_time r2)%Q
        /\ (max_response_time r1 == max_response_time r2)%Q
        /\ (median_response_time r1 == median_response_time r2)%Q
        /\ (p95_response_time r1 == p95_response_time r2)%Q
        /\ (p99_response_time r1 == p99_response_time r2)%Q
        /\ ((forall a b, (a == b)%Q -> (sqrt a == sqrt b)%Q) ->
            (stdev_response_time r1 == stdev_response_time r2)%Q)).
Proof.
  split.
  - intros sqrt l1 l2 codes errs total dur Hp.
    apply latency_permutation. exact Hp.
  - intros sqrt cfg tr1 tr2 dur r1 r2 H1 H2 Hp.
    destruct (run_result sqrt cfg tr1 dur r1 H1) as (s0 & s1 & Hi1 & Hx1 & _ & E1).
    destruct (run_result sqrt cfg tr2 dur r2 H2) as (s0' & s2 & Hi2 & Hx2 & _ & E2).
    assert (Permutation (elapsed_times (replies tr1)) (elapsed_times (replies tr2))) as Hpe.
    { unfold elapsed_times. apply omap_Permutation. exact Hp. }
    destruct (latency_permutation sqrt _ _ (st_status_codes s1) (st_status_codes s2)
                (diagnostics (replies tr1)) (diagnostics (replies tr2))
                (requests cfg) dur Hpe) as (q1 & q2 & F1 & F2 & Rest).
    rewrite E1 in F1. injection F1 as <-. rewrite E2 in F2. injection F2 as <-.
    split; [|exact Rest].
    destruct (_calculate_stats_total sqrt (elapsed_times (replies tr1))
                (st_status_codes s1) (diagnostics (replies tr1)) (requests cfg) dur)
      as (q & Eq & _ & _ & _ & _ & Hc1).
    rewrite E1 in Eq. injection Eq as <-.
    destruct (_calculate_stats_total sqrt (elapsed_times (replies tr2))
                (st_status_codes s2) (diagnostics (replies tr2)) (requests cfg) dur)
      as (q & Eq & _ & _ & _ & _ & Hc2).
    rewrite E2 in Eq. injection Eq as <-.
    rewrite Hc1, Hc2. apply map_eq. intros c.
    rewrite (run_histogram_lookup cfg tr1 s0 s1 c Hi1 Hx1).
    rewrite (run_histogram_lookup cfg tr2 s0' s2 c Hi2 Hx2).
    rewrite (count_code_perm c _ _ Hp). reflexivity.
Qed.

Lemma result_ignores_arrival_order_witness :
  exists r1 r2,
    run (fun x => x) sample_config sample_schedule 1%Q = Some (Ret r1)
    /\ run (fun x => x) sample_config
         [Acquire 2; Acquire 0; Finish 2 (Response 80 500); Acquire 1;
          Finish 1 (Response 120 200); Finish 0 (Raised TimeoutException)] 1%Q
       = Some (Ret r2)
    /\ status_codes r1 = status_codes r2
    /\ (p95_response_time r1 == p95_response_time r2)%Q.
Proof.
  destruct (run (fun x => x) sample_config sample_schedule 1%Q) as [[r1|e]|] eqn:E1;
    [|vm_compute in E1; discriminate..].
  destruct (run (fun x => x) sample_config
         [Acquire 2; Acquire 0; Finish 2 (Response 80 500); Acquire 1;
          Finish 1 (Response 120 200); Finish 0 (Raised TimeoutException)] 1%Q)
    as [[r2|e]|] eqn:E2; [|vm_compute in E2; discriminate..].
  exists r1, r2. split; [reflexivity|]. split; [reflexivity|].
  destruct (proj2 result_ignores_arrival_order _ _ _ _ _ r1 r2 E1 E2)
    as (A & _ & _ & _ & _ & _ & _ & _ & _ & B & _).
  - simpl.
    apply (Permutation_trans (l' := [(1%nat, Response 120 200); (2%nat, Response 80 500);
                                     (0%nat, Raised TimeoutException)])).
    + apply perm_skip, perm_swap.
    + apply perm_swap.
  - split; [exact A | exact B].
Defined.

(** * The console report of a load test (src/cli/commands/loadtest.py) *)

Local Open Scope Q_scope.

Lemma prefix_nil (s : string) : String.prefix "" s = true.
Proof. destruct s; reflexivity. Qed.

(** X11.  The colour of a response time and the rating agree at the two
    ends: the average is shown in green exactly when the run is rated
    Excellent (below 200 ms) and in red exactly when it is rated Poor
    (1000 ms and above); in between it is shown in yellow, whether the
    rating is Good or Fair. *)
Theorem rating_matches_colour (fmt_2f : Q -> string) (avg_rt : Q) :
  (String.prefix "[green]" (format_time fmt_2f avg_rt) = true
     <-> performance_rating avg_rt = "[green]Excellent[/green] 🚀")
  /\ (String.prefix "[red]" (format_time fmt_2f avg_rt) = true
     <-> performance_rating avg_rt = "[red]Poor[/red] ✗")
  /\ (String.prefix "[yellow]" (format_time fmt_2f avg_rt) = true
     <-> performance_rating avg_rt = "[green]Good[/green] ✓"
         \/ performance_rating avg_rt = "[yellow]Fair[/yellow] ⚠")
  /\ (performance_rating avg_rt = "[green]Excellent[/green] 🚀" <-> avg_rt < 200)
  /\ (performance_rating avg_rt = "[red]Poor[/red] ✗" <-> 1000 <= avg_rt).
Proof.
  unfold format_time, performance_rating.
  destruct (Qlt_le_dec avg_rt 200) as [H1|H1];
    [|destruct (Qlt_le_dec avg_rt 500) as [H2|H2];
      destruct (Qlt_le_dec avg_rt 1000) as [H3|H3]];
    try (exfalso; lra); simpl;
    repeat split; try discriminate; try reflexivity; try lra;
    try (intros [?|?]; discriminate); try (intros; exfalso; lra); auto;
    intros; apply prefix_nil.
Qed.

Lemma rating_matches_colour_witness :
  performance_rating 150 = "[green]Excellent[/green] 🚀"
  /\ performance_rating 1200 = "[red]Poor[/red] ✗".
Proof.
  split.
  - apply (proj2 (proj1 (proj2 (proj2 (proj2
             (rating_matches_colour (fun _ => ""%string) 150)))))). reflexivity.
  - apply (proj2 (proj2 (proj2 (proj2 (proj2
             (rating_matches_colour (fun _ => ""%string) 1200)))))). discriminate.
Defined.

(** X12.  A run in which no request completed is reported with an
    average of 0 ms and therefore rated Excellent; nothing is printed about
    status codes. *)
Theorem failed_run_is_rated_excellent (sqrt : Q -> Q) (fmt_2f fmt_1f : Q -> string)
    (cfg : Config) (tr : list event) (dur shown : Q) (r : LoadTestResult) :
  run sqrt cfg tr dur = Some (Ret r) -> count_completed (replies tr) = 0%nat ->
  printed (_display_results fmt_2f fmt_1f r shown)
  = [""; "[bold]Performance Rating:[/bold] [green]Excellent[/green] 🚀"; ""]
  /\ List.nth_error (table_rows (_display_results fmt_2f fmt_1f r shown)) 5
     = Some ("Avg Response Time", "[green]" +:+ fmt_2f 0 +:+ "ms[/green]").
Proof.
  intros Hrun Hz.
  destruct (run_result sqrt cfg tr dur r Hrun) as (st0 & st & Hi & Hx & _ & E).
  rewrite (no_completed_no_elapsed _ Hz), _calculate_stats_empty in E.
  injection E as <-.
  assert (st_status_codes st = ∅) as Hc.
  { apply map_eq. intros c. rewrite (run_histogram_lookup cfg tr st0 st c Hi Hx), lookup_empty.
    assert (count_code c (replies tr) = 0%nat) as ->; [|reflexivity].
    clear -Hz. induction (replies tr) as [|[i [e c'|e]] rs IH]; simpl in *; [reflexivity| |];
      [lia | apply IH; lia]. }
  unfold _display_results. simpl. rewrite Hc.
  rewrite bool_decide_eq_true_2 by reflexivity. split; reflexivity.
Qed.

Lemma failed_run_is_rated_excellent_witness :
  exists r, run (fun x => x) failing_config failing_schedule 1 = Some (Ret r)
    /\ printed (_display_results (fun _ => "0.00"%string) (fun _ => "0.0"%string) r 1)
       = [""; "[bold]Performance Rating:[/bold] [green]Excellent[/green] 🚀"; ""].
Proof.
  destruct (run (fun x => x) failing_config failing_schedule 1) as [[r|e]|] eqn:E;
    [|vm_compute in E; discriminate..].
  exists r. split; [reflexivity|].
  apply (failed_run_is_rated_excellent _ _ _ _ _ _ _ r E). vm_compute. reflexivity.
Defined.

Local Close Scope Q_scope.

(** ** The status-code section of the report *)

Lemma insert_item_perm (x : Z * Z) (l : list (Z * Z)) :
  Permutation (x :: l) (insert_item x l).
Proof.
  induction l as [|y t IH]; simpl; [reflexivity|].
  destruct (item_le y x); [|reflexivity].
  rewrite perm_swap. apply perm_skip, IH.
Qed.

Lemma sorted_items_perm (d : gmap Z Z) : Permutation (sorted_items d) (map_to_list d).
Proof.
  unfold sorted_items. induction (map_to_list d) as [|x t IH]; simpl; [reflexivity|].
  rewrite <- insert_item_perm. apply perm_skip, IH.
Qed.

Lemma item_le_total (a b : Z * Z) : item_le a b = false -> item_le b a = true.
Proof.
  unfold item_le. intros H.
  apply orb_false_iff in H as [H1 H2]. apply Z.ltb_ge in H1.
  apply andb_false_iff in H2.
  destruct (Z.eq_dec (fst a) (fst b)) as [E|N].
  - destruct H2 as [H2|H2]; [apply Z.eqb_neq in H2; congruence|].
    apply Z.leb_gt in H2. apply orb_true_iff. right.
    apply andb_true_iff. split; [apply Z.eqb_eq; congruence | apply Z.leb_le; lia].
  - apply orb_true_iff. left. apply Z.ltb_lt. lia.
Qed.

Lemma item_le_fst (a b : Z * Z) : item_le a b = true -> (fst a <= fst b)%Z.
Proof.
  unfold item_le. intros H. apply orb_true_iff in H as [H|H].
  - apply Z.ltb_lt in H. lia.
  - apply andb_true_iff in H as [H _]. apply Z.eqb_eq in H. lia.
Qed.

Lemma insert_item_keys (x : Z * Z) (l : list (Z * Z)) :
  StronglySorted (fun a b => (fst a <= fst b)%Z) l ->
  StronglySorted (fun a b => (fst a <= fst b)%Z) (insert_item x l).
Proof.
  induction 1 as [|y t Hs IH Hall]; simpl.
  - repeat constructor.
  - destruct (item_le y x) eqn:E.
    + constructor; [exact IH|].
      rewrite <- insert_item_perm. constructor; [apply item_le_fst; exact E | exact Hall].
    + apply item_le_total, item_le_fst in E.
      constructor; [constructor; assumption|].
      constructor; [exact E|].
      eapply List.Forall_impl; [|exact Hall]. intros z Hz. simpl in *. lia.
Qed.

Lemma sorted_items_keys (d : gmap Z Z) :
  StronglySorted (fun a b => (fst a <= fst b)%Z) (sorted_items d).
Proof.
  unfold sorted_items. induction (map_to_list d) as [|x t IH]; simpl.
  - constructor.
  - apply insert_item_keys, IH.
Qed.

Lemma strictly_sorted_keys (l : list (Z * Z)) :
  StronglySorted (fun a b => (fst a <= fst b)%Z) l -> NoDup (List.map fst l) ->
  StronglySorted (fun a b => (fst a < fst b)%Z) l.
Proof.
  induction 1 as [|x t Hs IH Hall]; intros Hnd; [constructor|].
  simpl in Hnd. apply NoDup_cons in Hnd as [Hx Hnd].
  constructor; [apply IH; exact Hnd|].
  rewrite List.Forall_forall in Hall |- *. intros y Hy.
  specialize (Hall y Hy). simpl in Hall.
  assert (fst x <> fst y); [|lia].
  intros E. apply Hx. rewrite E. apply list_elem_of_In, in_map, Hy.
Qed.

(** X13.  When the histogram is not empty the report lists the status
    codes after the table, one line per code that occurred, in strictly
    ascending order of the code and each with its own count. *)
Theorem status_codes_listed_ascending (fmt_2f fmt_1f : Q -> string)
    (result : LoadTestResult) (duration : Q) :
  status_codes result <> ∅ ->
  exists items,
    printed (_display_results fmt_2f fmt_1f result duration)
    = [""; "[bold]Status Code Distribution[/bold]"]
      ++ List.map status_line items
      ++ [""; "[bold]Performance Rating:[/bold] "
                +:+ performance_rating (avg_response_time result); ""]
    /\ StronglySorted (fun a b => (fst a < fst b)%Z) items
    /\ (forall code count,
          In (code, count) items <-> status_codes result !! code = Some count)
    /\ length items = size (status_codes result).
Proof.
  intros Hne. exists (sorted_items (status_codes result)).
  pose proof (sorted_items_perm (status_codes result)) as Hp.
  split; [|split; [|split]].
  - unfold _display_results. simpl.
    rewrite bool_decide_eq_false_2 by exact Hne.
    simpl. rewrite <- app_assoc. reflexivity.
  - apply strictly_sorted_keys; [apply sorted_items_keys|].
    rewrite Hp. apply NoDup_fst_map_to_list.
  - intros code count. rewrite <- elem_of_map_to_list, <- Hp.
    symmetry. apply list_elem_of_In.
  - rewrite Hp. apply length_map_to_list.
Qed.

Lemma status_codes_listed_ascending_witness :
  exists items,
    printed (_display_results (fun _ => ""%string) (fun _ => ""%string)
      {| total_requests := 3; successful := 3; failed := 0; success_rate := 100%Q;
         status_codes := <[500%Z := 1%Z]> (<[200%Z := 2%Z]> ∅); errors := [];
         duration := 1%Q; rps := 3%Q; avg_response_time := 100%Q;
         min_response_time := 80%Q; max_response_time := 120%Q;
         median_response_time := 100%Q; stdev_response_time := 0%Q;
         p95_response_time := 118%Q; p99_response_time := 119%Q |} 1%Q)
    = [""; "[bold]Status Code Distribution[/bold]"]
      ++ List.map status_line items
      ++ [""; "[bold]Performance Rating:[/bold] [green]Excellent[/green] 🚀"; ""]
    /\ StronglySorted (fun a b => (fst a < fst b)%Z) items.
Proof.
  edestruct (status_codes_listed_ascending (fun _ => ""%string) (fun _ => ""%string))
    as (items & P & S & _); [|exists items; split; [exact P | exact S]].
  simpl. intros H. apply (f_equal (fun m : gmap Z Z => m !! 500%Z)) in H.
  vm_compute in H. discriminate.
Defined.

(** ** Colours of status codes *)

Lemma status_color_checked :
  forallb (fun c => String.eqb (status_color c) (color_by_range c)) (seqZ 100 900) = true.
Proof. vm_compute. reflexivity. Qed.

(** X14.  For three-digit status codes the first digit decides the
    colour: 200-299 are shown green, 300-399 yellow, every other code from
    100 to 999 red. *)
Theorem status_color_by_class (code : Z) :
  (100 <= code <= 999)%Z ->
  (status_color code = "green" <-> (200 <= code <= 299)%Z)
  /\ (status_color code = "yellow" <-> (300 <= code <= 399)%Z)
  /\ (status_color code = "red" <-> (code < 200 \/ 400 <= code)%Z).
Proof.
  intros Hc.
  assert (status_color code = color_by_range code) as E.
  { pose proof status_color_checked as H. rewrite forallb_forall in H.
    apply String.eqb_eq, H, list_elem_of_In, elem_of_seqZ. lia. }
  rewrite E. unfold color_by_range.
  destruct ((200 <=? code)%Z && (code <=? 299)%Z)%bool eqn:G.
  - apply andb_true_iff in G as [G1 G2]. apply Z.leb_le in G1, G2.
    repeat split; try discriminate; try lia; intros; reflexivity.
  - destruct ((300 <=? code)%Z && (code <=? 399)%Z)%bool eqn:Y.
    + apply andb_true_iff in Y as [Y1 Y2]. apply Z.leb_le in Y1, Y2.
      repeat split; try discriminate; try lia; intros; reflexivity.
    + apply andb_false_iff in G. apply andb_false_iff in Y.
      rewrite !Z.leb_gt in G, Y.
      repeat split; try discriminate; try lia; intros; reflexivity.
Qed.

Lemma status_color_by_class_witness :
  status_color 204 = "green" /\ status_color 301 = "yellow" /\ status_color 503 = "red".
Proof.
  split; [|split].
  - apply (proj1 (status_color_by_class 204 ltac:(lia))). lia.
  - apply (proj1 (proj2 (status_color_by_class 301 ltac:(lia)))). lia.
  - apply (proj2 (proj2 (status_color_by_class 503 ltac:(lia)))). lia.
Defined.

(** * Configuration lookup (src/utils/config.py) *)

Lemma split_on_dotless (p : string) : dotless p -> split_on "." p = [p].
Proof.
  unfold dotless. induction p as [|c t IH]; intros Hp; [reflexivity|].
  simpl. destruct (Ascii.eqb c ".") eqn:E.
  - apply Ascii.eqb_eq in E. exfalso. apply (Hp c); [left; reflexivity | exact E].
  - rewrite IH; [reflexivity|]. intros c' Hc'. apply Hp. right. exact Hc'.
Qed.

Lemma split_on_segment (p q : string) :
  dotless p -> split_on "." (p +:+ "." +:+ q) = p :: split_on "." q.
Proof.
  unfold dotless. induction p as [|c t IH]; intros Hp; [reflexivity|].
  simpl. destruct (Ascii.eqb c ".") eqn:E.
  - apply Ascii.eqb_eq in E. exfalso. apply (Hp c); [left; reflexivity | exact E].
  - simpl in IH. rewrite IH; [reflexivity|]. intros c' Hc'. apply Hp. right. exact Hc'.
Qed.

Lemma split_on_nonempty (s : string) : exists k ks, split_on "." s = k :: ks.
Proof.
  induction s as [|c t (k & ks & IH)]; simpl; [eauto|].
  destruct (Ascii.eqb c "."); [eauto|]. rewrite IH. eauto.
Qed.

(** X15.  [get] falls back to the default instead of failing: when the
    loaded configuration is not a mapping, for every key; and when the
    first segment of the key is absent from the mapping or maps to null,
    whatever follows it. *)
Theorem config_get_falls_back (_config : yaml) (key : string) (default : yaml) :
  ((forall d, _config <> YDict d) -> get _config key default = default)
  /\ (forall d section rest,
        _config = YDict d -> dotless section -> dict_get section d = YNone ->
        get _config section default = default
        /\ get _config (section +:+ "." +:+ rest) default = default).
Proof.
  split.
  - intros Hnd. unfold get. destruct (split_on_nonempty key) as (k & ks & ->).
    destruct _config; try reflexivity. exfalso. apply (Hnd d). reflexivity.
  - intros d section rest -> Hs Hm. unfold get.
    rewrite split_on_dotless, split_on_segment by exact Hs. simpl. rewrite Hm. auto.
Qed.

Lemma config_get_falls_back_witness :
  get (YList [YInt 1]) "loadtest.requests" (YInt 100) = YInt 100
  /\ get (YDict [("loadtest"%string, YNone)]) "loadtest.requests" (YInt 100) = YInt 100.
Proof.
  split.
  - apply (proj1 (config_get_falls_back (YList [YInt 1]) _ _)). discriminate.
  - refine (proj2 (proj2 (config_get_falls_back
                             (YDict [("loadtest"%string, YNone)]) "" (YInt 100))
                      [("loadtest"%string, YNone)] "loadtest"%string "requests"%string
                      eq_refl _ eq_refl)).
    intros c Hc. simpl in Hc. intuition (subst; discriminate).
Defined.

(** X16.  A dotted key is looked up one segment at a time: when its
    first segment maps to a value that is not null, [get] on the whole key
    is [get] of the rest inside that value, and [get] on the segment alone
    is that value, also when it is 0, false or an empty string. *)
Theorem config_get_descends (d : list (string * yaml)) (section rest : string)
    (default v : yaml) :
  dotless section -> dict_get section d = v -> v <> YNone ->
  get (YDict d) section default = v
  /\ get (YDict d) (section +:+ "." +:+ rest) default = get v rest default.
Proof.
  intros Hs Hv Hnn. unfold get.
  rewrite split_on_dotless, split_on_segment by exact Hs.
  simpl. rewrite Hv. destruct v; try congruence; auto.
Qed.

Lemma config_get_descends_witness :
  get_loadtest_requests
    (YDict [("loadtest"%string, YDict [("requests"%string, YInt 0)])]) = YInt 0.
Proof.
  assert (dotless "loadtest") as D1
    by (intros c Hc; simpl in Hc; intuition (subst; discriminate)).
  assert (dotless "requests") as D2
    by (intros c Hc; simpl in Hc; intuition (subst; discriminate)).
  unfold get_loadtest_requests.
  change "loadtest.requests"%string with ("loadtest" +:+ "." +:+ "requests")%string.
  rewrite (proj2 (config_get_descends
                    [("loadtest"%string, YDict [("requests"%string, YInt 0)])]
                    "loadtest" "requests" (YInt 100)
                    (YDict [("requests"%string, YInt 0)]) D1 eq_refl ltac:(discriminate))).
  exact (proj1 (config_get_descends [("requests"%string, YInt 0)] "requests" ""
                  (YInt 100) (YInt 0) D2 eq_refl ltac:(discriminate))).
Defined.

(** * The [loadtest] command (src/cli/commands/loadtest.py) *)

(** X17.  A load test started from the command line sends every request
    to the normalized URL without custom headers and without a body,
    whatever the method; and the [--duration] and [--verbose] options do
    not change what the command does. *)
Theorem cli_requests_carry_nothing (sqrt : Q -> Q) (fmt_2f fmt_1f : Q -> string)
    (validate_url : string -> bool) (normalize_url : string -> string)
    (config_requests config_concurrent config_timeout : Z)
    (url : string) (requests concurrent duration timeout : option Z)
    (method : string) (verbose : bool) :
  (forall tr st0 st,
     let cfg := run_arguments (normalize_url url) (py_or requests config_requests)
                  (py_or concurrent config_concurrent) duration
                  (py_or timeout config_timeout) method verbose in
     init cfg = Ret st0 -> exec cfg tr st0 = Some st ->
     Forall (fun c => call_url c = normalize_url url
                      /\ call_headers c = None /\ call_content c = None)
            (st_calls st))
  /\ (forall duration' verbose' tr dur test_duration,
        loadtest sqrt fmt_2f fmt_1f validate_url normalize_url
          config_requests config_concurrent config_timeout
          url requests concurrent duration timeout method verbose tr dur test_duration
        = loadtest sqrt fmt_2f fmt_1f validate_url normalize_url
            config_requests config_concurrent config_timeout
            url requests concurrent duration' timeout method verbose' tr dur test_duration).
Proof.
  split.
  - intros tr st0 st cfg Hi Hx.
    destruct (init_inv cfg st0 Hi) as (_ & _ & _ & _ & Hc & _).
    destruct (exec_spec cfg tr st0 st Hx) as (_ & _ & _ & D & _).
    rewrite D, Hc. simpl. apply Forall_replicate.
    destruct (dispatch_fields method (normalize_url url) None None) as (A & B & C).
    split; [exact A|]. split; [exact B|].
    rewrite C. destruct (sends_no_body method); reflexivity.
  - intros. reflexivity.
Qed.

Lemma cli_requests_carry_nothing_witness :
  exists st0 st,
    init (run_arguments "https://example.com/" 2 1 None 30 "POST" false) = Ret st0
    /\ exec (run_arguments "https://example.com/" 2 1 None 30 "POST" false)
         [Acquire 0] st0 = Some st
    /\ Forall (fun c => call_headers c = None /\ call_content c = None) (st_calls st).
Proof.
  destruct (init (run_arguments "https://example.com/" 2 1 None 30 "POST" false))
    as [st0|e] eqn:Hi; [|vm_compute in Hi; discriminate].
  destruct (exec (run_arguments "https://example.com/" 2 1 None 30 "POST" false)
              [Acquire 0] st0) as [st|] eqn:Hx;
    [|vm_compute in Hi; injection Hi as <-; vm_compute in Hx; discriminate].
  exists st0, st. split; [reflexivity|]. split; [exact Hx|].
  pose proof (proj1 (cli_requests_carry_nothing (fun x => x) (fun _ => ""%string)
                       (fun _ => ""%string) (fun _ => true) (fun u => u) 100 10 30
                       "https://example.com/" (Some 2%Z) (Some 1%Z) None (Some 30%Z)
                       "POST" false) [Acquire 0] st0 st Hi Hx) as F.
  eapply Forall_impl; [exact F|]. intros c (_ & A & B). split; [exact A | exact B].
Defined.

Lemma py_or_zero (y : Z) : py_or (Some 0%Z) y = py_or None y.
Proof. reflexivity. Qed.




(** * The analyzer (src/core/analyzer.py) *)

Local Open Scope Q_scope.

Lemma insert_by_severity_medium (x : Finding) (l0 l1 : list Finding) :
  severity_key x = 1%Z ->
  Forall (fun f => severity_key f = 0%Z) l0 ->
  Forall (fun f => severity_key f = 1%Z) l1 ->
  insert_by_severity x (l0 ++ l1) = l0 ++ x :: l1.
Proof.
  intros Hx H0 H1. induction H0 as [|y t Hy _ IH]; simpl.
  - destruct H1 as [|y t Hy _]; simpl; [reflexivity|]. rewrite Hx, Hy. reflexivity.
  - rewrite Hx, Hy. simpl. rewrite IH. reflexivity.
Qed.

Lemma insert_by_severity_high (x : Finding) (l : list Finding) :
  severity_key x = 0%Z ->
  Forall (fun f => severity_key f = 0%Z \/ severity_key f = 1%Z) l ->
  insert_by_severity x l = x :: l.
Proof.
  intros Hx Hl. destruct Hl as [|y t Hy _]; simpl; [reflexivity|].
  rewrite Hx. destruct Hy as [-> | ->]; reflexivity.
Qed.

Lemma filter_keys (l : list Finding) :
  Forall (fun f => severity_key f = 0%Z) (List.filter is_high l)
  /\ Forall (fun f => severity_key f = 1%Z) (List.filter is_medium l).
Proof.
  unfold is_high, is_medium.
  split; apply List.Forall_forall; intros f Hf; apply filter_In in Hf as [_ Hf];
    apply Z.eqb_eq in Hf; exact Hf.
Qed.

(** Sorting a list whose severities are all high or medium. *)
Lemma sort_by_severity_groups (l : list Finding) :
  Forall (fun f => severity_key f = 0%Z \/ severity_key f = 1%Z) l ->
  sort_by_severity l = List.filter is_high l ++ List.filter is_medium l.
Proof.
  induction 1 as [|x t Hx Ht IH]; [reflexivity|].
  unfold sort_by_severity in *. simpl. rewrite IH.
  destruct (filter_keys t) as [F0 F1]. unfold is_high, is_medium in *.
  destruct Hx as [Hx|Hx]; rewrite Hx; simpl.
  - apply insert_by_severity_high; [exact Hx|].
    apply Forall_app. split; eapply List.Forall_impl; try eassumption; simpl; auto.
  - apply insert_by_severity_medium; assumption.
Qed.

Lemma graded_add_issue (f : Finding) (a : Analysis) :
  graded a -> severity_key f = 0%Z \/ severity_key f = 1%Z -> graded (add_issue f a).
Proof.
  intros [Hi Hw] Hf. split; simpl; [|exact Hw].
  apply Forall_app. split; [exact Hi | constructor; [exact Hf | constructor]].
Qed.

Lemma graded_add_warning (f : Finding) (a : Analysis) :
  graded a -> severity_key f = 1%Z -> graded (add_warning f a).
Proof.
  intros [Hi Hw] Hf. split; simpl; [exact Hi|].
  apply Forall_app. split; [exact Hw | constructor; [exact Hf | constructor]].
Qed.

Lemma graded_add_passed (f : Finding) (a : Analysis) : graded a -> graded (add_passed f a).
Proof. intros [Hi Hw]. split; assumption. Qed.

Lemma graded_scores (fmt_0f : Q -> string) (scores : list (string * Q)) (a : Analysis) :
  graded a -> graded (fold_left (analyze_score fmt_0f) scores a).
Proof.
  revert a. induction scores as [|[m s] t IH]; intros a Ha; [exact Ha|].
  simpl. apply IH. unfold analyze_score.
  destruct (Qlt_le_dec s 50); [apply graded_add_issue; [exact Ha | left; reflexivity]|].
  destruct (Qlt_le_dec s 90); [apply graded_add_warning; [exact Ha | reflexivity]|].
  apply graded_add_passed, Ha.
Qed.

Lemma graded_collect (fmt_0f fmt_1f : Q -> string) (results : AnalyzerInput) :
  graded (collect_findings fmt_0f fmt_1f results).
Proof.
  unfold collect_findings.
  set (a0 := {| a_issues := []; a_warnings := []; a_passed := []; a_overall_score := 0 |}).
  assert (graded a0) as H0 by (split; constructor).
  assert (graded (fst (analyze_pagespeed fmt_0f (in_pagespeed results) a0))) as H1.
  { unfold analyze_pagespeed. destruct (in_pagespeed results) as [| |[scores|]]; simpl;
      try exact H0. apply graded_scores, H0. }
  destruct (analyze_pagespeed fmt_0f (in_pagespeed results) a0) as [a1 scores]. simpl in H1.
  assert (graded (analyze_seo (in_seo results) a1)) as H2.
  { unfold analyze_seo. destruct (in_seo results) as [| |seo]; try exact H1.
    repeat match goal with
           | |- graded (if ?b then _ else _) => destruct b
           | |- graded (add_issue _ _) => apply graded_add_issue; [|simpl; auto]
           | |- graded (add_warning _ _) => apply graded_add_warning; [|reflexivity]
           end; exact H1. }
  assert (graded (analyze_loadtest fmt_0f fmt_1f (in_loadtest results)
                    (analyze_seo (in_seo results) a1))) as H3.
  { unfold analyze_loadtest. destruct (in_loadtest results) as [| |lt]; try exact H2.
    repeat match goal with
           | |- graded (if ?b then _ else _) => destruct b
           | |- graded (add_issue _ _) => apply graded_add_issue; [|simpl; auto]
           | |- graded (add_warning _ _) => apply graded_add_warning; [|reflexivity]
           end; exact H2. }
  destruct scores; [exact H3|]. destruct H3 as [A B]. split; assumption.
Qed.

Lemma sort_by_severity_perm (l : list Finding) :
  Forall (fun f => severity_key f = 0%Z \/ severity_key f = 1%Z) l ->
  Permutation (sort_by_severity l) l.
Proof.
  intros Hl. rewrite sort_by_severity_groups by exact Hl.
  induction Hl as [|f t Hf _ IH]; simpl; [reflexivity|].
  unfold is_high at 1, is_medium at 1.
  destruct Hf as [-> | ->]; simpl.
  - apply perm_skip, IH.
  - rewrite <- Permutation_middle. apply perm_skip, IH.
Qed.

Lemma filter_high_medium (l : list Finding) :
  Forall (fun f => severity_key f = 1%Z) l ->
  List.filter is_high l = [] /\ List.filter is_medium l = l.
Proof.
  induction 1 as [|f t Hf _ [IH0 IH1]]; simpl; [auto|].
  unfold is_high at 1, is_medium at 1. rewrite Hf. simpl. rewrite IH0, IH1. auto.
Qed.

Lemma sort_by_severity_medium (l : list Finding) :
  Forall (fun f => severity_key f = 1%Z) l -> sort_by_severity l = l.
Proof.
  intros Hl. rewrite sort_by_severity_groups
    by (eapply List.Forall_impl; [|exact Hl]; simpl; auto).
  destruct (filter_high_medium l Hl) as [-> ->]. reflexivity.
Qed.

(** X19.  The analysis lists the issues by severity without otherwise
    reordering them: first the high ones in the order they were found,
    then the medium ones in the order they were found (no issue has another
    severity); warnings, which are all medium, and passed checks keep the
    order in which they were found. *)
Theorem issues_grouped_by_severity (fmt_0f fmt_1f : Q -> string) (results : AnalyzerInput) :
  let found := collect_findings fmt_0f fmt_1f results in
  let a := _analyze_results fmt_0f fmt_1f results in
  a_issues a = List.filter is_high (a_issues found) ++ List.filter is_medium (a_issues found)
  /\ Permutation (a_issues a) (a_issues found)
  /\ a_warnings a = a_warnings found
  /\ a_passed a = a_passed found
  /\ Forall (fun f => f_severity f = Some "medium"%string) (a_warnings a).
Proof.
  intros found a. destruct (graded_collect fmt_0f fmt_1f results) as [Hi Hw].
  fold found in Hi, Hw. unfold a, _analyze_results. fold found. simpl.
  rewrite (sort_by_severity_medium _ Hw).
  split; [apply sort_by_severity_groups, Hi|].
  split; [apply sort_by_severity_perm, Hi|].
  split; [reflexivity|]. split; [reflexivity|].
  eapply List.Forall_impl; [|exact Hw]. intros f Hf.
  unfold severity_key in Hf. destruct (f_severity f) as [s|]; [|discriminate].
  destruct (String.eqb s "high"); [discriminate|].
  destruct (String.eqb s "medium") eqn:E; [|discriminate].
  apply String.eqb_eq in E. congruence.
Qed.

Local Close Scope Q_scope.

Local Open Scope Q_scope.

Lemma below_spec (bound : Q) (item : string * Q) :
  below bound item = true <-> snd item < bound.
Proof.
  unfold below. rewrite negb_true_iff. split.
  - intros E. apply Qnot_le_lt. intros H. apply Qle_bool_iff in H. congruence.
  - intros H. destruct (Qle_bool bound (snd item)) eqn:E; [|reflexivity].
    apply Qle_bool_iff in E. lra.
Qed.

Lemma analyze_score_graded (fmt_0f : Q -> string) (a : Analysis) (item : string * Q) :
  analyze_score fmt_0f a item
  = if below 50 item then add_issue (poor_finding fmt_0f item) a
    else if below 90 item then add_warning (fair_finding fmt_0f item) a
    else add_passed (good_finding fmt_0f item) a.
Proof.
  destruct item as [m s]. unfold analyze_score.
  pose proof (below_spec 50 (m, s)) as B50. pose proof (below_spec 90 (m, s)) as B90.
  simpl in B50, B90.
  destruct (Qlt_le_dec s 50) as [H|H].
  - replace (below 50 (m, s)) with true by (symmetry; apply B50; exact H). reflexivity.
  - destruct (below 50 (m, s)); [assert (s < 50) by (apply B50; reflexivity); lra|].
    destruct (Qlt_le_dec s 90) as [H'|H'].
    + replace (below 90 (m, s)) with true by (symmetry; apply B90; exact H'). reflexivity.
    + destruct (below 90 (m, s)); [assert (s < 90) by (apply B90; reflexivity); lra|].
      reflexivity.
Qed.

Lemma analyze_scores_graded (fmt_0f : Q -> string) (scores : list (string * Q))
    (a : Analysis) :
  fold_left (analyze_score fmt_0f) scores a
  = {| a_issues := a_issues a ++ List.map (poor_finding fmt_0f) (List.filter (below 50) scores);
       a_warnings := a_warnings a ++
         List.map (fair_finding fmt_0f)
           (List.filter (fun item => negb (below 50 item) && below 90 item) scores);
       a_passed := a_passed a ++
         List.map (good_finding fmt_0f)
           (List.filter (fun item => negb (below 90 item)) scores);
       a_overall_score := a_overall_score a |}.
Proof.
  revert a. induction scores as [|item t IH]; intros a.
  - simpl. rewrite !app_nil_r. destruct a; reflexivity.
  - cbn [fold_left]. rewrite IH, analyze_score_graded. cbn [List.filter].
    pose proof (below_spec 50 item) as B50. pose proof (below_spec 90 item) as B90.
    destruct (below 50 item) eqn:E50.
    + assert (below 90 item = true) as -> by (apply B90; apply proj1 in B50;
        specialize (B50 eq_refl); lra).
      simpl. rewrite <- app_assoc. reflexivity.
    + destruct (below 90 item) eqn:E90; simpl; rewrite <- app_assoc; reflexivity.
Qed.

Lemma sort_by_severity_high (l : list Finding) :
  Forall (fun f => severity_key f = 0%Z) l -> sort_by_severity l = l.
Proof.
  intros Hl. rewrite sort_by_severity_groups
    by (eapply List.Forall_impl; [|exact Hl]; simpl; auto).
  induction Hl as [|f t Hf _ IH]; [reflexivity|].
  simpl. unfold is_high at 1, is_medium at 1. rewrite Hf. simpl. rewrite IH. reflexivity.
Qed.

(** X20.  With only PageSpeed scores to analyze, the scores are graded
    in the order they come: a score below 50 becomes an issue of severity
    high, a score from 50 up to but not including 90 a warning of
    severity medium, and a score of 90 or more a passed check, each with
    its metric, its score and its message; so every score yields exactly
    one finding.  Over exact rationals the overall score is the mean of
    the scores, so it lies between any two bounds that hold for all of
    them; without scores it is 0. *)
Theorem pagespeed_scores_graded_and_averaged (fmt_0f fmt_1f : Q -> string)
    (scores : list (string * Q)) (lo hi : Q) :
  let a := _analyze_results fmt_0f fmt_1f
             {| in_pagespeed := Output (Some scores); in_seo := NotRun;
                in_loadtest := NotRun |} in
  a_issues a = List.map (poor_finding fmt_0f) (List.filter (below 50) scores)
  /\ a_warnings a
     = List.map (fair_finding fmt_0f)
         (List.filter (fun item => negb (below 50 item) && below 90 item) scores)
  /\ a_passed a
     = List.map (good_finding fmt_0f)
         (List.filter (fun item => negb (below 90 item)) scores)
  /\ (forall bound item, below bound item = true <-> snd item < bound)
  /\ (length (a_issues a) + length (a_warnings a) + length (a_passed a) = length scores)%nat
  /\ (scores = [] -> a_overall_score a = 0)
  /\ (scores <> [] ->
        a_overall_score a
        = Qsum (List.map snd scores) / inject_Z (Z.of_nat (length (List.map snd scores))))
  /\ (scores <> [] -> Forall (fun p => lo <= snd p /\ snd p <= hi) scores ->
        lo <= a_overall_score a /\ a_overall_score a <= hi).
Proof.
  intros a.
  assert (a_overall_score a
          = match scores with
            | [] => 0
            | _ => Qsum (List.map snd scores)
                   / inject_Z (Z.of_nat (length (List.map snd scores)))
            end) as Escore.
  { unfold a, _analyze_results, collect_findings. simpl.
    destruct scores as [|p t]; reflexivity. }
  assert (a_issues a = List.map (poor_finding fmt_0f) (List.filter (below 50) scores)
          /\ a_warnings a
             = List.map (fair_finding fmt_0f)
                 (List.filter (fun item => negb (below 50 item) && below 90 item) scores)
          /\ a_passed a
             = List.map (good_finding fmt_0f)
                 (List.filter (fun item => negb (below 90 item)) scores)) as (Ei & Ew & Ep).
  { unfold a, _analyze_results, collect_findings, analyze_pagespeed. simpl.
    rewrite analyze_scores_graded. simpl.
    assert (forall (A B C : list Finding) (q : Q),
              a_issues (match List.map snd scores with
                        | [] => {| a_issues := A; a_warnings := B; a_passed := C;
                                   a_overall_score := 0 |}
                        | _ :: _ => {| a_issues := A; a_warnings := B; a_passed := C;
                                       a_overall_score := q |}
                        end) = A
              /\ a_warnings (match List.map snd scores with
                             | [] => {| a_issues := A; a_warnings := B; a_passed := C;
                                        a_overall_score := 0 |}
                             | _ :: _ => {| a_issues := A; a_warnings := B; a_passed := C;
                                            a_overall_score := q |}
                             end) = B
              /\ a_passed (match List.map snd scores with
                           | [] => {| a_issues := A; a_warnings := B; a_passed := C;
                                      a_overall_score := 0 |}
                           | _ :: _ => {| a_issues := A; a_warnings := B; a_passed := C;
                                          a_overall_score := q |}
                           end) = C) as Hm
      by (intros; destruct (List.map snd scores); auto).
    split; [|split].
    - rewrite (proj1 (Hm _ _ _ _)). apply sort_by_severity_high.
      apply List.Forall_map, List.Forall_forall. intros item _. reflexivity.
    - rewrite (proj1 (proj2 (Hm _ _ _ _))). apply sort_by_severity_medium.
      apply List.Forall_map, List.Forall_forall. intros item _. reflexivity.
    - apply (proj2 (proj2 (Hm _ _ _ _))). }
  split; [exact Ei|]. split; [exact Ew|]. split; [exact Ep|].
  split; [exact below_spec|].
  split; [|split; [|split]].
  - rewrite Ei, Ew, Ep, !length_map.
    clear. induction scores as [|item t IH]; [reflexivity|].
    cbn [List.filter length].
    pose proof (below_spec 50 item) as B50. pose proof (below_spec 90 item) as B90.
    destruct (below 50 item) eqn:E50, (below 90 item) eqn:E90; simpl; try lia.
    exfalso. assert (snd item < 50) as H1 by (apply B50; reflexivity).
    assert (~ snd item < 90) as H2 by (intros H'; apply B90 in H'; discriminate).
    lra.
  - intros ->. reflexivity.
  - intros Hne. rewrite Escore. destruct scores; [congruence | reflexivity].
  - intros Hne Hb.
    assert (a_overall_score a
            = Qsum (List.map snd scores)
              / inject_Z (Z.of_nat (length (List.map snd scores)))) as ->
      by (rewrite Escore; destruct scores; [congruence | reflexivity]).
    assert (0 < inject_Z (Z.of_nat (length (List.map snd scores)))) as Np.
    { change 0 with (inject_Z 0). rewrite <- Zlt_Qlt, length_map.
      destruct scores; [congruence | simpl; lia]. }
    assert (Forall (fun y => lo <= y) (List.map snd scores)) as L.
    { apply List.Forall_map. eapply List.Forall_impl; [|exact Hb]. simpl. tauto. }
    assert (Forall (fun y => y <= hi) (List.map snd scores)) as U.
    { apply List.Forall_map. eapply List.Forall_impl; [|exact Hb]. simpl. tauto. }
    split.
    + apply Qle_shift_div_l; [exact Np | apply Qsum_lower, L].
    + apply Qle_shift_div_r; [exact Np | apply Qsum_upper, U].
Qed.

Lemma pagespeed_scores_graded_and_averaged_witness :
  let a := _analyze_results (fun _ => ""%string) (fun _ => ""%string)
             {| in_pagespeed := Output (Some [("Performance"%string, 40); ("SEO"%string, 95)]);
                in_seo := NotRun; in_loadtest := NotRun |} in
  0 <= a_overall_score a /\ a_overall_score a <= 100.
Proof.
  apply (pagespeed_scores_graded_and_averaged (fun _ => ""%string) (fun _ => ""%string)
           [("Performance"%string, 40); ("SEO"%string, 95)] 0 100).
  - discriminate.
  - repeat constructor; simpl; lra.
Defined.

Local Close Scope Q_scope.

Local Open Scope Q_scope.

Lemma rate_of_below_99 (s t : Z) :
  (0 < t)%Z -> (rate_of s t < 99 <-> (100 * s < 99 * t)%Z).
Proof.
  intros Ht. unfold rate_of.
  replace (t >? 0)%Z with true by (symmetry; apply Z.gtb_lt; exact Ht).
  assert (0 < inject_Z t) as Tp by (change 0 with (inject_Z 0); rewrite <- Zlt_Qlt; exact Ht).
  assert (inject_Z t * (inject_Z s / inject_Z t) == inject_Z s) as E
    by (apply Qmult_div_r; lra).
  rewrite Zlt_Qlt, !inject_Z_mult.
  change (inject_Z 100) with 100. change (inject_Z 99) with 99.
  set (q := inject_Z s / inject_Z t) in *. split; intros H; nra.
Qed.

(** The finding the analyzer adds for a low success rate. *)
Lemma analyze_loadtest_only (fmt_0f fmt_1f : Q -> string) (r : LoadTestResult) :
  let a := _analyze_results fmt_0f fmt_1f
             {| in_pagespeed := NotRun; in_seo := NotRun; in_loadtest := Output r |} in
  (Exists (fun f => f_category f = "reliability"%string) (a_issues a)
     <-> success_rate r < 99)
  /\ (avg_response_time r <= 500 -> success_rate r < 99 ->
        a_issues a =
        [{| f_severity := Some "high"%string; f_category := "reliability";
            f_metric := None; f_score := None;
            f_message := "High error rate: " +:+ fmt_1f (100 - success_rate r)
                           +:+ "% failures" |}]
        /\ a_warnings a = [])
  /\ a_passed a = [].
Proof.
  intros a. unfold a, _analyze_results, collect_findings, sort_by_severity. simpl.
  destruct (Qlt_le_dec 1000 (avg_response_time r)) as [S|S];
    [|destruct (Qlt_le_dec 500 (avg_response_time r)) as [W|W]];
    destruct (Qlt_le_dec (success_rate r) 99) as [R|R]; simpl;
    (split; [split; [intros H; try exact R; inversion H as [? ? E|? ? E]; subst;
                     try discriminate; inversion E as [? ? E'|? ? E']; subst;
                     try discriminate; inversion E'
                    |intros H; try (exfalso; lra);
                     first [apply Exists_cons_hd; reflexivity
                           |apply Exists_cons_tl, Exists_cons_hd; reflexivity]]
           |split; [intros; try (exfalso; lra); split; reflexivity | reflexivity]]).
Qed.

(** X21.  Fed the result of a run alone, the analyzer raises its
    reliability issue ("High error rate") exactly when the success rate is
    below 99, which for a run of at least one request means that more than
    one request in a hundred failed, and which is always the case for a run
    of zero requests.  When no request completed this is the only finding. *)
Theorem reliability_issue_above_one_percent (sqrt : Q -> Q) (fmt_0f fmt_1f : Q -> string)
    (cfg : Config) (tr : list event) (dur : Q) (r : LoadTestResult) :
  run sqrt cfg tr dur = Some (Ret r) ->
  let a := _analyze_results fmt_0f fmt_1f
             {| in_pagespeed := NotRun; in_seo := NotRun; in_loadtest := Output r |} in
  (Exists (fun f => f_category f = "reliability"%string) (a_issues a)
     <-> success_rate r < 99)
  /\ ((0 < requests cfg)%Z ->
        (success_rate r < 99 <-> (requests cfg < 100 * failed r)%Z))
  /\ ((requests cfg <= 0)%Z -> success_rate r < 99)
  /\ (count_completed (replies tr) = 0%nat ->
        a_issues a =
        [{| f_severity := Some "high"%string; f_category := "reliability";
            f_metric := None; f_score := None;
            f_message := "High error rate: " +:+ fmt_1f (100 - success_rate r)
                           +:+ "% failures" |}]
        /\ a_warnings a = [] /\ a_passed a = []).
Proof.
  intros Hrun a.
  destruct (analyze_loadtest_only fmt_0f fmt_1f r) as (A & B & C). fold a in A, B, C.
  destruct (run_result sqrt cfg tr dur r Hrun) as (st0 & st & Hi & Hx & Hd & E).
  destruct (_calculate_stats_rates sqrt (elapsed_times (replies tr))
              (st_status_codes st) (diagnostics (replies tr)) (requests cfg) dur)
    as (r' & E' & Hrate & _ & Hs & Hf & _).
  rewrite E in E'. injection E' as <-.
  split; [exact A|]. split; [|split].
  - intros Hpos. rewrite Hrate, Hf, (rate_of_below_99 _ _ Hpos). lia.
  - intros Hneg. rewrite Hrate. unfold rate_of.
    replace (requests cfg >? 0)%Z with false
      by (symmetry; rewrite Z.gtb_ltb; apply Z.ltb_ge; lia).
    lra.
  - intros Hz. rewrite (no_completed_no_elapsed _ Hz), _calculate_stats_empty in E.
    assert (avg_response_time r = 0) as Ha by (injection E as <-; reflexivity).
    assert (success_rate r == 0) as Hr0
      by (injection E as <-; simpl; apply rate_of_zero).
    destruct B as [B1 B2]; [rewrite Ha; lra | lra |].
    split; [exact B1|]. split; [exact B2 | exact C].
Qed.

Lemma reliability_issue_above_one_percent_witness :
  exists r, run (fun x => x) failing_config failing_schedule 1 = Some (Ret r)
    /\ Exists (fun f => f_category f = "reliability"%string)
         (a_issues (_analyze_results (fun _ => ""%string) (fun _ => ""%string)
                      {| in_pagespeed := NotRun; in_seo := NotRun;
                         in_loadtest := Output r |})).
Proof.
  destruct (run (fun x => x) failing_config failing_schedule 1) as [[r|e]|] eqn:E;
    [|vm_compute in E; discriminate..].
  exists r. split; [reflexivity|].
  destruct (reliability_issue_above_one_percent (fun x => x) (fun _ => ""%string)
              (fun _ => ""%string) _ _ _ r E) as (_ & _ & _ & H).
  destruct H as (H & _); [vm_compute; reflexivity|].
  rewrite H. apply Exists_cons_hd. reflexivity.
Defined.

Local Close Scope Q_scope.
